(** * Zodiac: channel contract, message dispatch and socket reconnection

    A shallow embedding of the channel layer of [@xtr-dev/zodiac]:
    - [types.ts]          messages, handlers, message definitions;
    - [base-channel.ts]   the handler registry, [sendMessage], [on], [off],
                          [handleMessage], [validateAndSerialize], [isOpen];
    - [browser-channel.ts] the WebSocket channel with its reconnect logic
                          ([node-channel.ts] has the same [connect], [onclose]
                          and [disconnect] over the [ws] library);
    - [peer-channel.ts]   the WebRTC channel: the channel contract
                          ([connect], [disconnect], [send]), signaling, the
                          data channel and the connection timeout.

    JavaScript runs each callback to completion on one event loop, so a
    method or an event handler is a function from the state before it to its
    completion and the state after it.  Promises that settle later
    (the one returned by [connect], the one returned by [disconnect]) are
    objects of the state, settled by the transport event that the source
    hooks them to.  An [async] method that awaits the platform is given by
    the call that nothing interrupts; [handleAnswer], which awaits in a
    loop, is also given await by await. *)

From Stdlib Require Import ZArith Lia.
From stdpp Require Import base option list strings gmap.

Set Warnings "-register-all".
Local Open Scope Z_scope.

(** ** JavaScript values and the JSON codec *)

Module JS.

(** The values that travel through the channel.  [VUndefined] is the
    value of a missing property.  [VNum] holds the finite numbers, taken
    to be integer-valued (timestamps, counters, delays); the numbers that
    JSON has no token for are values of their own: [NaN], the two
    infinities and the negative zero.  A [Date] is given by what its
    [toJSON] returns: the text of [toISOString], or nothing for an invalid
    date.  [VArr] and [VObj] are arrays and plain objects.  Values on
    which [JSON.stringify] throws (a [BigInt], an object that contains
    itself) are left out. *)
Inductive Value : Type :=
| VUndefined
| VNull
| VBool (b : bool)
| VNum (n : Z)
| VNegZero
| VNaN
| VInfinity (negative : bool)
| VStr (s : string)
| VDate (iso : option string)
| VArr (items : list Value)
| VObj (props : list (string * Value)).

(** What a JSON text can denote.  A document is taken as the engine
    holds it once parsed: each key of an object once, the members in the
    order in which the engine enumerates them, and number tokens that
    denote integers which a number holds exactly. *)
Inductive Json : Type :=
| JNull
| JBool (b : bool)
| JNum (n : Z)
| JStr (s : string)
| JArr (items : list Json)
| JObj (members : list (string * Json)).

(** An [Error] object, with the [toString] of [Error.prototype]. *)
Record Error : Type := mkError { err_name : string; err_message : string }.

Definition new_Error (message : string) : Error := mkError "Error" message.
Definition TypeError (message : string) : Error := mkError "TypeError" message.
Definition SyntaxError (message : string) : Error := mkError "SyntaxError" message.

(** [Error.prototype.toString]: the name alone when the message is empty,
    the message alone when the name is empty, else [name: message]. *)
Definition Error_toString (e : Error) : string :=
  if String.eqb (err_name e) "" then err_message e
  else if String.eqb (err_message e) "" then err_name e
  else err_name e +:+ ": " +:+ err_message e.

(** A value that was thrown, or the reason of a rejection: JavaScript
    throws any value.  The channel does one thing with a value it
    catches, [`${error}`], so a thrown value that is not an [Error] object
    is given by what its conversion to a string does: it yields a text (a
    string, a number, an object with a [toString] of its own), or it
    throws in its turn: a [TypeError] for a Symbol and for an object
    without prototype, and whatever the [toString] of the object throws. *)
Inductive Thrown : Type :=
| Err (e : Error)
| Prints (text : string)
| Unprintable (raised : Thrown).

Coercion Err : Error >-> Thrown.

(** Completion of a call: a normal value or a thrown value.  For an
    [async] function [Throw] is the rejection of the returned promise. *)
Inductive Completion (A : Type) : Type :=
| Normal (a : A)
| Throw (e : Thrown).
Arguments Normal {A} a.
Arguments Throw {A} e.

(** [`${error}`] *)
Definition String_of (error : Thrown) : Completion string :=
  match error with
  | Err e => Normal (Error_toString e)
  | Prints text => Normal text
  | Unprintable raised => Throw raised
  end.

(** What a thrown Symbol is to the channel. *)
Definition thrown_Symbol : Thrown :=
  Unprintable (TypeError "Cannot convert a Symbol value to a string").

(** [ToBoolean]: the test that [||] applies to its left operand. *)
Definition truthy (v : Value) : bool :=
  match v with
  | VUndefined | VNull => false
  | VBool b => b
  | VNum n => negb (Z.eqb n 0)
  | VNegZero | VNaN => false
  | VInfinity _ => true
  | VStr s => negb (String.eqb s "")
  | VDate _ | VArr _ | VObj _ => true
  end.

(** [a || b] *)
Definition or_else (a b : Value) : Value := if truthy a then a else b.

(** Own property lookup in a property list; a later binding of a key
    shadows an earlier one, as when [JSON.parse] meets a key twice. *)
Fixpoint lookup_prop (k : string) (props : list (string * Value)) : option Value :=
  match props with
  | [] => None
  | (k', v) :: rest =>
      match lookup_prop k rest with
      | Some w => Some w
      | None => if String.eqb k k' then Some v else None
      end
  end.

(** [v.k] for one of the keys the channel reads ([id], [data],
    [timestamp]): a [TypeError] on [null] and [undefined], [undefined] on
    the other primitives and on arrays, the property on objects. *)
Definition get (v : Value) (k : string) : Completion Value :=
  match v with
  | VUndefined => Throw (TypeError ("Cannot read properties of undefined (reading '" +:+ k +:+ "')"))
  | VNull => Throw (TypeError ("Cannot read properties of null (reading '" +:+ k +:+ "')"))
  | VObj props => Normal (default VUndefined (lookup_prop k props))
  | _ => Normal VUndefined
  end.

(** The value a JSON document denotes. *)
Fixpoint of_json (j : Json) : Value :=
  match j with
  | JNull => VNull
  | JBool b => VBool b
  | JNum n => VNum n
  | JStr s => VStr s
  | JArr items => VArr (List.map of_json items)
  | JObj members =>
      VObj (List.map (fun '(k, x) => (k, of_json x)) members)
  end.

(** [SerializeJSONProperty]: [None] stands for the result [undefined],
    which drops the property from an object and becomes [null] in an
    array.  A number that is not finite is written [null], the negative
    zero [0], and a [Date] what its [toJSON] returns. *)
Fixpoint serialize (v : Value) : option Json :=
  match v with
  | VUndefined => None
  | VNull => Some JNull
  | VBool b => Some (JBool b)
  | VNum n => Some (JNum n)
  | VNegZero => Some (JNum 0)
  | VNaN | VInfinity _ => Some JNull
  | VStr s => Some (JStr s)
  | VDate (Some iso) => Some (JStr iso)
  | VDate None => Some JNull
  | VArr items =>
      Some (JArr (List.map (fun x => default JNull (serialize x)) items))
  | VObj props =>
      Some (JObj (omap (fun '(k, x) => pair k <$> serialize x) props))
  end.

(** A text frame, up to JSON syntax: the document it denotes, or a text
    that is not JSON, with the message of the [SyntaxError] that the
    [JSON.parse] of the engine throws on it. *)
Inductive Text : Type :=
| JsonText (doc : Json)
| NotJson (chars : string) (complaint : string).

(** [JSON.stringify(v)]; on [undefined] the platform returns [undefined],
    which a socket would write as the text [undefined]. *)
Definition JSON_stringify (v : Value) : Text :=
  match serialize v with
  | Some doc => JsonText doc
  | None => NotJson "undefined" "Unexpected token u in JSON at position 0"
  end.

(** [JSON.parse(text)] *)
Definition JSON_parse (t : Text) : Completion Value :=
  match t with
  | JsonText doc => Normal (of_json doc)
  | NotJson _ complaint => Throw (SyntaxError complaint)
  end.

(** The values that a JSON text can denote: made of [null], booleans,
    finite numbers other than the negative zero, strings, arrays and plain
    objects, with no [undefined], [NaN], infinity or [Date] inside. *)
Fixpoint json_representable (v : Value) : bool :=
  match v with
  | VUndefined | VNegZero | VNaN | VInfinity _ | VDate _ => false
  | VNull | VBool _ | VNum _ | VStr _ => true
  | VArr items => forallb json_representable items
  | VObj props =>
      forallb (fun '(_, x) => json_representable x) props
  end.

(** Induction on values, through the lists of arrays and objects. *)
Section ValueInduction.

Variable P : Value -> Prop.
Hypothesis P_undefined : P VUndefined.
Hypothesis P_null : P VNull.
Hypothesis P_bool : forall b, P (VBool b).
Hypothesis P_num : forall n, P (VNum n).
Hypothesis P_negzero : P VNegZero.
Hypothesis P_nan : P VNaN.
Hypothesis P_infinity : forall negative, P (VInfinity negative).
Hypothesis P_str : forall s, P (VStr s).
Hypothesis P_date : forall iso, P (VDate iso).
Hypothesis P_arr : forall items, Forall P items -> P (VArr items).
Hypothesis P_obj : forall props, Forall (fun kv => P (snd kv)) props -> P (VObj props).

Fixpoint Value_nested_ind (v : Value) : P v :=
  match v with
  | VUndefined => P_undefined
  | VNull => P_null
  | VBool b => P_bool b
  | VNum n => P_num n
  | VNegZero => P_negzero
  | VNaN => P_nan
  | VInfinity negative => P_infinity negative
  | VStr s => P_str s
  | VDate iso => P_date iso
  | VArr items =>
      P_arr items
        ((fix go (l : list Value) : Forall P l :=
            match l with
            | [] => List.Forall_nil P
            | x :: rest => @List.Forall_cons _ P x rest (Value_nested_ind x) (go rest)
            end) items)
  | VObj props =>
      P_obj props
        ((fix go (l : list (string * Value)) : Forall (fun kv => P (snd kv)) l :=
            match l with
            | [] => List.Forall_nil _
            | kv :: rest =>
                @List.Forall_cons _ (fun kv => P (snd kv)) kv rest (Value_nested_ind (snd kv)) (go rest)
            end) props)
  end.

End ValueInduction.

End JS.

Import JS.

(** ** types.ts *)

Abbreviation MessageId := string (only parsing).

(** [Message]: the envelope as the receiving side builds it.  At run time
    the three fields hold whatever the parsed frame had under these keys. *)
Record Message : Type := mkMessage {
  msg_id : Value;
  msg_data : Value;
  msg_timestamp : Value }.

(** A [MessageHandler] is a closure of the application; the registry keeps
    it by reference.  A call of it returns (or returns a promise that is
    fulfilled), throws a value, or returns a promise that rejects with a
    value: handlers are taken to settle, and not to call [on] or [off] of
    the channel while it is dispatching to them. *)
Abbreviation HandlerRef := nat (only parsing).

Inductive HandlerResult : Type :=
| Returns
| Throws (e : Thrown)
| Rejects (e : Thrown).

(** [MessageDefinition]: the id and the data schema, a schema being its
    [parse] method (the validated data, or the validation error it throws).
    The channel never reads [messageSchema]. *)
Record MessageDefinition : Type := mkDefinition {
  def_id : MessageId;
  schema : Value -> Completion Value }.

(** [defineMessage(id, dataSchema)] of index.ts. *)
Definition defineMessage (id : MessageId) (dataSchema : Value -> Completion Value)
  : MessageDefinition :=
  {| def_id := id; schema := dataSchema |}.

(** The first argument of [on] and [off]. *)
Inductive IdOrDefinition : Type :=
| ById (id : MessageId)
| ByDefinition (definition : MessageDefinition).

(** ** What an observer of the channel sees it do

    The calls of handlers, the lines written with [console.error], the
    frames handed to the socket or data channel, the timers set, and the
    calls of [connect] (by the application or by a timer). *)

Inductive Effect : Type :=
| HandlerCall (handler : HandlerRef) (data : Value) (message : Message)
| ConsoleError (line : string)
| SocketSend (socket : nat) (text : Text)
| SetTimeout (delay : Z) (url : string)
| ConnectCall (url : string).

(** ** A state monad with exceptions

    A throw keeps the state changes made before it, as in JavaScript. *)

Definition M (W A : Type) : Type := W -> Completion A * W.

Definition ret {W A} (a : A) : M W A := fun w => (Normal a, w).

Definition bind {W A B} (m : M W A) (k : A -> M W B) : M W B :=
  fun w =>
    match m w with
    | (Normal a, w') => k a w'
    | (Throw e, w') => (Throw e, w')
    end.

Definition throw {W A} (e : Thrown) : M W A := fun w => (Throw e, w).

Definition lift {W A} (c : Completion A) : M W A := fun w => (c, w).

Definition try_catch {W A} (m : M W A) (handler : Thrown -> M W A) : M W A :=
  fun w =>
    match m w with
    | (Normal a, w') => (Normal a, w')
    | (Throw e, w') => handler e w'
    end.

Definition gets {W A} (f : W -> A) : M W A := fun w => (Normal (f w), w).

Definition modify {W} (f : W -> W) : M W unit := fun w => (Normal tt, f w).

Notation "'let!' x ':=' m 'in' k" := (bind m (fun x => k))
  (at level 10, x name, m at level 100, k at level 200).
Notation "'do!' m 'in' k" := (bind m (fun _ => k))
  (at level 10, m at level 100, k at level 200).

(** [for (const x of xs) body(x)] *)
Fixpoint for_of {W A} (xs : list A) (body : A -> M W unit) : M W unit :=
  match xs with
  | [] => ret tt
  | x :: rest => do! body x in for_of rest body
  end.

(** ** base-channel.ts *)

(** A JavaScript [Set] of handlers iterates in insertion order and holds a
    reference once. *)
Definition Set_add (handler : HandlerRef) (s : list HandlerRef) : list HandlerRef :=
  if decide (handler ∈ s) then s else s ++ [handler].

Definition Set_delete (handler : HandlerRef) (s : list HandlerRef) : list HandlerRef :=
  filter (fun h => h ≠ handler) s.

(** The fields of [BaseChannel], the fields [T] that a subclass adds
    (with the platform objects it owns), and the effects so far. *)
Record Channel (T : Type) : Type := mkChannel {
  messageHandlers : gmap string (list HandlerRef);
  isConnected : bool;
  transport : T;
  effects : list Effect }.
Arguments mkChannel {T} _ _ _ _.
Arguments messageHandlers {T} _.
Arguments isConnected {T} _.
Arguments transport {T} _.
Arguments effects {T} _.

(** [new BaseChannel()] with the subclass fields [t]. *)
Definition new_Channel {T} (t : T) : Channel T :=
  {| messageHandlers := ∅; isConnected := false; transport := t; effects := [] |}.

Definition set_messageHandlers {T} (m : gmap string (list HandlerRef)) (c : Channel T)
  : Channel T :=
  {| messageHandlers := m; isConnected := isConnected c;
     transport := transport c; effects := effects c |}.

Definition set_isConnected {T} (b : bool) (c : Channel T) : Channel T :=
  {| messageHandlers := messageHandlers c; isConnected := b;
     transport := transport c; effects := effects c |}.

Definition set_transport {T} (t : T) (c : Channel T) : Channel T :=
  {| messageHandlers := messageHandlers c; isConnected := isConnected c;
     transport := t; effects := effects c |}.

Definition emit {T} (e : Effect) (c : Channel T) : Channel T :=
  {| messageHandlers := messageHandlers c; isConnected := isConnected c;
     transport := transport c; effects := effects c ++ [e] |}.

(** The abstract [send] of [BaseChannel]; [now] is what [Date.now()]
    returns during the call. *)
Class Transport (T : Type) : Type := {
  send : MessageId -> Value -> Z -> M (Channel T) unit }.

Section BaseChannel.

Context {T : Type}.

(** The closures of the application, by reference. *)
Variable call : HandlerRef -> Value -> Message -> HandlerResult.

(** [typeof idOrDefinition === 'string' ? idOrDefinition : idOrDefinition.id] *)
Definition id_of (idOrDefinition : IdOrDefinition) : MessageId :=
  match idOrDefinition with
  | ById id => id
  | ByDefinition definition => def_id definition
  end.

Definition sendMessage `{!Transport T} (definition : MessageDefinition) (data : Value)
  (now : Z) : M (Channel T) unit :=
  let! validatedData := lift (schema definition data) in
  send (def_id definition) validatedData now.

Definition on (idOrDefinition : IdOrDefinition) (handler : HandlerRef)
  (c : Channel T) : Channel T :=
  let id := id_of idOrDefinition in
  let handlers :=
    match messageHandlers c !! id with
    | Some _ => messageHandlers c
    | None => <[id := []]> (messageHandlers c)
    end in
  set_messageHandlers
    (<[id := Set_add handler (default [] (handlers !! id))]> handlers) c.

Definition off (idOrDefinition : IdOrDefinition) (handler : HandlerRef)
  (c : Channel T) : Channel T :=
  let id := id_of idOrDefinition in
  match messageHandlers c !! id with
  | Some handlers =>
      set_messageHandlers (<[id := Set_delete handler handlers]> (messageHandlers c)) c
  | None => c
  end.

(** [this.messageHandlers.get(message.id)]: the keys are strings. *)
Definition Map_get (m : gmap string (list HandlerRef)) (key : Value)
  : option (list HandlerRef) :=
  match key with
  | VStr id => m !! id
  | _ => None
  end.

Definition console_error (line : string) : M (Channel T) unit :=
  modify (emit (ConsoleError line)).

(** [await handler(message.data, message)] *)
Definition await_handler (handler : HandlerRef) (data : Value) (message : Message)
  : M (Channel T) unit :=
  do! modify (emit (HandlerCall handler data message)) in
  match call handler data message with
  | Returns => ret tt
  | Throws e => throw e
  | Rejects e => throw e
  end.

(** The first two statements of [handleMessage]:
    [const parsed = JSON.parse(rawMessage)] and
    [const message = { id: parsed.id, data: parsed.data,
                       timestamp: parsed.timestamp || Date.now() }]. *)
Definition parse_message (rawMessage : Text) (now : Z) : Completion Message :=
  match JSON_parse rawMessage with
  | Throw e => Throw e
  | Normal parsed =>
      match get parsed "id", get parsed "data", get parsed "timestamp" with
      | Normal id, Normal data, Normal timestamp =>
          Normal (mkMessage id data (or_else timestamp (VNum now)))
      | Throw e, _, _ => Throw e
      | _, Throw e, _ => Throw e
      | _, _, Throw e => Throw e
      end
  end.

(** [console.error(`...${error}`)]: the template converts [error] to a
    string before [console.error] is called, and the conversion can
    throw. *)
Definition report (prefix : string) (error : Thrown) : M (Channel T) unit :=
  let! text := lift (String_of error) in
  console_error (prefix +:+ text).

Definition handleMessage (rawMessage : Text) (now : Z) : M (Channel T) unit :=
  try_catch
    (let! message := lift (parse_message rawMessage now) in
     let! handlers := gets (fun c => Map_get (messageHandlers c) (msg_id message)) in
     match handlers with
     | Some handlers =>
         for_of handlers (fun handler =>
           try_catch (await_handler handler (msg_data message) message)
             (report "Message handler error: "))
     | None => ret tt
     end)
    (report "Failed to parse message: ").

Definition validateAndSerialize (id : MessageId) (data : Value) (now : Z) : Text :=
  let message := VObj [("id", VStr id); ("data", data); ("timestamp", VNum now)] in
  JSON_stringify message.

Definition isOpen (c : Channel T) : bool := isConnected c.

End BaseChannel.

(** ** browser-channel.ts *)

Module BrowserChannel.

(** [WebSocket.readyState] *)
Inductive ReadyState : Type := CONNECTING | OPEN | CLOSING | CLOSED.

#[global] Instance ReadyState_eq_dec : EqDecision ReadyState.
Proof. solve_decision. Defined.

Inductive PromiseState : Type :=
| Pending
| Fulfilled
| Rejected (reason : Error).

(** A [WebSocket] object made by [connect(url)].  Its [onopen], [onclose]
    and [onerror] handlers are closures over [url] and over the [resolve]
    and [reject] of the promise that this call of [connect] returned;
    [close_listeners] counts the [handleClose] listeners that calls of
    [disconnect] have added to it. *)
Record WebSocket : Type := mkWebSocket {
  ws_url : string;
  readyState : ReadyState;
  connect_promise : PromiseState;
  close_listeners : nat }.

(** The private fields of [BrowserChannel], the [WebSocket] objects made
    so far (a reference is an index) and the pending [setTimeout]
    callbacks, each with its delay and the [url] of its closure. *)
Record Fields : Type := mkFields {
  ws : option nat;
  reconnectAttempts : Z;
  maxReconnectAttempts : Z;
  reconnectDelay : Z;
  sockets : list WebSocket;
  timers : list (Z * string) }.

Definition BrowserChannel : Type := Channel Fields.

(** [new BrowserChannel()] *)
Definition new_BrowserChannel : BrowserChannel :=
  new_Channel
    {| ws := None; reconnectAttempts := 0; maxReconnectAttempts := 5;
       reconnectDelay := 1000; sockets := []; timers := [] |}.

Definition set_ws (r : option nat) (f : Fields) : Fields :=
  {| ws := r; reconnectAttempts := reconnectAttempts f;
     maxReconnectAttempts := maxReconnectAttempts f;
     reconnectDelay := reconnectDelay f; sockets := sockets f; timers := timers f |}.

Definition set_reconnectAttempts (n : Z) (f : Fields) : Fields :=
  {| ws := ws f; reconnectAttempts := n;
     maxReconnectAttempts := maxReconnectAttempts f;
     reconnectDelay := reconnectDelay f; sockets := sockets f; timers := timers f |}.

Definition set_policy (maxAttempts baseDelay : Z) (f : Fields) : Fields :=
  {| ws := ws f; reconnectAttempts := reconnectAttempts f;
     maxReconnectAttempts := maxAttempts;
     reconnectDelay := baseDelay; sockets := sockets f; timers := timers f |}.

Definition set_sockets (l : list WebSocket) (f : Fields) : Fields :=
  {| ws := ws f; reconnectAttempts := reconnectAttempts f;
     maxReconnectAttempts := maxReconnectAttempts f;
     reconnectDelay := reconnectDelay f; sockets := l; timers := timers f |}.

Definition set_timers (l : list (Z * string)) (f : Fields) : Fields :=
  {| ws := ws f; reconnectAttempts := reconnectAttempts f;
     maxReconnectAttempts := maxReconnectAttempts f;
     reconnectDelay := reconnectDelay f; sockets := sockets f; timers := l |}.

Definition set_readyState (s : ReadyState) (w : WebSocket) : WebSocket :=
  {| ws_url := ws_url w; readyState := s;
     connect_promise := connect_promise w; close_listeners := close_listeners w |}.

(** [resolve()] and [reject(e)] act on a pending promise only. *)
Definition settle (p : PromiseState) (w : WebSocket) : WebSocket :=
  match connect_promise w with
  | Pending =>
      {| ws_url := ws_url w; readyState := readyState w;
         connect_promise := p; close_listeners := close_listeners w |}
  | _ => w
  end.

Definition set_close_listeners (n : nat) (w : WebSocket) : WebSocket :=
  {| ws_url := ws_url w; readyState := readyState w;
     connect_promise := connect_promise w; close_listeners := n |}.

Definition update (g : Fields -> Fields) (c : BrowserChannel) : BrowserChannel :=
  set_transport (g (transport c)) c.

Definition update_socket (socket : nat) (g : WebSocket -> WebSocket)
  (c : BrowserChannel) : BrowserChannel :=
  update (fun f => set_sockets (alter g socket (sockets f)) f) c.

Definition socket_state (c : BrowserChannel) (socket : nat) : option ReadyState :=
  readyState <$> sockets (transport c) !! socket.

(** [this.ws && this.ws.readyState] *)
Definition ws_readyState (c : BrowserChannel) : option ReadyState :=
  match ws (transport c) with
  | Some socket => socket_state c socket
  | None => None
  end.

Section Platform.

(** [new WebSocket(url)] throws on a url it does not accept. *)
Variable WebSocket_check : string -> option Error.

(** The closures of the application, by reference. *)
Variable call : HandlerRef -> Value -> Message -> HandlerResult.

(** [connect(url)].  [Throw e] is a promise rejected when [connect]
    returns; [Normal socket] is a pending promise, which [onopen] of the
    new socket resolves and [onerror] rejects. *)
Definition connect (url : string) : M BrowserChannel nat :=
  do! modify (emit (ConnectCall url)) in
  let! state := gets ws_readyState in
  match state with
  | Some CONNECTING => throw (new_Error "Connection already in progress")
  | Some OPEN => throw (new_Error "Already connected")
  | _ =>
      match WebSocket_check url with
      | Some error =>
          throw (new_Error ("Failed to create WebSocket: " +:+ Error_toString error))
      | None =>
          let! socket := gets (fun c => length (sockets (transport c))) in
          do! modify (update (fun f =>
                set_ws (Some socket)
                  (set_sockets (sockets f ++ [mkWebSocket url CONNECTING Pending 0]) f))) in
          ret socket
      end
  end.

(** [this.ws.onopen] *)
Definition onopen (socket : nat) (c : BrowserChannel) : BrowserChannel :=
  let c := set_isConnected true c in
  let c := update (set_reconnectAttempts 0) c in
  update_socket socket (settle Fulfilled) c.

(** [setTimeout(() => { this.reconnectAttempts++; this.connect(url).catch(() => {}) }, delay)] *)
Definition setTimeout (url : string) (delay : Z) (c : BrowserChannel) : BrowserChannel :=
  update (fun f => set_timers (timers f ++ [(delay, url)]) f) (emit (SetTimeout delay url) c).

(** [this.ws.onclose], a closure over the [url] of its [connect]. *)
Definition onclose (url : string) (c : BrowserChannel) : BrowserChannel :=
  let c := set_isConnected false c in
  let f := transport c in
  if reconnectAttempts f <? maxReconnectAttempts f
  then setTimeout url (reconnectDelay f * 2 ^ reconnectAttempts f) c
  else c.

(** [this.ws.onerror] *)
Definition onerror (socket : nat) (c : BrowserChannel) : BrowserChannel :=
  update_socket socket (settle (Rejected (new_Error "WebSocket error"))) c.

(** [this.ws.onmessage] *)
Definition onmessage (data : Text) (now : Z) (c : BrowserChannel) : BrowserChannel :=
  snd (handleMessage call data now c).

(** The callback that [onclose] hands to [setTimeout]. *)
Definition reconnect (url : string) (c : BrowserChannel) : BrowserChannel :=
  let c := update (fun f => set_reconnectAttempts (reconnectAttempts f + 1) f) c in
  snd (try_catch (do! connect url in ret tt) (fun _ => ret tt) c).

(** [ws.close()]: starts the closing handshake unless the socket is
    closing or closed already. *)
Definition WebSocket_close (w : WebSocket) : WebSocket :=
  match readyState w with
  | CONNECTING | OPEN => set_readyState CLOSING w
  | CLOSING | CLOSED => w
  end.

(** [disconnect()].  [Normal None] is a promise resolved when
    [disconnect] returns; [Normal (Some socket)] is a pending promise,
    which the [handleClose] listener resolves at the close event of
    [socket]. *)
Definition disconnect : M BrowserChannel (option nat) :=
  let! current := gets (fun c => ws (transport c)) in
  match current with
  | None => ret None
  | Some socket =>
      let! state := gets (fun c => socket_state c socket) in
      match state with
      | Some CLOSED => ret None
      | _ =>
          do! modify (update_socket socket
                (fun w => WebSocket_close
                            (set_close_listeners (S (close_listeners w)) w))) in
          ret (Some socket)
      end
  end.

Definition BrowserChannel_send (id : MessageId) (data : Value) (now : Z)
  : M BrowserChannel unit :=
  let! current := gets (fun c => ws (transport c)) in
  let! state := gets ws_readyState in
  match current, state with
  | Some socket, Some OPEN =>
      let serialized := validateAndSerialize id data now in
      modify (emit (SocketSend socket serialized))
  | _, _ => throw (new_Error "WebSocket is not connected")
  end.

#[global] Instance BrowserChannel_Transport : Transport Fields :=
  {| send := BrowserChannel_send |}.

Definition setReconnectOptions (maxAttempts baseDelay : Z) (c : BrowserChannel)
  : BrowserChannel :=
  update (set_policy maxAttempts baseDelay) c.

(** *** The events of the transport

    Each returns [None] when the platform cannot deliver the event in
    that state. *)

(** The open event: the socket was connecting. *)
Definition fire_open (socket : nat) (c : BrowserChannel) : option BrowserChannel :=
  match socket_state c socket with
  | Some CONNECTING => Some (onopen socket (update_socket socket (set_readyState OPEN) c))
  | _ => None
  end.

(** The error event, on a socket that is not closed yet. *)
Definition fire_error (socket : nat) (c : BrowserChannel) : option BrowserChannel :=
  match socket_state c socket with
  | Some CLOSED | None => None
  | Some _ => Some (onerror socket c)
  end.

(** The [handleClose] listeners of [disconnect] run after [onclose]; each
    resolves its promise and removes itself from [this.ws]. *)
Definition handleClose (socket : nat) (c : BrowserChannel) : BrowserChannel :=
  if decide (ws (transport c) = Some socket)
  then update_socket socket (set_close_listeners 0) c
  else c.

(** The close event: once per socket. *)
Definition fire_close (socket : nat) (c : BrowserChannel) : option BrowserChannel :=
  match sockets (transport c) !! socket with
  | Some w =>
      match readyState w with
      | CLOSED => None
      | _ =>
          Some (handleClose socket
                  (onclose (ws_url w) (update_socket socket (set_readyState CLOSED) c)))
      end
  | None => None
  end.

(** A message event, on an open socket. *)
Definition fire_message (socket : nat) (data : Text) (now : Z) (c : BrowserChannel)
  : option BrowserChannel :=
  match socket_state c socket with
  | Some OPEN => Some (onmessage data now c)
  | _ => None
  end.

(** The [k]-th pending timer fires. *)
Definition fire_timer (k : nat) (c : BrowserChannel) : option BrowserChannel :=
  match timers (transport c) !! k with
  | Some (_, url) =>
      Some (reconnect url (update (fun f => set_timers (delete k (timers f)) f) c))
  | None => None
  end.

(** What can happen to a channel: a call of a public method by the
    application, or an event of the platform. *)
Inductive Action : Type :=
| CallConnect (url : string)
| CallDisconnect
| CallSendMessage (definition : MessageDefinition) (data : Value) (now : Z)
| CallSend (id : MessageId) (data : Value) (now : Z)
| CallOn (idOrDefinition : IdOrDefinition) (handler : HandlerRef)
| CallOff (idOrDefinition : IdOrDefinition) (handler : HandlerRef)
| CallSetReconnectOptions (maxAttempts baseDelay : Z)
| OpenEvent (socket : nat)
| ErrorEvent (socket : nat)
| CloseEvent (socket : nat)
| MessageEvent (socket : nat) (data : Text) (now : Z)
| TimerEvent (k : nat).

Definition step (a : Action) (c : BrowserChannel) : option BrowserChannel :=
  match a with
  | CallConnect url => Some (snd (connect url c))
  | CallDisconnect => Some (snd (disconnect c))
  | CallSendMessage definition data now => Some (snd (sendMessage definition data now c))
  | CallSend id data now => Some (snd (send id data now c))
  | CallOn k handler => Some (on k handler c)
  | CallOff k handler => Some (off k handler c)
  | CallSetReconnectOptions maxAttempts baseDelay =>
      Some (setReconnectOptions maxAttempts baseDelay c)
  | OpenEvent socket => fire_open socket c
  | ErrorEvent socket => fire_error socket c
  | CloseEvent socket => fire_close socket c
  | MessageEvent socket data now => fire_message socket data now c
  | TimerEvent k => fire_timer k c
  end.

Fixpoint run (actions : list Action) (c : BrowserChannel) : option BrowserChannel :=
  match actions with
  | [] => Some c
  | a :: rest =>
      match step a c with
      | Some c' => run rest c'
      | None => None
      end
  end.

(** The states a channel can be in. *)
Definition reachable (c : BrowserChannel) : Prop :=
  exists actions, run actions new_BrowserChannel = Some c.

End Platform.

End BrowserChannel.

(** ** peer-channel.ts: the channel contract of [PeerChannel] *)

Module PeerChannel.

(** [RTCDataChannel.readyState] *)
Inductive DataChannelState : Type := dc_connecting | dc_open | dc_closing | dc_closed.

(** The private fields of [PeerChannel]; platform objects are kept by
    reference, the data channel with its [readyState]. *)
Record Fields : Type := mkFields {
  peerConnection : option nat;
  dataChannel : option (nat * DataChannelState);
  connectionTimeoutMillis : Z;
  peerId : string;
  remotePeerId : option string;
  signalingHandler : option nat;
  connectionTimeout : option nat;
  pendingIceCandidates : list Value }.

Definition PeerChannel : Type := Channel Fields.

(** [new PeerChannel(peerId)] with the default configuration. *)
Definition new_PeerChannel (peerId : string) : PeerChannel :=
  new_Channel
    {| peerConnection := None; dataChannel := None; connectionTimeoutMillis := 30000;
       peerId := peerId; remotePeerId := None; signalingHandler := None;
       connectionTimeout := None; pendingIceCandidates := [] |}.

(** [async connect(): Promise<void> { throw new Error(...) }]; whatever a
    caller passes is ignored. *)
Definition connect (arguments : list Value) : M PeerChannel unit :=
  throw (new_Error "Use createOffer() or handleOffer() to establish peer connection").

Definition disconnect : M PeerChannel unit :=
  modify (fun c =>
    let f := transport c in
    set_isConnected false
      (set_transport
         {| peerConnection := None; dataChannel := None;
            connectionTimeoutMillis := connectionTimeoutMillis f;
            peerId := peerId f; remotePeerId := None;
            signalingHandler := signalingHandler f;
            connectionTimeout := None;
            pendingIceCandidates := pendingIceCandidates f |} c)).

Definition PeerChannel_send (id : MessageId) (data : Value) (now : Z)
  : M PeerChannel unit :=
  let! channel := gets (fun c => dataChannel (transport c)) in
  match channel with
  | Some (ref, dc_open) =>
      let serialized := validateAndSerialize id data now in
      modify (emit (SocketSend ref serialized))
  | _ => throw (new_Error "Data channel is not open")
  end.

#[global] Instance PeerChannel_Transport : Transport Fields :=
  {| send := PeerChannel_send |}.

End PeerChannel.

(** ** Observations on runs *)

(** The handler calls among some effects, in order: handler, payload and
    envelope. *)
Definition handler_calls (es : list Effect) : list (HandlerRef * Value * Message) :=
  omap (fun e => match e with
                 | HandlerCall handler data message => Some (handler, data, message)
                 | _ => None
                 end) es.

(** The effects of a run from [c] to [c']. *)
Definition new_effects {T} (c c' : Channel T) : list Effect :=
  drop (length (effects c)) (effects c').

(** The handler calls that [handleMessage(rawMessage)] makes on [c]. *)
Definition dispatched {T} (call : HandlerRef -> Value -> Message -> HandlerResult)
  (rawMessage : Text) (now : Z) (c : Channel T) : list (HandlerRef * Value * Message) :=
  handler_calls (new_effects c (snd (handleMessage call rawMessage now c))).

Definition emit_all {T} (es : list Effect) (c : Channel T) : Channel T :=
  {| messageHandlers := messageHandlers c; isConnected := isConnected c;
     transport := transport c; effects := effects c ++ es |}.

(** The value with which a call of a handler failed. *)
Definition failure_of (r : HandlerResult) : option Thrown :=
  match r with
  | Returns => None
  | Throws e | Rejects e => Some e
  end.

(** A handler result that the catch block of the dispatch loop can deal
    with: the handler returned, or what it threw converts to a string. *)
Definition reportable (r : HandlerResult) : Prop :=
  match failure_of r with
  | Some (Unprintable _) => False
  | _ => True
  end.

(** The line that a catch block writes for [error], when [error]
    converts to a string. *)
Definition report_of (prefix : string) (error : Thrown) : list Effect :=
  match String_of error with
  | Normal text => [ConsoleError (prefix +:+ text)]
  | Throw _ => []
  end.

(** What a catch block throws in its turn. *)
Definition escape_of (error : option Thrown) : option Thrown :=
  match error with
  | Some e =>
      match String_of e with
      | Normal _ => None
      | Throw raised => Some raised
      end
  | None => None
  end.

(** What one handler adds to the effects: its call, and the report of
    its failure. *)
Definition handler_log (call : HandlerRef -> Value -> Message -> HandlerResult)
  (message : Message) (handler : HandlerRef) : list Effect :=
  HandlerCall handler (msg_data message) message ::
  match failure_of (call handler (msg_data message) message) with
  | Some e => report_of "Message handler error: " e
  | None => []
  end.

(** What leaves the turn of one handler. *)
Definition handler_escape (call : HandlerRef -> Value -> Message -> HandlerResult)
  (message : Message) (handler : HandlerRef) : option Thrown :=
  escape_of (failure_of (call handler (msg_data message) message)).

(** The handlers that the dispatch loop calls: those of the set, in
    order, up to the first one whose failure cannot be reported. *)
Fixpoint called (call : HandlerRef -> Value -> Message -> HandlerResult)
  (message : Message) (handlers : list HandlerRef) : list HandlerRef :=
  match handlers with
  | [] => []
  | handler :: rest =>
      handler ::
      match handler_escape call message handler with
      | Some _ => []
      | None => called call message rest
      end
  end.

(** What leaves the dispatch loop. *)
Fixpoint dispatch_escape (call : HandlerRef -> Value -> Message -> HandlerResult)
  (message : Message) (handlers : list HandlerRef) : option Thrown :=
  match handlers with
  | [] => None
  | handler :: rest =>
      match handler_escape call message handler with
      | Some raised => Some raised
      | None => dispatch_escape call message rest
      end
  end.

(** What reaches the outer catch block of [handleMessage]. *)
Definition caught {T} (call : HandlerRef -> Value -> Message -> HandlerResult)
  (rawMessage : Text) (now : Z) (c : Channel T) : option Thrown :=
  match parse_message rawMessage now with
  | Throw e => Some e
  | Normal message =>
      dispatch_escape call message
        (default [] (Map_get (messageHandlers c) (msg_id message)))
  end.

Definition handleMessage_log {T} (call : HandlerRef -> Value -> Message -> HandlerResult)
  (rawMessage : Text) (now : Z) (c : Channel T) : list Effect :=
  match parse_message rawMessage now with
  | Throw _ => []
  | Normal message =>
      flat_map (handler_log call message)
        (called call message (default [] (Map_get (messageHandlers c) (msg_id message))))
  end
  ++ match caught call rawMessage now c with
     | Some e => report_of "Failed to parse message: " e
     | None => []
     end.

Definition handleMessage_completion {T}
  (call : HandlerRef -> Value -> Message -> HandlerResult)
  (rawMessage : Text) (now : Z) (c : Channel T) : Completion unit :=
  match escape_of (caught call rawMessage now c) with
  | Some raised => Throw raised
  | None => Normal tt
  end.

(** Every handler set of the registry holds a reference once: what [on]
    and [off] maintain from the empty registry. *)
Definition registry_ok {T} (c : Channel T) : Prop :=
  forall id handlers, messageHandlers c !! id = Some handlers -> NoDup handlers.

(** The handler of a call. *)
Definition handler_of (x : HandlerRef * Value * Message) : HandlerRef := fst (fst x).

(** The handler and the payload of a call. *)
Definition payload_of (x : HandlerRef * Value * Message) : HandlerRef * Value :=
  (fst (fst x), snd (fst x)).

(** Reading a field of the envelope off a text frame. *)
Definition envelope_field (frame : Text) (key : string) : Completion Value :=
  match JSON_parse frame with
  | Normal parsed => get parsed key
  | Throw e => Throw e
  end.

(** The round trip of validated data: the frame that the send path
    writes at time [now] carries it in [data], and [handleMessage] on
    that frame calls every handler registered for the id with it. *)
Definition round_trip {T} (call : HandlerRef -> Value -> Message -> HandlerResult)
  (definition : MessageDefinition) (validated : Value) (now now' : Z)
  (c : Channel T) : Prop :=
  let frame := validateAndSerialize (def_id definition) validated now in
  envelope_field frame "data" = Normal validated /\
  List.map payload_of (dispatched call frame now' c)
  = List.map (fun handler => (handler, validated))
      (default [] (messageHandlers c !! def_id definition)).

(** The values that come back from the wire as they were sent:
    [undefined] as the whole payload, and the values that a JSON text can
    denote. *)
Definition survives_json (v : Value) : bool :=
  match v with
  | VUndefined => true
  | _ => json_representable v
  end.

(** The receive path told to fill the timestamp in only when the frame
    has none. *)
Definition fills_timestamp_only_when_absent (rawMessage : Text) (now : Z) : Prop :=
  forall timestamp message,
    envelope_field rawMessage "timestamp" = Normal timestamp ->
    parse_message rawMessage now = Normal message ->
    msg_timestamp message = match timestamp with
                            | VUndefined => VNum now
                            | _ => timestamp
                            end.

(** ** Observations on the socket channel *)

Module BrowserFacts.

Import BrowserChannel.

(** What an action does to the connection flag: the open event raises
    it, the close event lowers it, nothing else touches it. *)
Definition transition (a : Action) (connected : bool) : bool :=
  match a with
  | OpenEvent _ => true
  | CloseEvent _ => false
  | _ => connected
  end.

(** The flag after a run from a new channel: whether the last open or
    close event of the run was an open event. *)
Definition connected_after (actions : list Action) : bool :=
  fold_left (fun connected a => transition a connected) actions false.

(** The current socket, the ready states of all sockets, and the
    connection flag fit together: [this.ws] is a socket; a socket that is
    not [this.ws] is closing or closed; the flag is up only while
    [this.ws] is not closed. *)
Definition coherent (current : option nat) (states : list ReadyState)
  (connected : bool) : Prop :=
  (forall i, current = Some i -> is_Some (states !! i)) /\
  (forall j s, states !! j = Some s -> current <> Some j -> s = CLOSING \/ s = CLOSED) /\
  (connected = true ->
   exists i s, current = Some i /\ states !! i = Some s /\ s <> CLOSED).

Definition consistent (c : BrowserChannel) : Prop :=
  coherent (ws (transport c)) (readyState <$> sockets (transport c)) (isConnected c).

(** Explicit [disconnect()] told to be terminal: the close event of the
    socket it closes schedules no reconnect. *)
Definition disconnect_is_terminal (c : BrowserChannel) : Prop :=
  forall socket c1 c2,
    disconnect c = (Normal (Some socket), c1) ->
    fire_close socket c1 = Some c2 ->
    timers (transport c2) = timers (transport c1) /\ new_effects c1 c2 = [].

(** The part of the state that the connection flag depends on. *)
Definition view (c : BrowserChannel) : option nat * list ReadyState * bool :=
  (ws (transport c), readyState <$> sockets (transport c), isConnected c).

(** The ready state after [ws.close()]. *)
Definition closing (s : ReadyState) : ReadyState :=
  match s with
  | CONNECTING | OPEN => CLOSING
  | CLOSING | CLOSED => s
  end.

(** How one action can change the view: not at all; [connect] makes a
    new socket current while the old one is closing or closed;
    [disconnect] closes the current socket; a connecting socket opens; a
    socket is closed. *)
Inductive move : option nat * list ReadyState * bool ->
                 option nat * list ReadyState * bool -> Prop :=
| move_none v : move v v
| move_new current states connected :
    (forall i s, current = Some i -> states !! i = Some s -> s = CLOSING \/ s = CLOSED) ->
    move (current, states, connected)
         (Some (length states), states ++ [CONNECTING], connected)
| move_closing i states connected :
    move (Some i, states, connected) (Some i, alter closing i states, connected)
| move_open current i states connected :
    states !! i = Some CONNECTING ->
    move (current, states, connected) (current, alter (fun _ => OPEN) i states, true)
| move_closed current i states connected :
    move (current, states, connected) (current, alter (fun _ => CLOSED) i states, false).

End BrowserFacts.

(** ** Sample definitions, handlers and frames *)

Module Samples.

(** [z.number()] *)
Definition z_number (v : Value) : Completion Value :=
  match v with
  | VNum _ => Normal v
  | _ => Throw (mkError "ZodError" "Expected number")
  end.

(** [z.any()] *)
Definition z_any (v : Value) : Completion Value := Normal v.

Definition ping : MessageDefinition := defineMessage "ping" z_number.

Definition note : MessageDefinition := defineMessage "note" z_any.

(** Handlers that return. *)
Definition quiet : HandlerRef -> Value -> Message -> HandlerResult :=
  fun _ _ _ => Returns.

(** Handler 1 throws, the others return. *)
Definition faulty : HandlerRef -> Value -> Message -> HandlerResult :=
  fun handler _ _ =>
    match handler with
    | 1%nat => Throws (new_Error "boom")
    | _ => Returns
    end.

(** Handler 1 throws a Symbol, the others return. *)
Definition symbolic : HandlerRef -> Value -> Message -> HandlerResult :=
  fun handler _ _ =>
    match handler with
    | 1%nat => Throws thrown_Symbol
    | _ => Returns
    end.

(** Handler 1 throws an object whose [toString] throws a Symbol, the
    others return. *)
Definition hostile : HandlerRef -> Value -> Message -> HandlerResult :=
  fun handler _ _ =>
    match handler with
    | 1%nat => Throws (Unprintable thrown_Symbol)
    | _ => Returns
    end.

(** [{ text: undefined }], valid for [note]. *)
Definition draft : Value := VObj [("text", VUndefined)].

(** [[undefined]], valid for [note]. *)
Definition gap : Value := VArr [VUndefined].

(** [new Date(1700000000000)], valid for [note]. *)
Definition today : Value := VDate (Some "2023-11-14T22:13:20.000Z").

(** [{"id":"ping","data":1,"timestamp":0}] *)
Definition epoch_frame : Text :=
  JsonText (JObj [("id", JStr "ping"); ("data", JNum 1); ("timestamp", JNum 0)]).

(** [{"id":"ping","data":1,"timestamp":1700000000000}] *)
Definition stamped_frame : Text :=
  JsonText (JObj [("id", JStr "ping"); ("data", JNum 1);
                  ("timestamp", JNum 1700000000000)]).

(** A browser channel with an open socket. *)
Definition open_channel : BrowserChannel.BrowserChannel :=
  default BrowserChannel.new_BrowserChannel
    (BrowserChannel.run (fun _ => None) quiet
       [BrowserChannel.CallConnect "ws://localhost:8080"; BrowserChannel.OpenEvent 0%nat]
       BrowserChannel.new_BrowserChannel).

(** An open channel with handlers 1 and 2 registered for [ping], in this
    order. *)
Definition subscribed : BrowserChannel.BrowserChannel :=
  on (ById "ping") 2%nat (on (ById "ping") 1%nat open_channel).

(** Every url is accepted by [new WebSocket]. *)
Definition any_url : string -> option Error := fun _ => None.

(** [setReconnectOptions(3, 100)], a connection that opens and drops, and
    three reconnect attempts that fail. *)
Definition backoff_scenario : list BrowserChannel.Action :=
  [ BrowserChannel.CallSetReconnectOptions 3 100;
    BrowserChannel.CallConnect "ws://localhost:8080";
    BrowserChannel.OpenEvent 0%nat;
    BrowserChannel.CloseEvent 0%nat;
    BrowserChannel.TimerEvent 0%nat;
    BrowserChannel.ErrorEvent 1%nat;
    BrowserChannel.CloseEvent 1%nat;
    BrowserChannel.TimerEvent 0%nat;
    BrowserChannel.ErrorEvent 2%nat;
    BrowserChannel.CloseEvent 2%nat;
    BrowserChannel.TimerEvent 0%nat;
    BrowserChannel.ErrorEvent 3%nat;
    BrowserChannel.CloseEvent 3%nat ].

(** A connection that opens, an explicit [disconnect()], the close event
    it causes, and the timer that follows. *)
Definition disconnect_scenario : list BrowserChannel.Action :=
  [ BrowserChannel.CallConnect "ws://localhost:8080";
    BrowserChannel.OpenEvent 0%nat;
    BrowserChannel.CallDisconnect;
    BrowserChannel.CloseEvent 0%nat;
    BrowserChannel.TimerEvent 0%nat ].

End Samples.

(** ** peer-channel.ts: signaling, the data channel and the timeout

    The channel together with the platform objects it drives.  The
    definition of an [async] method is the call that runs to its end
    before the next call or event is handled; for [handleAnswer] the call
    is also given await by await. *)

Module PeerSession.

Import PeerChannel.

(** [RTCPeerConnection.connectionState] *)
Inductive PeerConnectionState : Type :=
| pcs_new | pcs_connecting | pcs_connected | pcs_disconnected | pcs_failed | pcs_closed.

(** An [RTCPeerConnection]: its descriptions, the candidates that
    [addIceCandidate] took, in order, and its connection state. *)
Record RTCPeerConnection : Type := mkPeerConnection {
  remoteDescription : option Value;
  localDescription : option Value;
  addedCandidates : list Value;
  connectionState : PeerConnectionState }.

(** [SignalingMessage] *)
Record SignalingMessage : Type := mkSignal {
  sig_type : string;
  sig_data : Value;
  sig_from : string;
  sig_to : string }.

(** The platform: the peer connections and data channels made so far (a
    reference is an index), the timers that are pending, the next timer
    handle, and the calls of the signaling handler (its reference and the
    message). *)
Record Platform : Type := mkPlatform {
  connections : list RTCPeerConnection;
  channels : list DataChannelState;
  timeouts : list nat;
  next_timeout : nat;
  signaled : list (nat * SignalingMessage) }.

Record Session : Type := mkSession {
  channel : PeerChannel;
  platform : Platform }.

(** The calls into the platform that can fail. *)
Inductive PlatformCall : Type :=
| NewPeerConnection
| CreateDataChannel (pc : nat)
| CreateOffer (pc : nat)
| CreateAnswer (pc : nat)
| SetLocalDescription (pc : nat) (description : Value)
| SetRemoteDescription (pc : nat) (description : Value)
| AddIceCandidate (pc : nat) (candidate : Value).

(** [new PeerChannel(peerId, config)]: [connectionTimeout] of the
    configuration replaces the default of 30000 when it is given. *)
Definition new_Session (peerId : string) (connectionTimeout : option Z) : Session :=
  {| channel :=
       new_Channel
         {| peerConnection := None; dataChannel := None;
            connectionTimeoutMillis := default 30000 connectionTimeout;
            peerId := peerId; remotePeerId := None; signalingHandler := None;
            PeerChannel.connectionTimeout := None; pendingIceCandidates := [] |};
     platform :=
       {| connections := []; channels := []; timeouts := []; next_timeout := 0;
          signaled := [] |} |}.

Definition fields (s : Session) : Fields := transport (channel s).

Definition set_channel (c : PeerChannel) (s : Session) : Session :=
  {| channel := c; platform := platform s |}.

Definition set_platform (p : Platform) (s : Session) : Session :=
  {| channel := channel s; platform := p |}.

Definition set_fields (f : Fields) (s : Session) : Session :=
  set_channel (set_transport f (channel s)) s.

Definition set_peerConnection (r : option nat) (f : Fields) : Fields :=
  {| peerConnection := r; dataChannel := dataChannel f;
     connectionTimeoutMillis := connectionTimeoutMillis f; peerId := peerId f;
     remotePeerId := remotePeerId f; signalingHandler := signalingHandler f;
     PeerChannel.connectionTimeout := PeerChannel.connectionTimeout f;
     pendingIceCandidates := pendingIceCandidates f |}.

Definition set_dataChannel (r : option (nat * DataChannelState)) (f : Fields) : Fields :=
  {| peerConnection := peerConnection f; dataChannel := r;
     connectionTimeoutMillis := connectionTimeoutMillis f; peerId := peerId f;
     remotePeerId := remotePeerId f; signalingHandler := signalingHandler f;
     PeerChannel.connectionTimeout := PeerChannel.connectionTimeout f;
     pendingIceCandidates := pendingIceCandidates f |}.

Definition set_remotePeerId (r : option string) (f : Fields) : Fields :=
  {| peerConnection := peerConnection f; dataChannel := dataChannel f;
     connectionTimeoutMillis := connectionTimeoutMillis f; peerId := peerId f;
     remotePeerId := r; signalingHandler := signalingHandler f;
     PeerChannel.connectionTimeout := PeerChannel.connectionTimeout f;
     pendingIceCandidates := pendingIceCandidates f |}.

Definition set_signalingHandler (r : option nat) (f : Fields) : Fields :=
  {| peerConnection := peerConnection f; dataChannel := dataChannel f;
     connectionTimeoutMillis := connectionTimeoutMillis f; peerId := peerId f;
     remotePeerId := remotePeerId f; signalingHandler := r;
     PeerChannel.connectionTimeout := PeerChannel.connectionTimeout f;
     pendingIceCandidates := pendingIceCandidates f |}.

Definition set_connectionTimeout (r : option nat) (f : Fields) : Fields :=
  {| peerConnection := peerConnection f; dataChannel := dataChannel f;
     connectionTimeoutMillis := connectionTimeoutMillis f; peerId := peerId f;
     remotePeerId := remotePeerId f; signalingHandler := signalingHandler f;
     PeerChannel.connectionTimeout := r;
     pendingIceCandidates := pendingIceCandidates f |}.

Definition set_pendingIceCandidates (l : list Value) (f : Fields) : Fields :=
  {| peerConnection := peerConnection f; dataChannel := dataChannel f;
     connectionTimeoutMillis := connectionTimeoutMillis f; peerId := peerId f;
     remotePeerId := remotePeerId f; signalingHandler := signalingHandler f;
     PeerChannel.connectionTimeout := PeerChannel.connectionTimeout f;
     pendingIceCandidates := l |}.

Definition set_connections (l : list RTCPeerConnection) (p : Platform) : Platform :=
  {| connections := l; channels := channels p; timeouts := timeouts p;
     next_timeout := next_timeout p; signaled := signaled p |}.

Definition set_channels (l : list DataChannelState) (p : Platform) : Platform :=
  {| connections := connections p; channels := l; timeouts := timeouts p;
     next_timeout := next_timeout p; signaled := signaled p |}.

Definition set_timeouts (l : list nat) (next : nat) (p : Platform) : Platform :=
  {| connections := connections p; channels := channels p; timeouts := l;
     next_timeout := next; signaled := signaled p |}.

Definition set_signaled (l : list (nat * SignalingMessage)) (p : Platform) : Platform :=
  {| connections := connections p; channels := channels p; timeouts := timeouts p;
     next_timeout := next_timeout p; signaled := l |}.

Definition update_fields (g : Fields -> Fields) : M Session unit :=
  modify (fun s => set_fields (g (fields s)) s).

Definition update_platform (g : Platform -> Platform) : M Session unit :=
  modify (fun s => set_platform (g (platform s)) s).

Definition update_connection (pc : nat) (g : RTCPeerConnection -> RTCPeerConnection)
  : M Session unit :=
  update_platform (fun p => set_connections (alter g pc (connections p)) p).

(** A method of the base channel, run on the channel of the session. *)
Definition on_channel {A} (m : M PeerChannel A) : M Session A :=
  fun s => let (r, c) := m (channel s) in (r, set_channel c s).

(** The ready state of a data channel changes; [this.dataChannel] sees it
    when it is that channel. *)
Definition set_channel_state (ref : nat) (state : DataChannelState) : M Session unit :=
  do! update_platform (fun p => set_channels (<[ref := state]> (channels p)) p) in
  update_fields (fun f =>
    match dataChannel f with
    | Some (current, _) =>
        if decide (current = ref) then set_dataChannel (Some (ref, state)) f else f
    | None => f
    end).

(** [dataChannel.close()] *)
Definition close_state (s : DataChannelState) : DataChannelState :=
  match s with
  | dc_connecting | dc_open => dc_closing
  | dc_closing | dc_closed => s
  end.

Section Platform.

(** Which calls the platform rejects, and the session descriptions that
    [createOffer] and [createAnswer] produce. *)
Variable fails : PlatformCall -> option Error.
Variable offer_of : nat -> Value.
Variable answer_of : nat -> Value.

(** The closures of the application, by reference. *)
Variable call : HandlerRef -> Value -> Message -> HandlerResult.

Definition platform_call (k : PlatformCall) : M Session unit :=
  match fails k with
  | Some error => throw error
  | None => ret tt
  end.

Definition setSignalingHandler (handler : nat) : M Session unit :=
  update_fields (set_signalingHandler (Some handler)).

Definition clearConnectionTimeout : M Session unit :=
  let! handle := gets (fun s => PeerChannel.connectionTimeout (fields s)) in
  match handle with
  | Some id =>
      do! update_platform (fun p =>
            set_timeouts (filter (fun t => t <> id) (timeouts p)) (next_timeout p) p) in
      update_fields (set_connectionTimeout None)
  | None => ret tt
  end.

(** The timer callback is [if (!this.isConnected) this.disconnect()]. *)
Definition startConnectionTimeout : M Session unit :=
  let! millis := gets (fun s => connectionTimeoutMillis (fields s)) in
  if Z.eqb millis 0 then ret tt
  else
    let! id := gets (fun s => next_timeout (platform s)) in
    do! update_platform (fun p => set_timeouts (timeouts p ++ [id]) (S id) p) in
    update_fields (set_connectionTimeout (Some id)).

Definition initializePeerConnection : M Session unit :=
  let! current := gets (fun s => peerConnection (fields s)) in
  match current with
  | Some _ => ret tt
  | None =>
      do! platform_call NewPeerConnection in
      let! pc := gets (fun s => length (connections (platform s))) in
      do! update_platform (fun p =>
            set_connections
              (connections p ++ [mkPeerConnection None None [] pcs_new]) p) in
      update_fields (set_peerConnection (Some pc))
  end.

(** [this.peerConnection!]: reading through a null reference throws. *)
Definition the_peerConnection : M Session nat :=
  let! current := gets (fun s => peerConnection (fields s)) in
  match current with
  | Some pc => ret pc
  | None => throw (TypeError "Cannot read properties of null")
  end.

Definition createOffer (remote : string) : M Session Value :=
  do! update_fields (set_remotePeerId (Some remote)) in
  do! initializePeerConnection in
  let! pc := the_peerConnection in
  do! platform_call (CreateDataChannel pc) in
  let! ref := gets (fun s => length (channels (platform s))) in
  do! update_platform (fun p => set_channels (channels p ++ [dc_connecting]) p) in
  do! update_fields (set_dataChannel (Some (ref, dc_connecting))) in
  do! platform_call (CreateOffer pc) in
  let offer := offer_of pc in
  do! platform_call (SetLocalDescription pc offer) in
  do! update_connection pc (fun conn =>
        mkPeerConnection (remoteDescription conn) (Some offer)
          (addedCandidates conn) (connectionState conn)) in
  do! startConnectionTimeout in
  ret offer.

(** [await this.peerConnection.setRemoteDescription(description)] *)
Definition setRemoteDescription (pc : nat) (description : Value) : M Session unit :=
  do! platform_call (SetRemoteDescription pc description) in
  update_connection pc (fun conn =>
    mkPeerConnection (Some description) (localDescription conn)
      (addedCandidates conn) (connectionState conn)).

(** [await this.peerConnection.addIceCandidate(candidate)] *)
Definition addIceCandidate (pc : nat) (candidate : Value) : M Session unit :=
  do! platform_call (AddIceCandidate pc candidate) in
  update_connection pc (fun conn =>
    mkPeerConnection (remoteDescription conn) (localDescription conn)
      (addedCandidates conn ++ [candidate]) (connectionState conn)).

(** The loop over [this.pendingIceCandidates], and the assignment of [[]]
    after it. *)
Definition processPendingCandidates (pc : nat) : M Session unit :=
  let! pending := gets (fun s => pendingIceCandidates (fields s)) in
  do! for_of pending (addIceCandidate pc) in
  update_fields (set_pendingIceCandidates []).

Definition handleOffer (offer : Value) (fromPeerId : string) : M Session Value :=
  do! update_fields (set_remotePeerId (Some fromPeerId)) in
  do! initializePeerConnection in
  let! pc := the_peerConnection in
  do! setRemoteDescription pc offer in
  do! processPendingCandidates pc in
  do! platform_call (CreateAnswer pc) in
  let answer := answer_of pc in
  do! platform_call (SetLocalDescription pc answer) in
  do! update_connection pc (fun conn =>
        mkPeerConnection (remoteDescription conn) (Some answer)
          (addedCandidates conn) (connectionState conn)) in
  do! startConnectionTimeout in
  ret answer.

Definition handleAnswer (answer : Value) : M Session unit :=
  let! current := gets (fun s => peerConnection (fields s)) in
  match current with
  | None => throw (new_Error "No peer connection available to handle answer")
  | Some pc =>
      do! setRemoteDescription pc answer in
      processPendingCandidates pc
  end.

Definition handleIceCandidate (candidate : Value) : M Session unit :=
  let! current := gets (fun s => peerConnection (fields s)) in
  match current with
  | None => throw (new_Error "No peer connection available to handle ICE candidate")
  | Some pc =>
      let! conn := gets (fun s => connections (platform s) !! pc) in
      match conn with
      | Some (mkPeerConnection (Some _) _ _ _) => addIceCandidate pc candidate
      | _ =>
          update_fields (fun f =>
            set_pendingIceCandidates (pendingIceCandidates f ++ [candidate]) f)
      end
  end.

(** *** [handleAnswer] between its awaits

    [handleAnswer] gives the event loop back at every [await]: once for
    [setRemoteDescription], and once for each [addIceCandidate] of its
    loop; what arrives in between is handled before it goes on.  A call
    that is suspended is given by the promise it waits for.  The platform
    handles the calls made on a connection in the order in which they were
    made: a candidate is put with those of the connection when
    [addIceCandidate] is called, and the promise tells later whether it
    was taken.  The definition of [handleAnswer] above is the call that
    nothing interrupts. *)
Inductive AnswerTask : Type :=
| AwaitsDescription (pc : nat) (answer : Value)
| AwaitsCandidate (pc : nat) (candidate : Value) (position : nat).

(** From the call to the first [await]. *)
Definition handleAnswer_begin (answer : Value) : M Session AnswerTask :=
  let! current := gets (fun s => peerConnection (fields s)) in
  match current with
  | None => throw (new_Error "No peer connection available to handle answer")
  | Some pc => ret (AwaitsDescription pc answer)
  end.

(** The head of the loop, at [position] of [this.pendingIceCandidates]:
    the next candidate is handed to [this.peerConnection], or the loop is
    over and the queue is replaced by [[]]. *)
Definition drain_from (position : nat) : M Session (option AnswerTask) :=
  let! pending := gets (fun s => pendingIceCandidates (fields s)) in
  match pending !! position with
  | Some candidate =>
      let! pc := the_peerConnection in
      do! match fails (AddIceCandidate pc candidate) with
          | Some _ => ret tt
          | None =>
              update_connection pc (fun conn =>
                mkPeerConnection (remoteDescription conn) (localDescription conn)
                  (addedCandidates conn ++ [candidate]) (connectionState conn))
          end in
      ret (Some (AwaitsCandidate pc candidate (S position)))
  | None =>
      do! update_fields (set_pendingIceCandidates []) in
      ret None
  end.

(** The promise that the call waits for settles, and the call goes on to
    its next [await] or to its end ([None]). *)
Definition handleAnswer_resume (task : AnswerTask) : M Session (option AnswerTask) :=
  match task with
  | AwaitsDescription pc answer =>
      do! setRemoteDescription pc answer in
      drain_from 0
  | AwaitsCandidate pc candidate position =>
      do! platform_call (AddIceCandidate pc candidate) in
      drain_from position
  end.

(** The call goes on [n] times, unless it ends before. *)
Fixpoint resume_times (n : nat) (task : AnswerTask) : M Session (option AnswerTask) :=
  match n with
  | O => ret (Some task)
  | S n =>
      let! next := handleAnswer_resume task in
      match next with
      | Some task' => resume_times n task'
      | None => ret None
      end
  end.

(** [disconnect()]: the timer is cleared, the data channel and the peer
    connection are closed, and the fields are reset as in
    [PeerChannel.disconnect]. *)
Definition disconnect : M Session unit :=
  do! clearConnectionTimeout in
  let! dc := gets (fun s => dataChannel (fields s)) in
  do! match dc with
      | Some (ref, state) => set_channel_state ref (close_state state)
      | None => ret tt
      end in
  let! current := gets (fun s => peerConnection (fields s)) in
  do! match current with
      | Some pc =>
          update_connection pc (fun conn =>
            mkPeerConnection (remoteDescription conn) (localDescription conn)
              (addedCandidates conn) pcs_closed)
      | None => ret tt
      end in
  on_channel PeerChannel.disconnect.

(** *** The events of the platform *)

(** A pending timer fires: [if (!this.isConnected) this.disconnect()]. *)
Definition fire_timeout (id : nat) (s : Session) : option Session :=
  if decide (id ∈ timeouts (platform s))
  then
    let s1 := set_platform
                (set_timeouts (filter (fun t => t <> id) (timeouts (platform s)))
                   (next_timeout (platform s)) (platform s)) s in
    Some (if isConnected (channel s1) then s1 else snd (disconnect s1))
  else None.

(** [dataChannel.onopen] *)
Definition fire_channel_open (ref : nat) (s : Session) : option Session :=
  match channels (platform s) !! ref with
  | Some dc_connecting =>
      Some (snd ((do! set_channel_state ref dc_open in
                  do! on_channel (modify (set_isConnected true)) in
                  clearConnectionTimeout) s))
  | _ => None
  end.

(** [dataChannel.onclose] *)
Definition fire_channel_close (ref : nat) (s : Session) : option Session :=
  match channels (platform s) !! ref with
  | Some dc_closed | None => None
  | Some _ =>
      Some (snd ((do! set_channel_state ref dc_closed in
                  on_channel (modify (set_isConnected false))) s))
  end.

(** [dataChannel.onerror] *)
Definition fire_channel_error (ref : nat) (s : Session) : option Session :=
  match channels (platform s) !! ref with
  | Some _ =>
      Some (snd ((do! on_channel (modify (emit (ConsoleError "Data channel error:"))) in
                  on_channel (modify (set_isConnected false))) s))
  | None => None
  end.

(** [dataChannel.onmessage] *)
Definition fire_channel_message (ref : nat) (data : Text) (now : Z) (s : Session)
  : option Session :=
  match channels (platform s) !! ref with
  | Some dc_open => Some (snd (on_channel (handleMessage call data now) s))
  | _ => None
  end.

(** [peerConnection.onicecandidate]; the last candidate event carries
    [null]. *)
Definition fire_icecandidate (pc : nat) (candidate : option Value) (s : Session)
  : option Session :=
  match connections (platform s) !! pc with
  | Some _ =>
      match candidate, signalingHandler (fields s), remotePeerId (fields s) with
      | Some data, Some handler, Some remote =>
          Some (set_platform
                  (set_signaled
                     (signaled (platform s)
                      ++ [(handler, mkSignal "ice-candidate" data (peerId (fields s)) remote)])
                     (platform s)) s)
      | _, _, _ => Some s
      end
  | None => None
  end.

(** [peerConnection.ondatachannel]: the channel that the remote peer made
    becomes [this.dataChannel]. *)
Definition fire_datachannel (pc : nat) (s : Session) : option Session :=
  match connections (platform s) !! pc with
  | Some _ =>
      Some (snd ((let! ref := gets (fun s => length (channels (platform s))) in
                  do! update_platform (fun p =>
                        set_channels (channels p ++ [dc_connecting]) p) in
                  update_fields (set_dataChannel (Some (ref, dc_connecting)))) s))
  | None => None
  end.

(** [peerConnection.onconnectionstatechange]: the handler reads the state
    of [this.peerConnection]. *)
Definition fire_connectionstatechange (pc : nat) (state : PeerConnectionState)
  (s : Session) : option Session :=
  match connections (platform s) !! pc with
  | Some _ =>
      Some (snd ((do! update_connection pc (fun conn =>
                        mkPeerConnection (remoteDescription conn) (localDescription conn)
                          (addedCandidates conn) state) in
                  let! current := gets (fun s => peerConnection (fields s)) in
                  let! seen := gets (fun s =>
                    match current with
                    | Some r => connectionState <$> connections (platform s) !! r
                    | None => None
                    end) in
                  match seen with
                  | Some pcs_connected => clearConnectionTimeout
                  | Some pcs_failed | Some pcs_disconnected | Some pcs_closed =>
                      do! on_channel (modify (set_isConnected false)) in
                      clearConnectionTimeout
                  | _ => ret tt
                  end) s))
  | None => None
  end.

End Platform.

End PeerSession.

(** ** Sample peers *)

Module PeerSamples.

Import PeerChannel PeerSession.

(** A platform that accepts every call. *)
Definition accept_all : PlatformCall -> option Error := fun _ => None.

(** A platform that rejects the candidate ["bad"]. *)
Definition picky : PlatformCall -> option Error :=
  fun k =>
    match k with
    | AddIceCandidate _ (VStr "bad") => Some (mkError "OperationError" "bad candidate")
    | _ => None
    end.

Definition offers : nat -> Value := fun _ => VStr "offer-sdp".

Definition answers : nat -> Value := fun _ => VStr "answer-sdp".

(** [peer-a] after [createOffer('peer-b')]. *)
Definition offering : Session :=
  snd (createOffer accept_all offers "peer-b" (new_Session "peer-a" None)).

(** [peer-a] after the data channel of its offer has opened. *)
Definition connected : Session :=
  default offering (fire_channel_open 0%nat offering).

(** [offering] with two candidates in the queue. *)
Definition waiting : Session :=
  snd (for_of [VStr "c1"; VStr "c2"] (handleIceCandidate accept_all) offering).

End PeerSamples.

(** ** Further observations *)

Module More.

Import BrowserChannel.

(** What the receiving side reads in the [data] field of the frame
    written for [data]: the JSON image of [data], or nothing when [data]
    is [undefined]. *)
Definition wire_image (data : Value) : Value :=
  match serialize data with
  | Some doc => of_json doc
  | None => VUndefined
  end.

(** A JSON document that is an object. *)
Definition is_object (doc : Json) : bool :=
  match doc with
  | JObj _ => true
  | _ => false
  end.

(** The calls that change the registry. *)
Definition is_registration (a : Action) : bool :=
  match a with
  | CallOn _ _ | CallOff _ _ => true
  | _ => false
  end.

(** The urls that the application passed to [connect]. *)
Definition connect_urls (actions : list Action) : list string :=
  omap (fun a => match a with CallConnect url => Some url | _ => None end) actions.

(** A socket that is connecting or open. *)
Definition live (w : WebSocket) : Prop :=
  readyState w = CONNECTING \/ readyState w = OPEN.

(** The order in which a socket goes through its ready states. *)
Definition rank (s : ReadyState) : nat :=
  match s with
  | CONNECTING => 0
  | OPEN => 1
  | CLOSING => 2
  | CLOSED => 3
  end.

(** How the sockets of a later state relate to those of an earlier one:
    every socket is still there under its reference, with its url, no
    earlier in its life, and with its promise as it was once settled. *)
Definition evolves (before after : list WebSocket) : Prop :=
  forall i w, before !! i = Some w ->
    exists w', after !! i = Some w' /\
      ws_url w' = ws_url w /\
      (rank (readyState w) <= rank (readyState w'))%nat /\
      (connect_promise w <> Pending -> connect_promise w' = connect_promise w).

(** What an action does to the attempt counter. *)
Definition count_attempt (a : Action) (n : Z) : Z :=
  match a with
  | OpenEvent _ => 0
  | TimerEvent _ => n + 1
  | _ => n
  end.

(** The number of timer callbacks since the last open event of a run. *)
Definition attempts_after (actions : list Action) : Z :=
  fold_left (fun n a => count_attempt a n) actions 0.

(** The urls of the sockets and of the pending timers are among [known]. *)
Definition urls_within (known : list string) (c : BrowserChannel) : Prop :=
  (forall u, u ∈ (ws_url <$> sockets (transport c)) -> u ∈ known) /\
  (forall d u, (d, u) ∈ timers (transport c) -> u ∈ known).

End More.

(** ** Lemmas on the base channel *)

Section BaseChannelFacts.

Context {T : Type}.
Variable call : HandlerRef -> Value -> Message -> HandlerResult.

Lemma emit_all_nil (c : Channel T) : emit_all [] c = c.
Proof. destruct c; unfold emit_all; simpl. by rewrite app_nil_r. Qed.

Lemma emit_all_app (es1 es2 : list Effect) (c : Channel T) :
  emit_all (es1 ++ es2) c = emit_all es2 (emit_all es1 c).
Proof. unfold emit_all; simpl. by rewrite app_assoc. Qed.

Lemma emit_emit_all (e : Effect) (c : Channel T) : emit e c = emit_all [e] c.
Proof. reflexivity. Qed.

Lemma new_effects_emit_all (es : list Effect) (c : Channel T) :
  new_effects c (emit_all es c) = es.
Proof. unfold new_effects; simpl. by rewrite drop_app_length. Qed.

Lemma handler_calls_app (es1 es2 : list Effect) :
  handler_calls (es1 ++ es2) = handler_calls es1 ++ handler_calls es2.
Proof. apply omap_app. Qed.

(** A catch block of [handleMessage]: it writes its line, or throws what
    the conversion of the error threw. *)
Lemma report_run (prefix : string) (error : Thrown) (c : Channel T) :
  report prefix error c
  = (match escape_of (Some error) with
     | Some raised => Throw raised
     | None => Normal tt
     end,
     emit_all (report_of prefix error) c).
Proof.
  unfold report, report_of, escape_of, bind, lift, console_error, modify.
  destruct (String_of error) as [text|raised].
  - reflexivity.
  - by rewrite emit_all_nil.
Qed.

(** One turn of the dispatch loop. *)
Lemma guarded_handler_run (message : Message) (handler : HandlerRef) (c : Channel T) :
  try_catch (await_handler call handler (msg_data message) message)
    (report "Message handler error: ") c
  = (match handler_escape call message handler with
     | Some raised => Throw raised
     | None => Normal tt
     end,
     emit_all (handler_log call message handler) c).
Proof.
  unfold try_catch, await_handler, bind, modify, handler_log, handler_escape.
  destruct (call handler (msg_data message) message) as [|e|e];
    cbn [failure_of fst snd throw ret].
  - reflexivity.
  - unfold throw. rewrite report_run, emit_emit_all, <- emit_all_app. reflexivity.
  - unfold throw. rewrite report_run, emit_emit_all, <- emit_all_app. reflexivity.
Qed.

Lemma dispatch_loop_run (message : Message) (handlers : list HandlerRef) (c : Channel T) :
  for_of handlers (fun handler =>
    try_catch (await_handler call handler (msg_data message) message)
      (report "Message handler error: ")) c
  = (match dispatch_escape call message handlers with
     | Some raised => Throw raised
     | None => Normal tt
     end,
     emit_all (flat_map (handler_log call message) (called call message handlers)) c).
Proof.
  revert c; induction handlers as [|h rest IH]; intros c;
    cbn [for_of flat_map called dispatch_escape].
  - unfold ret. by rewrite emit_all_nil.
  - unfold bind at 1. rewrite guarded_handler_run.
    destruct (handler_escape call message h) as [raised|].
    + cbn [flat_map]. by rewrite app_nil_r.
    + rewrite IH. by rewrite emit_all_app.
Qed.

(** [handleMessage] only adds effects; it rejects when the outer catch
    block cannot convert what it caught. *)
Lemma handleMessage_run (rawMessage : Text) (now : Z) (c : Channel T) :
  handleMessage call rawMessage now c
  = (handleMessage_completion call rawMessage now c,
     emit_all (handleMessage_log call rawMessage now c) c).
Proof.
  unfold handleMessage, handleMessage_log, handleMessage_completion, caught.
  unfold try_catch at 1. unfold bind, lift, gets.
  destruct (parse_message rawMessage now) as [message|e]; cbn [app].
  - destruct (Map_get (messageHandlers c) (msg_id message)) as [handlers|];
      cbn [from_option id].
    + rewrite dispatch_loop_run.
      destruct (dispatch_escape call message handlers) as [raised|].
      * by rewrite report_run, emit_all_app.
      * by rewrite app_nil_r.
    + unfold ret. cbn. by rewrite emit_all_nil.
  - by rewrite report_run.
Qed.

Lemma handler_calls_report (prefix : string) (error : Thrown) :
  handler_calls (report_of prefix error) = [].
Proof. unfold report_of. by destruct (String_of error). Qed.

Lemma handler_calls_dispatch (message : Message) (handlers : list HandlerRef) :
  handler_calls (flat_map (handler_log call message) handlers)
  = List.map (fun handler => (handler, msg_data message, message)) handlers.
Proof.
  induction handlers as [|h rest IH]; [reflexivity|].
  cbn [flat_map List.map]. rewrite handler_calls_app, IH.
  unfold handler_log.
  change (handler_calls (HandlerCall h (msg_data message) message :: ?l))
    with ((h, msg_data message, message) :: handler_calls l).
  destruct (failure_of (call h (msg_data message) message));
    by rewrite ?handler_calls_report.
Qed.

(** The handler calls of [handleMessage]: none when the frame does not
    parse, else one per handler registered for the id, in set order, up
    to the first handler whose failure cannot be reported. *)
Lemma dispatched_called (rawMessage : Text) (now : Z) (c : Channel T) :
  dispatched call rawMessage now c =
  match parse_message rawMessage now with
  | Throw _ => []
  | Normal message =>
      List.map (fun handler => (handler, msg_data message, message))
        (called call message (default [] (Map_get (messageHandlers c) (msg_id message))))
  end.
Proof.
  unfold dispatched. rewrite handleMessage_run. cbn [snd].
  rewrite new_effects_emit_all. unfold handleMessage_log.
  rewrite handler_calls_app.
  replace (handler_calls match caught call rawMessage now c with
                         | Some e => report_of "Failed to parse message: " e
                         | None => []
                         end) with (@nil (HandlerRef * Value * Message))
    by (destruct (caught call rawMessage now c); by rewrite ?handler_calls_report).
  rewrite app_nil_r.
  destruct (parse_message rawMessage now) as [message|e]; [|reflexivity].
  apply handler_calls_dispatch.
Qed.

(** What [JSON.parse] and the reading of the three fields throw is an
    [Error] object. *)
Lemma parse_message_throws_Error (rawMessage : Text) (now : Z) (e : Thrown) :
  parse_message rawMessage now = Throw e -> exists error, e = Err error.
Proof.
  unfold parse_message, JSON_parse.
  destruct rawMessage as [doc|chars complaint]; [|intros [= <-]; eauto].
  destruct (of_json doc); cbn; intros [= <-]; eauto.
Qed.

Section Reportable.

(** Handlers whose failures the catch block can report: they return, or
    what they throw converts to a string. *)
Hypothesis call_reportable :
  forall handler data message, reportable (call handler data message).

Lemma handler_escape_reportable (message : Message) (handler : HandlerRef) :
  handler_escape call message handler = None.
Proof.
  unfold handler_escape, escape_of.
  pose proof (call_reportable handler (msg_data message) message) as Hr.
  unfold reportable in Hr.
  by destruct (failure_of (call handler (msg_data message) message)) as [[]|].
Qed.

Lemma called_reportable (message : Message) (handlers : list HandlerRef) :
  called call message handlers = handlers /\
  dispatch_escape call message handlers = None.
Proof.
  induction handlers as [|h rest [IH1 IH2]]; [done|].
  cbn [called dispatch_escape]. rewrite handler_escape_reportable.
  by rewrite IH1, IH2.
Qed.

(** With such handlers every handler of the set is called. *)
Lemma dispatched_eq (rawMessage : Text) (now : Z) (c : Channel T) :
  dispatched call rawMessage now c =
  match parse_message rawMessage now with
  | Throw _ => []
  | Normal message =>
      List.map (fun handler => (handler, msg_data message, message))
        (default [] (Map_get (messageHandlers c) (msg_id message)))
  end.
Proof.
  rewrite dispatched_called.
  destruct (parse_message rawMessage now) as [message|e]; [|reflexivity].
  by rewrite (proj1 (called_reportable _ _)).
Qed.

End Reportable.

End BaseChannelFacts.

(** ** Validation on send *)

(** C3. When [data] violates the schema of [definition],
    [sendMessage(definition, data)] rejects with the error that the schema
    raised and leaves the channel as it was: whatever the transport's
    [send] is, it is not invoked, and nothing is written. *)
Theorem sendMessage_invalid_rejects_before_send
  {T : Type} `{!Transport T} (definition : MessageDefinition) (data : Value)
  (now : Z) (e : Thrown) (c : Channel T) :
  schema definition data = Throw e ->
  sendMessage definition data now c = (Throw e, c).
Proof.
  intros Hinvalid. unfold sendMessage, bind, lift. by rewrite Hinvalid.
Qed.

(** ** Containment of errors on receive *)

(** What [handleMessage] does when every failure of a handler can be
    reported: it completes normally on every frame; it changes neither the
    registry nor the connection state nor the transport; a frame that does
    not parse as an envelope is reported in one line and no handler is
    called; otherwise every handler in the set that the registry holds
    under the id of the message is called, in the order of the set, with
    the same message, whether or not some of them throw or reject. *)
Theorem handleMessage_contains_reportable_failures
  {T : Type} (call : HandlerRef -> Value -> Message -> HandlerResult)
  (rawMessage : Text) (now : Z) (c : Channel T) :
  (forall handler data message, reportable (call handler data message)) ->
  fst (handleMessage call rawMessage now c) = Normal tt /\
  messageHandlers (snd (handleMessage call rawMessage now c)) = messageHandlers c /\
  isConnected (snd (handleMessage call rawMessage now c)) = isConnected c /\
  transport (snd (handleMessage call rawMessage now c)) = transport c /\
  (forall e,
     parse_message rawMessage now = Throw e ->
     exists text,
       String_of e = Normal text /\
       new_effects c (snd (handleMessage call rawMessage now c))
       = [ConsoleError ("Failed to parse message: " +:+ text)]) /\
  (forall message id,
     parse_message rawMessage now = Normal message ->
     msg_id message = VStr id ->
     dispatched call rawMessage now c
     = List.map (fun handler => (handler, msg_data message, message))
         (default [] (messageHandlers c !! id))).
Proof.
  intros Hreportable. rewrite handleMessage_run.
  cbn [fst snd emit_all messageHandlers isConnected transport].
  split; [|repeat split].
  - unfold handleMessage_completion, caught.
    destruct (parse_message rawMessage now) as [message|e] eqn:Hparse.
    + by rewrite (proj2 (called_reportable call Hreportable _ _)).
    + by destruct (parse_message_throws_Error _ _ _ Hparse) as [error ->].
  - intros e Hparse.
    destruct (parse_message_throws_Error _ _ _ Hparse) as [error ->].
    eexists. split; [reflexivity|].
    rewrite new_effects_emit_all. unfold handleMessage_log, caught.
    by rewrite Hparse.
  - intros message id Hparse Hid.
    by rewrite (dispatched_eq call Hreportable), Hparse, Hid.
Qed.

Lemma handleMessage_contains_reportable_failures_witness :
  dispatched Samples.faulty Samples.stamped_frame 1700000000005 Samples.subscribed
  = [(1%nat, VNum 1, mkMessage (VStr "ping") (VNum 1) (VNum 1700000000000));
     (2%nat, VNum 1, mkMessage (VStr "ping") (VNum 1) (VNum 1700000000000))].
Proof.
  assert (Hreportable :
            forall handler data message, reportable (Samples.faulty handler data message)).
  { intros [|[|handler]] data message; exact I. }
  destruct (handleMessage_contains_reportable_failures Samples.faulty
              Samples.stamped_frame 1700000000005 Samples.subscribed Hreportable)
    as (_ & _ & _ & _ & _ & Hcalls).
  exact (Hcalls (mkMessage (VStr "ping") (VNum 1) (VNum 1700000000000)) "ping"
           eq_refl eq_refl).
Defined.

(** Handler 1 throws; handler 2, registered after it, is still called
    with the same message, and the failure is reported once. *)
Example throwing_handler_does_not_stop_dispatch :
  new_effects Samples.subscribed
    (snd (handleMessage Samples.faulty Samples.stamped_frame 1700000000005
            Samples.subscribed))
  = [HandlerCall 1%nat (VNum 1) (mkMessage (VStr "ping") (VNum 1) (VNum 1700000000000));
     ConsoleError "Message handler error: Error: boom";
     HandlerCall 2%nat (VNum 1) (mkMessage (VStr "ping") (VNum 1) (VNum 1700000000000))].
Proof. vm_compute. reflexivity. Qed.

(** A frame that is not JSON is reported and dropped. *)
Example malformed_frame_is_dropped :
  handleMessage Samples.quiet
    (NotJson "{oops" "Unexpected token o in JSON at position 1")
    1700000000005 Samples.open_channel
  = (Normal tt,
     emit (ConsoleError
             "Failed to parse message: SyntaxError: Unexpected token o in JSON at position 1")
       Samples.open_channel).
Proof. vm_compute. reflexivity. Qed.

(** C4.  The containment of handler failures has a hole: the catch block
    of the dispatch loop builds its line with [`${error}`], and that
    conversion throws for a value that has no string form.  With handlers
    1 and 2 registered for [ping], in this order:
    - when handler 1 throws a Symbol, the [TypeError] of the conversion
      leaves the loop, handler 2 is not called for the message, and the
      outer catch block reports a failure to parse;
    - when handler 1 throws an object whose [toString] throws a Symbol,
      the outer catch block cannot convert what it caught either, and the
      promise of [handleMessage] rejects. *)
Theorem unreportable_failure_escapes_the_dispatch_loop :
  Samples.symbolic 1%nat (VNum 1) (mkMessage (VStr "ping") (VNum 1) (VNum 1700000000000))
  = Throws thrown_Symbol /\
  handleMessage Samples.symbolic Samples.stamped_frame 1700000000005 Samples.subscribed
  = (Normal tt,
     emit_all
       [HandlerCall 1%nat (VNum 1)
          (mkMessage (VStr "ping") (VNum 1) (VNum 1700000000000));
        ConsoleError
          "Failed to parse message: TypeError: Cannot convert a Symbol value to a string"]
       Samples.subscribed) /\
  dispatched Samples.quiet Samples.stamped_frame 1700000000005 Samples.subscribed
  = [(1%nat, VNum 1, mkMessage (VStr "ping") (VNum 1) (VNum 1700000000000));
     (2%nat, VNum 1, mkMessage (VStr "ping") (VNum 1) (VNum 1700000000000))] /\
  handleMessage Samples.hostile Samples.stamped_frame 1700000000005 Samples.subscribed
  = (Throw (TypeError "Cannot convert a Symbol value to a string"),
     emit_all
       [HandlerCall 1%nat (VNum 1)
          (mkMessage (VStr "ping") (VNum 1) (VNum 1700000000000))]
       Samples.subscribed).
Proof. repeat split; vm_compute; reflexivity. Qed.

(** ** The peer channel has no [connect] *)

(** C10. [PeerChannel.connect] rejects on every argument list with the
    error [Use createOffer() or handleOffer() to establish peer connection]
    and leaves the whole channel (registry, connection state, peer
    connection fields) unchanged. *)
Theorem PeerChannel_connect_always_rejects
  (arguments : list Value) (c : PeerChannel.PeerChannel) :
  PeerChannel.connect arguments c =
  (Throw (new_Error "Use createOffer() or handleOffer() to establish peer connection"), c).
Proof. reflexivity. Qed.

Lemma sendMessage_invalid_rejects_before_send_witness :
  schema Samples.ping (VStr "forty-two") = Throw (mkError "ZodError" "Expected number") /\
  sendMessage Samples.ping (VStr "forty-two") 5 Samples.open_channel
  = (Throw (mkError "ZodError" "Expected number"), Samples.open_channel).
Proof.
  split; [reflexivity|].
  apply (sendMessage_invalid_rejects_before_send Samples.ping (VStr "forty-two") 5).
  reflexivity.
Defined.

(** ** The JSON round trip *)

Lemma serialize_representable (v : Value) :
  json_representable v = true ->
  exists doc, serialize v = Some doc /\ of_json doc = v.
Proof.
  induction v as [| |b|n| | |negative|s|iso|items IH|props IH] using Value_nested_ind;
    cbn [json_representable serialize]; intros Hrep; try discriminate; eauto.
  - eexists; split; [reflexivity|]. cbn [of_json]. f_equal.
    induction IH as [|x rest Hx _ IHrest]; [reflexivity|].
    cbn [forallb] in Hrep. apply andb_prop in Hrep as [Hx' Hrest].
    destruct (Hx Hx') as (doc & Hdoc & Hback).
    cbn [List.map]. rewrite Hdoc. cbn [from_option id]. rewrite Hback.
    f_equal. by apply IHrest.
  - eexists; split; [reflexivity|]. cbn [of_json]. f_equal.
    induction IH as [|[k x] rest Hx _ IHrest]; [reflexivity|].
    cbn [forallb] in Hrep. apply andb_prop in Hrep as [Hx' Hrest].
    destruct (Hx Hx') as (doc & Hdoc & Hback). cbn [snd] in *.
    cbn [omap list_omap]. rewrite Hdoc. cbn [fmap option_fmap option_map List.map].
    rewrite Hback. f_equal. by apply IHrest.
Qed.

Lemma omap_shorter {A B} (g : A -> option B) (l : list A) :
  (length (omap g l) <= length l)%nat.
Proof.
  induction l as [|x l IH]; [done|]. cbn [omap list_omap length].
  destruct (g x); cbn [length]; lia.
Qed.

(** Only those values come back from the wire as they were. *)
Lemma representable_of_image (v : Value) (doc : Json) :
  serialize v = Some doc -> of_json doc = v -> json_representable v = true.
Proof.
  revert doc.
  induction v as [| |b|n| | |negative|s|iso|items IH|props IH] using Value_nested_ind;
    intros doc; cbn [serialize json_representable]; try done.
  - by intros [= <-].
  - by intros [= <-].
  - by intros [= <-].
  - by destruct iso; intros [= <-].
  - intros [= <-]. cbn [of_json]. intros [= Hitems].
    induction IH as [|x rest Hx _ IHrest]; [reflexivity|].
    cbn [List.map] in Hitems. injection Hitems as Hhead Hrest.
    cbn [forallb]. apply andb_true_intro. split; [|by apply IHrest].
    destruct (serialize x) as [d|] eqn:Hd; cbn [from_option id] in Hhead.
    + by apply (Hx d).
    + subst x. discriminate Hd.
  - intros [= <-]. cbn [of_json]. intros [= Hprops].
    induction IH as [|[k x] rest Hx _ IHrest]; [reflexivity|].
    cbn [snd] in Hx. cbn [omap list_omap] in Hprops.
    destruct (serialize x) as [d|] eqn:Hd;
      cbn [fmap option_fmap option_map] in Hprops.
    + cbn [List.map] in Hprops. injection Hprops as Hhead Hrest.
      cbn [forallb]. apply andb_true_intro. split; [by apply (Hx d)|by apply IHrest].
    + exfalso. apply (f_equal length) in Hprops.
      rewrite List.length_map in Hprops. cbn [length] in Hprops.
      pose proof (omap_shorter (fun '(k, x) => pair k <$> serialize x) rest). lia.
Qed.

(** The frame that the send path writes, read field by field: the
    [data] field holds the JSON image of the data. *)
Lemma parse_message_of_sent (id : MessageId) (v : Value) (now now' : Z) :
  envelope_field (validateAndSerialize id v now) "data" = Normal (More.wire_image v) /\
  parse_message (validateAndSerialize id v now) now'
  = Normal (mkMessage (VStr id) (More.wire_image v) (or_else (VNum now) (VNum now'))).
Proof.
  unfold validateAndSerialize, JSON_stringify, envelope_field, parse_message,
    More.wire_image.
  cbn [serialize omap list_omap].
  by destruct (serialize v) as [doc|].
Qed.

(** The values whose JSON image is the value itself: [undefined] as the
    whole payload (the frame then has no [data] field, and the receiving
    side reads [undefined]), and the values that a JSON text can denote. *)
Lemma wire_image_fixed (v : Value) :
  More.wire_image v = v <-> survives_json v = true.
Proof.
  unfold More.wire_image, survives_json. split.
  - destruct (serialize v) as [doc|] eqn:Hdoc.
    + intros Hback. pose proof (representable_of_image v doc Hdoc Hback) as Hrep.
      by destruct v.
    + by intros <-.
  - intros Hsurvives. destruct (serialize v) as [doc|] eqn:Hdoc.
    + assert (Hrep : json_representable v = true) by (by destruct v).
      destruct (serialize_representable v Hrep) as (doc' & Hdoc' & Hback).
      congruence.
    + destruct v as [| | | | | | | |[iso|]| |]; by try discriminate Hdoc.
Qed.

(** On an open socket the send path writes the frame that
    [validateAndSerialize] builds from the validated data. *)
Lemma sendMessage_writes_frame (definition : MessageDefinition)
  (data validated : Value) (now : Z) (c : BrowserChannel.BrowserChannel) (socket : nat) :
  schema definition data = Normal validated ->
  BrowserChannel.ws (transport c) = Some socket ->
  BrowserChannel.socket_state c socket = Some BrowserChannel.OPEN ->
  sendMessage definition data now c
  = (Normal tt,
     emit (SocketSend socket (validateAndSerialize (def_id definition) validated now)) c).
Proof.
  intros Hvalid Hws Hopen. unfold sendMessage, bind, lift. rewrite Hvalid.
  cbn [send BrowserChannel.BrowserChannel_Transport].
  unfold BrowserChannel.BrowserChannel_send, bind, gets, modify,
    BrowserChannel.ws_readyState.
  by rewrite Hws, Hopen.
Qed.

(** C5, as the code has it.  Let the validated data be [undefined], or be
    made of [null], booleans, finite numbers other than the negative zero,
    strings, arrays and plain objects only, with no [undefined], [NaN],
    infinity or [Date] inside; and let the failures of the handlers be
    reportable.  Then the frame written by the send path carries the
    validated data in its [data] field, and [handleMessage] on that frame
    calls each handler registered for [definition.id], in order, with
    exactly that data.  For no other validated data does the [data] field
    of the frame hold the data. *)
Theorem round_trip_of_representable_data
  {T : Type} (call : HandlerRef -> Value -> Message -> HandlerResult)
  (definition : MessageDefinition) (data validated : Value) (now now' : Z)
  (c : Channel T) :
  schema definition data = Normal validated ->
  (forall handler data message, reportable (call handler data message)) ->
  (survives_json validated = true ->
   round_trip call definition validated now now' c) /\
  (survives_json validated = false ->
   envelope_field (validateAndSerialize (def_id definition) validated now) "data"
   <> Normal validated).
Proof.
  intros _ Hreportable.
  destruct (parse_message_of_sent (def_id definition) validated now now')
    as [Hdata Hmessage].
  split.
  - intros Hsurvives. apply wire_image_fixed in Hsurvives.
    rewrite Hsurvives in Hdata, Hmessage. unfold round_trip.
    split; [exact Hdata|].
    rewrite (dispatched_eq call Hreportable), Hmessage. cbn [msg_id msg_data Map_get].
    rewrite List.map_map. reflexivity.
  - intros Hlost. rewrite Hdata. intros [= Hback].
    apply wire_image_fixed in Hback. congruence.
Qed.

Lemma round_trip_of_representable_data_witness :
  round_trip Samples.faulty Samples.ping (VNum 42) 1700000000000 1700000000005
    Samples.subscribed.
Proof.
  apply (round_trip_of_representable_data Samples.faulty Samples.ping (VNum 42) (VNum 42));
    [reflexivity| |reflexivity].
  intros [|[|handler]] data message; exact I.
Defined.

(** C5, as the spec states it, fails, with handlers that return:
    [{ text: undefined }], [[undefined]], [Infinity], [NaN], the negative
    zero and a [Date] satisfy the schema of [note], but the frames written
    for them carry [{}], [[null]], [null], [null], [0] and a string, and
    that is what the handler is called with. *)
Lemma round_trip_loses_what_json_cannot_write :
  Forall (fun validated =>
            schema Samples.note validated = Normal validated /\
            ~ round_trip Samples.quiet Samples.note validated
                1700000000000 1700000000005
                (on (ByDefinition Samples.note) 1%nat Samples.open_channel))
    [Samples.draft; Samples.gap; VInfinity false; VNaN; VNegZero; Samples.today] /\
  List.map (fun validated =>
              List.map payload_of
                (dispatched Samples.quiet
                   (validateAndSerialize "note" validated 1700000000000) 1700000000005
                   (on (ByDefinition Samples.note) 1%nat Samples.open_channel)))
    [Samples.draft; Samples.gap; VInfinity false; VNaN; VNegZero; Samples.today]
  = [[(1%nat, VObj [])]; [(1%nat, VArr [VNull])]; [(1%nat, VNull)]; [(1%nat, VNull)];
     [(1%nat, VNum 0)]; [(1%nat, VStr "2023-11-14T22:13:20.000Z")]].
Proof.
  split; [|vm_compute; reflexivity].
  repeat apply List.Forall_cons; try apply List.Forall_nil;
    (split; [reflexivity|]); intros [Hdata _]; vm_compute in Hdata; discriminate.
Qed.

(** ** Timestamps *)

Lemma sent_timestamp (id : MessageId) (data : Value) (now : Z) :
  envelope_field (validateAndSerialize id data now) "timestamp" = Normal (VNum now).
Proof.
  unfold validateAndSerialize, JSON_stringify, envelope_field.
  cbn [serialize omap list_omap].
  destruct (serialize data); reflexivity.
Qed.

Lemma received_timestamp (rawMessage : Text) (now : Z) (timestamp : Value)
  (message : Message) :
  envelope_field rawMessage "timestamp" = Normal timestamp ->
  parse_message rawMessage now = Normal message ->
  msg_timestamp message = or_else timestamp (VNum now).
Proof.
  unfold envelope_field, parse_message.
  destruct (JSON_parse rawMessage) as [parsed|e]; [|discriminate].
  intros Hts. rewrite Hts.
  destruct (get parsed "id"); [|discriminate].
  destruct (get parsed "data"); [|discriminate].
  intros [= <-]. reflexivity.
Qed.

(** C6, as the code has it.  The frame that the send path writes at time
    [now] has [now] as its timestamp, whatever the data; on the receive
    path the message handed to the handlers has the timestamp of the frame
    when that is truthy, and the current time when it is falsy: absent,
    [null], [false], [0] or the empty string. *)
Theorem timestamp_sent_is_now_received_is_defaulted
  {T : Type} (call : HandlerRef -> Value -> Message -> HandlerResult) :
  (forall id data now,
     envelope_field (validateAndSerialize id data now) "timestamp" = Normal (VNum now)) /\
  (forall rawMessage now timestamp message (c : Channel T),
     envelope_field rawMessage "timestamp" = Normal timestamp ->
     parse_message rawMessage now = Normal message ->
     msg_timestamp message = (if truthy timestamp then timestamp else VNum now) /\
     Forall (fun x => snd x = message) (dispatched call rawMessage now c)).
Proof.
  split; [apply sent_timestamp|].
  intros rawMessage now timestamp message c Hts Hmessage. split.
  - apply (received_timestamp rawMessage now timestamp message Hts Hmessage).
  - rewrite dispatched_called, Hmessage. apply Forall_forall.
    intros x Hx. apply list_elem_of_In, in_map_iff in Hx as (h & <- & _). reflexivity.
Qed.

Lemma timestamp_sent_is_now_received_is_defaulted_witness :
  envelope_field (validateAndSerialize "ping" (VNum 1) 1700000000000) "timestamp"
  = Normal (VNum 1700000000000) /\
  Forall (fun x => msg_timestamp (snd x) = VNum 1700000000000)
    (dispatched Samples.quiet Samples.stamped_frame 1700000000005
       (on (ById "ping") 1%nat Samples.open_channel)).
Proof.
  destruct (timestamp_sent_is_now_received_is_defaulted
              (T := BrowserChannel.Fields) Samples.quiet) as [Hsent Hreceived].
  split; [apply Hsent|].
  destruct (Hreceived Samples.stamped_frame 1700000000005 (VNum 1700000000000)
              (mkMessage (VStr "ping") (VNum 1) (VNum 1700000000000))
              (on (ById "ping") 1%nat Samples.open_channel) eq_refl eq_refl)
    as [_ Hall].
  eapply Forall_impl; [exact Hall|]. intros x ->. reflexivity.
Defined.

(** C6, as the spec states it, fails on the receive path: a frame whose
    timestamp is [0] has a timestamp, yet the handler is handed the
    current time. *)
Lemma epoch_timestamp_is_replaced :
  dispatched Samples.quiet Samples.epoch_frame 1700000000005
    (on (ById "ping") 1%nat Samples.open_channel)
  = [(1%nat, VNum 1, mkMessage (VStr "ping") (VNum 1) (VNum 1700000000005))] /\
  ~ fills_timestamp_only_when_absent Samples.epoch_frame 1700000000005.
Proof.
  split; [vm_compute; reflexivity|].
  intros Hclaim.
  specialize (Hclaim (VNum 0) (mkMessage (VStr "ping") (VNum 1) (VNum 1700000000005))
                eq_refl eq_refl).
  discriminate Hclaim.
Qed.

(** ** The handler registry *)


Lemma Set_add_NoDup (handler : HandlerRef) (s : list HandlerRef) :
  NoDup s -> NoDup (Set_add handler s).
Proof.
  intros Hs. unfold Set_add. destruct (decide (handler ∈ s)); [done|].
  apply NoDup_app. repeat split; [done| |apply NoDup_singleton].
  intros x Hx Hx'. apply list_elem_of_singleton in Hx'. by subst.
Qed.



Lemma Set_delete_NoDup (handler : HandlerRef) (s : list HandlerRef) :
  NoDup s -> NoDup (Set_delete handler s).
Proof. apply NoDup_filter. Qed.

Lemma Set_delete_absent (handler : HandlerRef) (s : list HandlerRef) :
  handler ∉ s -> Set_delete handler s = s.
Proof.
  intros Hout. unfold Set_delete. induction s as [|x s IH]; [done|].
  rewrite filter_cons. destruct (decide (x ≠ handler)) as [_|Heq].
  - f_equal. apply IH. set_solver.
  - exfalso. apply Hout. apply dec_stable in Heq. subst. set_solver.
Qed.

Section RegistryFacts.

Context {T : Type}.
Variable call : HandlerRef -> Value -> Message -> HandlerResult.


(** The set that [on] leaves under the id. *)
Lemma on_lookup (k : IdOrDefinition) (handler : HandlerRef) (c : Channel T) :
  messageHandlers (on k handler c) !! id_of k
  = Some (Set_add handler (default [] (messageHandlers c !! id_of k))).
Proof.
  unfold on. cbn [set_messageHandlers messageHandlers].
  rewrite lookup_insert_eq. f_equal. f_equal.
  destruct (messageHandlers c !! id_of k) eqn:Hold.
  - by rewrite Hold.
  - by rewrite lookup_insert_eq.
Qed.


Lemma off_lookup (k : IdOrDefinition) (handler : HandlerRef) (c : Channel T) :
  default [] (messageHandlers (off k handler c) !! id_of k)
  = Set_delete handler (default [] (messageHandlers c !! id_of k)).
Proof.
  unfold off. destruct (messageHandlers c !! id_of k) as [handlers|] eqn:Hold.
  - cbn [set_messageHandlers messageHandlers]. by rewrite lookup_insert_eq.
  - by rewrite Hold.
Qed.

Lemma off_lookup_other (k : IdOrDefinition) (handler : HandlerRef) (c : Channel T)
  (id' : MessageId) :
  id' <> id_of k ->
  messageHandlers (off k handler c) !! id' = messageHandlers c !! id'.
Proof.
  intros Hne. unfold off. destruct (messageHandlers c !! id_of k); [|done].
  cbn [set_messageHandlers messageHandlers]. by rewrite lookup_insert_ne.
Qed.


(** The handlers that a message for [id] reaches are those of the set
    under [id], up to the first one whose failure cannot be reported. *)
Lemma dispatched_handlers_called (rawMessage : Text) (now : Z) (message : Message)
  (id : MessageId) (c : Channel T) :
  parse_message rawMessage now = Normal message ->
  msg_id message = VStr id ->
  List.map handler_of (dispatched call rawMessage now c)
  = called call message (default [] (messageHandlers c !! id)).
Proof.
  intros Hmessage Hid. rewrite dispatched_called, Hmessage, Hid. cbn [Map_get].
  rewrite List.map_map. apply List.map_id.
Qed.

(** When every failure can be reported, they are the whole set. *)
Lemma dispatched_handlers (rawMessage : Text) (now : Z) (message : Message)
  (id : MessageId) (c : Channel T) :
  (forall handler data message, reportable (call handler data message)) ->
  parse_message rawMessage now = Normal message ->
  msg_id message = VStr id ->
  List.map handler_of (dispatched call rawMessage now c)
  = default [] (messageHandlers c !! id).
Proof.
  intros Hreportable Hmessage Hid.
  rewrite (dispatched_handlers_called rawMessage now message id) by done.
  apply (called_reportable call Hreportable).
Qed.

Lemma registry_ok_lookup (c : Channel T) (id : MessageId) :
  registry_ok c -> NoDup (default [] (messageHandlers c !! id)).
Proof.
  intros Hok. destruct (messageHandlers c !! id) eqn:Hl; cbn.
  - by eapply Hok.
  - constructor.
Qed.

Lemma registry_ok_new (t : T) : registry_ok (new_Channel t).
Proof. intros id handlers. cbn. by rewrite lookup_empty. Qed.

Lemma registry_ok_on (k : IdOrDefinition) (handler : HandlerRef) (c : Channel T) :
  registry_ok c -> registry_ok (on k handler c).
Proof.
  intros Hok id handlers Hl.
  destruct (decide (id = id_of k)) as [->|Hne].
  - rewrite on_lookup in Hl. injection Hl as <-.
    apply Set_add_NoDup, registry_ok_lookup, Hok.
  - unfold on in Hl. cbn [set_messageHandlers messageHandlers] in Hl.
    rewrite lookup_insert_ne in Hl by done.
    destruct (messageHandlers c !! id_of k).
    + by eapply Hok.
    + rewrite lookup_insert_ne in Hl by done. by eapply Hok.
Qed.

Lemma registry_ok_off (k : IdOrDefinition) (handler : HandlerRef) (c : Channel T) :
  registry_ok c -> registry_ok (off k handler c).
Proof.
  intros Hok id handlers Hl.
  destruct (decide (id = id_of k)) as [->|Hne].
  - pose proof (off_lookup k handler c) as Hoff. rewrite Hl in Hoff.
    cbn [from_option id] in Hoff. subst handlers.
    apply Set_delete_NoDup, registry_ok_lookup, Hok.
  - rewrite off_lookup_other in Hl by done. by eapply Hok.
Qed.

End RegistryFacts.



(** ** Lemmas on the socket channel *)

Module BrowserProofs.

Import BrowserChannel BrowserFacts.

Lemma alter_snoc {A} (g : A -> A) (l : list A) (x : A) :
  alter g (length l) (l ++ [x]) = l ++ [g x].
Proof. induction l as [|y l IH]; [reflexivity|]. cbn. by rewrite IH. Qed.

Lemma lookup_snoc {A} (l : list A) (x : A) : (l ++ [x]) !! length l = Some x.
Proof. by apply list_lookup_middle. Qed.

(** Unfolds the handlers of the transport events down to record
    constructions. *)
Ltac unfold_handlers :=
  unfold handleClose, onclose, onopen, onerror, setTimeout, update_socket, update,
    set_isConnected, set_transport, emit, set_timers, set_sockets,
    set_reconnectAttempts, set_ws, set_policy in *;
  cbn [transport isConnected effects messageHandlers ws reconnectAttempts
       maxReconnectAttempts reconnectDelay sockets timers] in *.

(** The close event runs [onclose] with the url of the socket. *)
Lemma fire_close_inv (socket : nat) (c c' : BrowserChannel) :
  fire_close socket c = Some c' ->
  exists w, sockets (transport c) !! socket = Some w /\ readyState w <> CLOSED /\
    c' = handleClose socket
           (onclose (ws_url w) (update_socket socket (set_readyState CLOSED) c)).
Proof.
  unfold fire_close. destruct (sockets (transport c) !! socket) as [w|]; [|discriminate].
  destruct (readyState w) eqn:Hstate; intros [= <-]; exists w;
    (split; [reflexivity|]); (split; [congruence|reflexivity]).
Qed.

Lemma fire_close_possible (socket : nat) (c : BrowserChannel) (w : WebSocket) :
  sockets (transport c) !! socket = Some w -> readyState w <> CLOSED ->
  fire_close socket c
  = Some (handleClose socket
            (onclose (ws_url w) (update_socket socket (set_readyState CLOSED) c))).
Proof.
  intros Hw Hstate. unfold fire_close. rewrite Hw.
  destruct (readyState w); congruence.
Qed.

(** What the close handlers leave behind: the flag is down, and a timer
    is set exactly when attempts remain. *)
Lemma close_handlers_spec (socket : nat) (url : string) (c : BrowserChannel) :
  let f := transport c in
  let c' := handleClose socket
              (onclose url (update_socket socket (set_readyState CLOSED) c)) in
  isConnected c' = false /\
  messageHandlers c' = messageHandlers c /\
  ws (transport c') = ws f /\
  reconnectAttempts (transport c') = reconnectAttempts f /\
  maxReconnectAttempts (transport c') = maxReconnectAttempts f /\
  reconnectDelay (transport c') = reconnectDelay f /\
  (if reconnectAttempts f <? maxReconnectAttempts f
   then timers (transport c')
        = timers f ++ [(reconnectDelay f * 2 ^ reconnectAttempts f, url)] /\
        new_effects c c' = [SetTimeout (reconnectDelay f * 2 ^ reconnectAttempts f) url]
   else timers (transport c') = timers f /\ new_effects c c' = []).
Proof.
  unfold new_effects. unfold_handlers.
  destruct (reconnectAttempts (transport c) <? maxReconnectAttempts (transport c));
    cbn [transport isConnected effects messageHandlers ws reconnectAttempts
         maxReconnectAttempts reconnectDelay sockets timers];
    match goal with |- context [decide ?P] => destruct (decide P) end;
    cbn [transport isConnected effects messageHandlers ws reconnectAttempts
         maxReconnectAttempts reconnectDelay sockets timers];
    rewrite ?drop_app_length, ?drop_all; repeat split; reflexivity.
Qed.

(** The callback of a pending timer: one more attempt and a call of
    [connect] with the url of its closure. *)
Lemma fire_timer_spec (WebSocket_check : string -> option Error) (k : nat)
  (c : BrowserChannel) (delay : Z) (url : string) :
  timers (transport c) !! k = Some (delay, url) ->
  exists c', fire_timer WebSocket_check k c = Some c' /\
    reconnectAttempts (transport c') = reconnectAttempts (transport c) + 1 /\
    timers (transport c') = delete k (timers (transport c)) /\
    isConnected c' = isConnected c /\
    new_effects c c' = [ConnectCall url].
Proof.
  intros Hk. unfold fire_timer. rewrite Hk. eexists; split; [reflexivity|].
  unfold reconnect, connect, try_catch, bind, modify, gets, throw, ret, new_effects.
  unfold_handlers.
  match goal with |- context [ws_readyState ?x] => destruct (ws_readyState x) as [[]|] end;
    cbn; rewrite ?drop_app_length; try (repeat split; reflexivity).
  all: destruct (WebSocket_check url); cbn; rewrite ?drop_app_length;
    repeat split; reflexivity.
Qed.

(** [onopen] resets the attempt counter and raises the flag. *)
Lemma fire_open_spec (socket : nat) (c c' : BrowserChannel) :
  fire_open socket c = Some c' ->
  reconnectAttempts (transport c') = 0 /\ isConnected c' = true.
Proof.
  unfold fire_open. destruct (socket_state c socket) as [[]|]; try discriminate.
  intros [= <-]. split; reflexivity.
Qed.

End BrowserProofs.

Import BrowserChannel BrowserFacts BrowserProofs.

(** ** Reconnection with exponential backoff *)

(** C2. At every close event of a socket, with [n] the attempt counter
    then: when [n < maxReconnectAttempts] one timer is set, with delay
    [reconnectDelay * 2^n] and the url that the closed socket was
    connected to, and nothing else is scheduled; when
    [n >= maxReconnectAttempts] no timer is set.  A timer that fires
    increments the counter and calls [connect] with its url.  Every open
    event resets the counter to 0.  With [setReconnectOptions(3, 100)], a
    connection that drops and reconnect attempts that all fail, the
    timers are set with delays 100, 200 and 400, each followed by one call
    of [connect] with the same url, and no timer is pending after the
    third failure. *)
Theorem reconnect_backoff_is_exponential (WebSocket_check : string -> option Error) :
  (forall (c : BrowserChannel) (socket : nat) (w : WebSocket),
     sockets (transport c) !! socket = Some w ->
     readyState w <> CLOSED ->
     exists c', fire_close socket c = Some c' /\
       reconnectAttempts (transport c') = reconnectAttempts (transport c) /\
       if reconnectAttempts (transport c) <? maxReconnectAttempts (transport c)
       then timers (transport c')
            = timers (transport c)
              ++ [(reconnectDelay (transport c) * 2 ^ reconnectAttempts (transport c),
                   ws_url w)] /\
            new_effects c c'
            = [SetTimeout
                 (reconnectDelay (transport c) * 2 ^ reconnectAttempts (transport c))
                 (ws_url w)]
       else timers (transport c') = timers (transport c) /\ new_effects c c' = []) /\
  (forall (c : BrowserChannel) (k : nat) (delay : Z) (url : string),
     timers (transport c) !! k = Some (delay, url) ->
     exists c', fire_timer WebSocket_check k c = Some c' /\
       reconnectAttempts (transport c') = reconnectAttempts (transport c) + 1 /\
       timers (transport c') = delete k (timers (transport c)) /\
       new_effects c c' = [ConnectCall url]) /\
  (forall (c c' : BrowserChannel) (socket : nat),
     fire_open socket c = Some c' -> reconnectAttempts (transport c') = 0) /\
  (exists c, run Samples.any_url Samples.quiet Samples.backoff_scenario new_BrowserChannel
             = Some c /\
     effects c
     = [ConnectCall "ws://localhost:8080";
        SetTimeout 100 "ws://localhost:8080"; ConnectCall "ws://localhost:8080";
        SetTimeout 200 "ws://localhost:8080"; ConnectCall "ws://localhost:8080";
        SetTimeout 400 "ws://localhost:8080"; ConnectCall "ws://localhost:8080"] /\
     timers (transport c) = [] /\
     reconnectAttempts (transport c) = 3 /\
     isConnected c = false).
Proof.
  split; [|split; [|split]].
  - intros c socket w Hw Hstate.
    eexists; split; [by apply fire_close_possible|].
    destruct (close_handlers_spec socket (ws_url w) c)
      as (_ & _ & _ & Hattempts & _ & _ & Htimers).
    split; [exact Hattempts|exact Htimers].
  - intros c k delay url Hk.
    destruct (fire_timer_spec WebSocket_check k c delay url Hk)
      as (c' & Hfire & Hattempts & Htimers & _ & Heffects).
    exists c'. repeat split; assumption.
  - intros c c' socket Hopen. by destruct (fire_open_spec socket c c' Hopen).
  - eexists; split; [vm_compute; reflexivity|]. repeat split.
Qed.

Lemma reconnect_backoff_is_exponential_witness :
  exists c',
    fire_close 0%nat Samples.open_channel = Some c' /\
    timers (transport c') = [(1000, "ws://localhost:8080")].
Proof.
  destruct (reconnect_backoff_is_exponential Samples.any_url) as (Hclose & _).
  destruct (Hclose Samples.open_channel 0%nat
              (mkWebSocket "ws://localhost:8080" OPEN Fulfilled 0%nat) eq_refl)
    as (c' & Hfire & _ & Htimers); [discriminate|].
  exists c'. split; [exact Hfire|]. exact (proj1 Htimers).
Defined.

(** ** Explicit disconnect *)

(** What the code does at the close event of a socket that
    [disconnect()] closed: it runs the same [onclose] handler as at any
    other close.  The flag goes down, and a reconnect to the url of the
    socket is scheduled when [reconnectAttempts < maxReconnectAttempts];
    none is scheduled only when the attempts are used up.  Nothing in
    [disconnect] or [onclose] tells the two kinds of close apart. *)
Theorem disconnect_closure_runs_onclose
  (c c1 c2 : BrowserChannel) (socket : nat) :
  disconnect c = (Normal (Some socket), c1) ->
  fire_close socket c1 = Some c2 ->
  isConnected c2 = false /\
  exists w, sockets (transport c) !! socket = Some w /\
    if reconnectAttempts (transport c) <? maxReconnectAttempts (transport c)
    then timers (transport c2)
         = timers (transport c)
           ++ [(reconnectDelay (transport c) * 2 ^ reconnectAttempts (transport c),
                ws_url w)]
    else timers (transport c2) = timers (transport c).
Proof.
  unfold disconnect, bind, gets, modify, ret.
  destruct (ws (transport c)) as [current|] eqn:Hws; [|discriminate].
  unfold socket_state.
  destruct (sockets (transport c) !! current) as [w|] eqn:Hw; cbn [fmap option_fmap option_map].
  - intros Hdisconnect Hclose.
    assert (Hc1 : socket = current /\
                  c1 = update_socket current
                         (fun w => WebSocket_close
                                     (set_close_listeners (S (close_listeners w)) w)) c).
    { destruct (readyState w); inversion Hdisconnect; by subst. }
    destruct Hc1 as [-> ->].
    apply fire_close_inv in Hclose as (w1 & Hw1 & _ & ->).
    assert (Hurl : ws_url w1 = ws_url w).
    { unfold update_socket, update in Hw1. cbn in Hw1.
      rewrite list_lookup_alter_eq, Hw in Hw1.
      injection Hw1 as <-. unfold WebSocket_close, set_close_listeners.
      cbn. by destruct (readyState w). }
    rewrite Hurl.
    destruct (close_handlers_spec current (ws_url w)
                (update_socket current
                   (fun w => WebSocket_close
                               (set_close_listeners (S (close_listeners w)) w)) c))
      as (Hflag & _ & _ & _ & _ & _ & Htimers).
    split; [exact Hflag|]. exists w. split; [exact Hw|].
    change (reconnectAttempts (transport (update_socket current
              (fun w => WebSocket_close
                          (set_close_listeners (S (close_listeners w)) w)) c)))
      with (reconnectAttempts (transport c)) in Htimers.
    change (maxReconnectAttempts (transport (update_socket current
              (fun w => WebSocket_close
                          (set_close_listeners (S (close_listeners w)) w)) c)))
      with (maxReconnectAttempts (transport c)) in Htimers.
    destruct (reconnectAttempts (transport c) <? maxReconnectAttempts (transport c));
      exact (proj1 Htimers).
  - intros Hdisconnect Hclose. inversion Hdisconnect; subst.
    apply fire_close_inv in Hclose as (w1 & Hw1 & _).
    unfold_handlers. rewrite list_lookup_alter_eq, Hw in Hw1. discriminate.
Qed.

Lemma disconnect_closure_runs_onclose_witness :
  exists c1 c2,
    disconnect Samples.open_channel = (Normal (Some 0%nat), c1) /\
    fire_close 0%nat c1 = Some c2 /\
    isConnected c2 = false /\
    timers (transport c2) = [(1000, "ws://localhost:8080")].
Proof.
  eexists; eexists.
  split; [reflexivity|]. split; [reflexivity|].
  destruct (disconnect_closure_runs_onclose Samples.open_channel _ _ 0%nat
              eq_refl eq_refl) as (Hflag & w & Hw & Htimers).
  split; [exact Hflag|]. reflexivity.
Defined.

(** C1.  The code reconnects after an explicit [disconnect()], against
    its own documentation (reconnection is for connections that are lost
    or dropped; [disconnect] closes the connection and cleans up).  On a
    channel that was opened with the default policy, the close event that
    follows [disconnect()] sets a timer of 1000 ms, and when the timer
    fires [connect] is called again with the url and a new socket is
    made. *)
Theorem disconnect_is_followed_by_reconnect :
  ~ disconnect_is_terminal Samples.open_channel /\
  exists c, run Samples.any_url Samples.quiet Samples.disconnect_scenario new_BrowserChannel
            = Some c /\
    effects c = [ConnectCall "ws://localhost:8080";
                 SetTimeout 1000 "ws://localhost:8080";
                 ConnectCall "ws://localhost:8080"] /\
    sockets (transport c)
    = [mkWebSocket "ws://localhost:8080" CLOSED Fulfilled 0%nat;
       mkWebSocket "ws://localhost:8080" CONNECTING Pending 0%nat].
Proof.
  split.
  - intros Hterminal.
    destruct (Hterminal 0%nat _ _ eq_refl eq_refl) as [Htimers _].
    vm_compute in Htimers. discriminate.
  - eexists; split; [vm_compute; reflexivity|]. split; reflexivity.
Qed.

(** ** A failed first connect *)

(** A call of [connect] that returns a pending promise made a new socket
    for the url and made it [this.ws]. *)
Lemma connect_pending_inv (WebSocket_check : string -> option Error) (url : string)
  (c c1 : BrowserChannel) (socket : nat) :
  connect WebSocket_check url c = (Normal socket, c1) ->
  WebSocket_check url = None /\
  socket = length (sockets (transport c)) /\
  c1 = update (fun f =>
         set_ws (Some socket)
           (set_sockets (sockets f ++ [mkWebSocket url CONNECTING Pending 0]) f))
         (emit (ConnectCall url) c).
Proof.
  unfold connect, bind, modify, gets, throw, ret.
  destruct (ws_readyState (emit (ConnectCall url) c)) as [[]|];
    try discriminate;
    destruct (WebSocket_check url); try discriminate;
    intros [= <- <-]; repeat split; reflexivity.
Qed.

(** C9. When a call of [connect(url)] has returned a pending promise and
    the connection then fails, the error event rejects that promise, and
    the close event that follows lowers the flag and, when
    [reconnectAttempts < maxReconnectAttempts], sets a timer for [url] with
    delay [reconnectDelay * 2^reconnectAttempts]; when that timer fires the
    counter is incremented, [connect(url)] is called again and makes a new
    socket for [url].  When no attempts remain no timer is set. *)
Theorem failed_initial_connect_is_retried
  (WebSocket_check : string -> option Error) (url : string)
  (c c1 : BrowserChannel) (socket : nat) :
  connect WebSocket_check url c = (Normal socket, c1) ->
  exists c2 c3,
    fire_error socket c1 = Some c2 /\
    connect_promise <$> sockets (transport c2) !! socket
    = Some (Rejected (new_Error "WebSocket error")) /\
    fire_close socket c2 = Some c3 /\
    isConnected c3 = false /\
    if reconnectAttempts (transport c) <? maxReconnectAttempts (transport c)
    then timers (transport c3)
         = timers (transport c)
           ++ [(reconnectDelay (transport c) * 2 ^ reconnectAttempts (transport c), url)] /\
         exists c4,
           fire_timer WebSocket_check (length (timers (transport c))) c3 = Some c4 /\
           reconnectAttempts (transport c4) = reconnectAttempts (transport c) + 1 /\
           new_effects c3 c4 = [ConnectCall url] /\
           sockets (transport c4)
           = sockets (transport c3) ++ [mkWebSocket url CONNECTING Pending 0]
    else timers (transport c3) = timers (transport c).
Proof.
  intros Hconnect.
  apply connect_pending_inv in Hconnect as (Hcheck & -> & ->).
  destruct c as [handlers flag [current attempts maxAttempts delay socks pending] log].
  cbn [transport sockets timers reconnectAttempts maxReconnectAttempts reconnectDelay].
  exists (mkChannel handlers flag
            (mkFields (Some (length socks)) attempts maxAttempts delay
               (socks ++ [mkWebSocket url CONNECTING
                            (Rejected (new_Error "WebSocket error")) 0])
               pending)
            (log ++ [ConnectCall url])).
  exists (handleClose (length socks) (onclose url
            (mkChannel handlers flag
               (mkFields (Some (length socks)) attempts maxAttempts delay
                  (socks ++ [mkWebSocket url CLOSED
                               (Rejected (new_Error "WebSocket error")) 0])
                  pending)
               (log ++ [ConnectCall url])))).
  split.
  { unfold fire_error, socket_state, onerror, update_socket, update, emit,
      set_transport, set_ws, set_sockets.
    cbn [transport sockets isConnected messageHandlers effects ws reconnectAttempts
         maxReconnectAttempts reconnectDelay timers].
    rewrite lookup_snoc, alter_snoc. reflexivity. }
  split.
  { cbn [transport sockets]. by rewrite lookup_snoc. }
  split.
  { unfold fire_close, update_socket, update, set_transport, set_sockets.
    cbn [transport sockets isConnected messageHandlers effects ws reconnectAttempts
         maxReconnectAttempts reconnectDelay timers].
    rewrite lookup_snoc. cbn [readyState ws_url]. by rewrite alter_snoc. }
  unfold handleClose, onclose, setTimeout, update_socket, update, emit, set_isConnected,
    set_transport, set_timers, set_sockets.
  cbn [transport sockets isConnected messageHandlers effects ws reconnectAttempts
       maxReconnectAttempts reconnectDelay timers].
  destruct (attempts <? maxAttempts);
    cbn [transport sockets isConnected messageHandlers effects ws reconnectAttempts
         maxReconnectAttempts reconnectDelay timers];
    rewrite decide_True by reflexivity;
    cbn [transport sockets isConnected messageHandlers effects ws reconnectAttempts
         maxReconnectAttempts reconnectDelay timers].
  - split; [reflexivity|]. split; [reflexivity|].
    eexists. split.
    + unfold fire_timer. cbn [transport timers]. rewrite lookup_snoc. reflexivity.
    + unfold reconnect, connect, try_catch, bind, modify, gets, throw, ret,
        new_effects, ws_readyState, socket_state, update, emit, set_transport,
        set_timers, set_reconnectAttempts.
      cbn [transport sockets isConnected messageHandlers effects ws reconnectAttempts
           maxReconnectAttempts reconnectDelay timers fst snd].
      rewrite !alter_snoc, lookup_snoc.
      cbn [fmap option_fmap option_map readyState set_readyState set_close_listeners].
      rewrite Hcheck.
      cbn [transport sockets isConnected messageHandlers effects ws reconnectAttempts
           maxReconnectAttempts reconnectDelay timers fst snd set_ws set_sockets].
      rewrite drop_app_length.
      repeat split; reflexivity.
  - split; reflexivity.
Qed.

Lemma failed_initial_connect_is_retried_witness :
  exists c1 c2 c3,
    connect Samples.any_url "ws://localhost:8080" new_BrowserChannel = (Normal 0%nat, c1) /\
    fire_error 0%nat c1 = Some c2 /\
    fire_close 0%nat c2 = Some c3 /\
    timers (transport c3) = [(1000, "ws://localhost:8080")].
Proof.
  destruct (failed_initial_connect_is_retried Samples.any_url "ws://localhost:8080"
              new_BrowserChannel _ 0%nat eq_refl)
    as (c2 & c3 & Herror & _ & Hclose & _ & Htimers).
  eexists; exists c2; exists c3.
  split; [reflexivity|]. split; [exact Herror|]. split; [exact Hclose|].
  exact (proj1 Htimers).
Defined.

(** ** The connection flag *)

Lemma coherent_move (current current' : option nat) (states states' : list ReadyState)
  (connected connected' : bool) :
  coherent current states connected ->
  move (current, states, connected) (current', states', connected') ->
  coherent current' states' connected'.
Proof.
  intros (Hbound & Hothers & Hlive) Hmove.
  inversion Hmove; subst; clear Hmove.
  - done.
  - repeat split.
    + intros i [= <-]. rewrite lookup_snoc. eauto.
    + intros j s Hj Hne. apply lookup_app_Some in Hj as [Hj|[Hge Hj]].
      * destruct (decide (current = Some j)) as [Hcur|Hcur]; eauto.
      * destruct (j - length states)%nat eqn:Hdiff; [|done].
        exfalso. apply Hne. f_equal. lia.
    + intros _. exists (length states), CONNECTING.
      rewrite lookup_snoc. done.
  - repeat split.
    + intros j [= <-]. rewrite list_lookup_alter_eq.
      destruct (Hbound i eq_refl) as [s ->]. eauto.
    + intros j s Hj Hne. rewrite list_lookup_alter_ne in Hj by congruence. eauto.
    + intros Hup. destruct (Hlive Hup) as (j & s & Hj & Hs & Hopen).
      injection Hj as ->.
      exists j, (closing s). rewrite list_lookup_alter_eq, Hs.
      repeat split. by destruct s.
  - assert (Hcur : current' = Some i).
    { destruct (decide (current' = Some i)) as [|Hne]; [done|].
      destruct (Hothers i CONNECTING) as [|]; done. }
    subst. repeat split.
    + intros j [= <-]. rewrite list_lookup_alter_eq.
      destruct (Hbound i eq_refl) as [s ->]. eauto.
    + intros j s Hj Hne. rewrite list_lookup_alter_ne in Hj by congruence. eauto.
    + intros _. exists i, OPEN. rewrite list_lookup_alter_eq.
      destruct (Hbound i eq_refl) as [s ->]. done.
  - repeat split.
    + intros j Hj. destruct (Hbound j Hj) as [s Hs].
      rewrite list_lookup_alter. case_decide; subst; rewrite Hs; eauto.
    + intros j s Hj Hne. rewrite list_lookup_alter in Hj.
      case_decide; subst.
      * destruct (states !! j); [|done]. injection Hj as <-. by right.
      * eauto.
    + done.
Qed.

Lemma consistent_new : consistent new_BrowserChannel.
Proof. repeat split; done. Qed.

Lemma ws_readyState_view (c : BrowserChannel) (i : nat) (s : ReadyState) :
  ws (transport c) = Some i ->
  (readyState <$> sockets (transport c)) !! i = Some s ->
  ws_readyState c = Some s.
Proof.
  intros Hws Hs. unfold ws_readyState, socket_state.
  by rewrite Hws, <- list_lookup_fmap.
Qed.

Lemma connect_view (WebSocket_check : string -> option Error) (url : string)
  (c : BrowserChannel) :
  move (view c) (view (snd (connect WebSocket_check url c))) /\
  isConnected (snd (connect WebSocket_check url c)) = isConnected c.
Proof.
  unfold connect, bind, modify, gets, throw, ret.
  change (ws_readyState (emit (ConnectCall url) c)) with (ws_readyState c).
  assert (Hnew :
    (forall i s, ws (transport c) = Some i ->
                 (readyState <$> sockets (transport c)) !! i = Some s ->
                 s = CLOSING \/ s = CLOSED) ->
    move (view c)
      (view (update (fun f =>
         set_ws (Some (length (sockets (transport c))))
           (set_sockets (sockets f ++ [mkWebSocket url CONNECTING Pending 0]) f))
         (emit (ConnectCall url) c)))).
  { intros Hold. unfold view. unfold_handlers.
    rewrite fmap_app. cbn [fmap list_fmap readyState].
    rewrite <- (length_fmap readyState (sockets (transport c))).
    by apply move_new. }
  destruct (ws_readyState c) as [[]|] eqn:Hstate; cbn [snd].
  1,2: split; [apply move_none|reflexivity].
  all: destruct (WebSocket_check url); cbn [snd];
    [split; [apply move_none|reflexivity]|].
  all: split; [|reflexivity]; apply Hnew; intros i s Hws Hs;
    rewrite (ws_readyState_view c i s Hws Hs) in Hstate.
  - injection Hstate as ->. by left.
  - injection Hstate as ->. by right.
  - discriminate.
Qed.

Lemma disconnect_view (c : BrowserChannel) :
  move (view c) (view (snd (disconnect c))) /\
  isConnected (snd (disconnect c)) = isConnected c.
Proof.
  unfold disconnect, bind, modify, gets, ret.
  destruct (ws (transport c)) as [i|] eqn:Hws; cbn [snd];
    [|split; [apply move_none|reflexivity]].
  assert (Hclosing :
    move (view c)
      (view (update_socket i
               (fun w => WebSocket_close
                           (set_close_listeners (S (close_listeners w)) w)) c))).
  { unfold view. unfold_handlers. rewrite Hws.
    rewrite (list_fmap_alter readyState _ closing).
    - apply move_closing.
    - apply Forall_forall. intros w _. unfold WebSocket_close, set_close_listeners.
      cbn. by destruct (readyState w). }
  destruct (socket_state c i) as [[]|]; cbn [snd];
    (split; [first [exact Hclosing|apply move_none]|reflexivity]).
Qed.

Lemma reconnect_view (WebSocket_check : string -> option Error) (url : string)
  (c : BrowserChannel) :
  move (view c) (view (reconnect WebSocket_check url c)) /\
  isConnected (reconnect WebSocket_check url c) = isConnected c.
Proof.
  unfold reconnect.
  set (c0 := update (fun f => set_reconnectAttempts (reconnectAttempts f + 1) f) c).
  assert (Hsame :
    snd (try_catch (do! connect WebSocket_check url in ret tt) (fun _ => ret tt) c0)
    = snd (connect WebSocket_check url c0)).
  { unfold try_catch, bind, ret.
    by destruct (connect WebSocket_check url c0) as [[socket|e] c1]. }
  rewrite Hsame.
  change (view c) with (view c0). change (isConnected c) with (isConnected c0).
  apply connect_view.
Qed.

Lemma BrowserChannel_send_view (id : MessageId) (data : Value) (now : Z)
  (c : BrowserChannel) :
  transport (snd (BrowserChannel_send id data now c)) = transport c /\
  isConnected (snd (BrowserChannel_send id data now c)) = isConnected c /\
  messageHandlers (snd (BrowserChannel_send id data now c)) = messageHandlers c.
Proof.
  unfold BrowserChannel_send, bind, gets, modify, throw.
  destruct (ws (transport c)); [|done].
  destruct (ws_readyState c) as [[]|]; done.
Qed.

(** The public [send] changes no field of the channel. *)
Lemma send_fields (id : MessageId) (data : Value) (now : Z) (c : BrowserChannel) :
  transport (snd (send id data now c)) = transport c /\
  isConnected (snd (send id data now c)) = isConnected c /\
  messageHandlers (snd (send id data now c)) = messageHandlers c /\
  view (snd (send id data now c)) = view c.
Proof.
  destruct (BrowserChannel_send_view id data now c) as (Htransport & Hflag & Hregistry).
  split; [exact Htransport|]. split; [exact Hflag|]. split; [exact Hregistry|].
  unfold view. f_equal; [f_equal|exact Hflag].
  - exact (f_equal ws Htransport).
  - exact (f_equal (fun f => readyState <$> sockets f) Htransport).
Qed.

Lemma sendMessage_view (definition : MessageDefinition) (data : Value) (now : Z)
  (c : BrowserChannel) :
  view (snd (sendMessage definition data now c)) = view c.
Proof.
  unfold sendMessage, bind, lift.
  destruct (schema definition data) as [validated|e]; [|reflexivity].
  destruct (BrowserChannel_send_view (def_id definition) validated now c)
    as (Htransport & Hflag & _).
  unfold view. cbn [send BrowserChannel_Transport].
  f_equal; [f_equal|exact Hflag].
  - exact (f_equal ws Htransport).
  - exact (f_equal (fun f => readyState <$> sockets f) Htransport).
Qed.

Lemma settle_view (socket : nat) (p : PromiseState) (c : BrowserChannel) :
  view (update_socket socket (settle p) c) = view c.
Proof.
  unfold view. unfold_handlers.
  rewrite (list_fmap_alter readyState _ (fun s => s)).
  - by rewrite list_alter_id.
  - apply Forall_forall. intros w _. unfold settle. by destruct (connect_promise w).
Qed.

(** What each action does to the view and to the flag. *)
Lemma step_view (WebSocket_check : string -> option Error)
  (call : HandlerRef -> Value -> Message -> HandlerResult)
  (a : Action) (c c' : BrowserChannel) :
  step WebSocket_check call a c = Some c' ->
  move (view c) (view c') /\ isConnected c' = transition a (isConnected c).
Proof.
  destruct a as [url| |definition data now|id data now|k handler|k handler
                |maxAttempts baseDelay|socket|socket|socket|socket data now|k];
    cbn [step transition].
  - intros [= <-]. apply connect_view.
  - intros [= <-]. apply disconnect_view.
  - intros [= <-]. pose proof (sendMessage_view definition data now c) as Hview.
    rewrite Hview. split; [apply move_none|].
    by injection Hview.
  - intros [= <-]. destruct (send_fields id data now c) as (_ & Hflag & _ & Hview).
    split; [|exact Hflag].
    exact (eq_ind_r (move (view c)) (move_none (view c)) Hview).
  - intros [= <-]. split; [apply move_none|reflexivity].
  - intros [= <-]. unfold off. destruct (messageHandlers c !! id_of k);
      (split; [apply move_none|reflexivity]).
  - intros [= <-]. split; [apply move_none|reflexivity].
  - unfold fire_open, socket_state.
    destruct (sockets (transport c) !! socket) as [w|] eqn:Hw; [|discriminate].
    cbn [fmap option_fmap option_map].
    destruct (readyState w) eqn:Hstate; try discriminate.
    intros [= <-]. split; [|reflexivity].
    unfold onopen.
    rewrite settle_view. unfold view. unfold_handlers.
    rewrite (list_fmap_alter readyState _ (fun _ => OPEN))
      by (apply Forall_forall; intros; reflexivity).
    apply move_open. rewrite list_lookup_fmap, Hw. cbn. by rewrite Hstate.
  - unfold fire_error. destruct (socket_state c socket) as [[]|]; try discriminate;
      intros [= <-]; unfold onerror; rewrite settle_view;
      (split; [apply move_none|reflexivity]).
  - intros Hclose. apply fire_close_inv in Hclose as (w & Hw & Hstate & ->).
    split.
    + assert (Hlisteners : forall c0 : BrowserChannel,
                view (handleClose socket c0) = view c0).
      { intros c0. unfold handleClose. destruct (decide _); [|reflexivity].
        unfold view. unfold_handlers.
        rewrite (list_fmap_alter readyState _ (fun s => s))
          by (apply Forall_forall; intros; reflexivity).
        by rewrite list_alter_id. }
      rewrite Hlisteners.
      assert (Honclose : forall c0 : BrowserChannel,
                view (onclose (ws_url w) c0)
                = (ws (transport c0), readyState <$> sockets (transport c0), false)).
      { intros c0. unfold view. unfold_handlers.
        by destruct (reconnectAttempts (transport c0) <? maxReconnectAttempts (transport c0)). }
      rewrite Honclose. unfold view. unfold_handlers.
      rewrite (list_fmap_alter readyState _ (fun _ => CLOSED))
        by (apply Forall_forall; intros; reflexivity).
      apply move_closed.
    + by destruct (close_handlers_spec socket (ws_url w) c) as (Hflag & _).
  - unfold fire_message. destruct (socket_state c socket) as [[]|]; try discriminate.
    intros [= <-]. unfold onmessage. rewrite handleMessage_run. cbn [snd].
    split; [apply move_none|reflexivity].
  - unfold fire_timer. destruct (timers (transport c) !! k) as [[delay url]|];
      [|discriminate].
    intros [= <-].
    apply (reconnect_view WebSocket_check url
             (update (fun f => set_timers (delete k (timers f)) f) c)).
Qed.

Lemma run_consistent (WebSocket_check : string -> option Error)
  (call : HandlerRef -> Value -> Message -> HandlerResult)
  (actions : list Action) (c c' : BrowserChannel) :
  consistent c -> run WebSocket_check call actions c = Some c' -> consistent c'.
Proof.
  revert c. induction actions as [|a rest IH]; intros c Hc; cbn [run].
  - by intros [= <-].
  - destruct (step WebSocket_check call a c) as [c1|] eqn:Hstep; [|discriminate].
    apply IH. destruct (step_view _ _ _ _ _ Hstep) as [Hmove _].
    unfold consistent. unfold view in Hmove. by eapply coherent_move.
Qed.

Lemma run_flag (WebSocket_check : string -> option Error)
  (call : HandlerRef -> Value -> Message -> HandlerResult)
  (actions : list Action) (c c' : BrowserChannel) :
  run WebSocket_check call actions c = Some c' ->
  isConnected c'
  = fold_left (fun connected a => transition a connected) actions (isConnected c).
Proof.
  revert c. induction actions as [|a rest IH]; intros c; cbn [run fold_left].
  - by intros [= <-].
  - destruct (step WebSocket_check call a c) as [c1|] eqn:Hstep; [|discriminate].
    intros Hrun. rewrite (IH c1 Hrun).
    by destruct (step_view _ _ _ _ _ Hstep) as [_ ->].
Qed.

(** A promise of [disconnect] that is resolved at once leaves a channel
    whose flag is down. *)
Lemma disconnect_resolved_flag (c c' : BrowserChannel) :
  consistent c -> disconnect c = (Normal None, c') -> isConnected c' = false.
Proof.
  intros (_ & _ & Hlive). unfold disconnect, bind, gets, modify, ret.
  destruct (isConnected c) eqn:Hflag.
  - destruct (Hlive eq_refl) as (i & s & Hws & Hs & Hopen).
    rewrite Hws. unfold socket_state. rewrite list_lookup_fmap in Hs. rewrite Hs.
    destruct s; try discriminate. done.
  - destruct (ws (transport c)) as [i|]; [|by intros [= <-]].
    destruct (socket_state c i) as [[]|]; try discriminate. by intros [= <-].
Qed.

Lemma flag_raised_by_open (actions : list Action) (connected : bool) :
  fold_left (fun connected a => transition a connected) actions connected = true ->
  connected = true \/ exists socket, OpenEvent socket ∈ actions.
Proof.
  revert connected. induction actions as [|a rest IH]; intros connected; cbn [fold_left].
  - by left.
  - intros Hup. destruct (IH _ Hup) as [Hnow|[socket Hin]].
    + destruct a; cbn [transition] in Hnow; try (by left); try discriminate.
      right. eexists. by left.
    + right. exists socket. by right.
Qed.

(** What [isOpen()] reads.  It returns the connection flag and changes
    nothing.  It is [false] on every new channel.  On a socket channel,
    after any run of calls and transport events, it tells whether the last
    open or close event of the run was an open event; so it is [true] only
    after an open event, and [false] after every close event, whether or
    not a reconnect follows.  It is [false] when the promise of
    [disconnect()] is resolved: at once on a channel that is not
    connected, and otherwise at the close event of the socket, until which
    the flag stays as it was. *)
Theorem isOpen_reads_the_connection_flag
  (WebSocket_check : string -> option Error)
  (call : HandlerRef -> Value -> Message -> HandlerResult) :
  (forall (T : Type) (c : Channel T), isOpen c = isConnected c) /\
  (forall (T : Type) (t : T), isOpen (new_Channel t) = false) /\
  isOpen new_BrowserChannel = false /\
  (forall actions c,
     run WebSocket_check call actions new_BrowserChannel = Some c ->
     isOpen c = connected_after actions /\
     (isOpen c = true -> exists socket, OpenEvent socket ∈ actions)) /\
  (forall c socket c', fire_close socket c = Some c' -> isOpen c' = false) /\
  (forall actions c c',
     run WebSocket_check call actions new_BrowserChannel = Some c ->
     disconnect c = (Normal None, c') ->
     isOpen c' = false) /\
  (forall c socket c1,
     disconnect c = (Normal (Some socket), c1) ->
     isOpen c1 = isOpen c /\
     forall c2, fire_close socket c1 = Some c2 -> isOpen c2 = false).
Proof.
  assert (Hclose : forall c socket c', fire_close socket c = Some c' -> isOpen c' = false).
  { intros c socket c' Hfire. apply fire_close_inv in Hfire as (w & _ & _ & ->).
    by destruct (close_handlers_spec socket (ws_url w) c) as (Hflag & _). }
  repeat split; try reflexivity.
  - unfold isOpen. rewrite (run_flag _ _ _ _ _ H). reflexivity.
  - intros Hup. unfold isOpen in Hup. rewrite (run_flag _ _ _ _ _ H) in Hup.
    destruct (flag_raised_by_open _ _ Hup) as [|]; [discriminate|done].
  - exact Hclose.
  - intros actions c c' Hrun Hdisconnect.
    apply (disconnect_resolved_flag c c'); [|exact Hdisconnect].
    eapply run_consistent; [apply consistent_new|exact Hrun].
  - destruct (disconnect_view c) as [_ Hflag]. rewrite H in Hflag. exact Hflag.
  - intros c2. apply Hclose.
Qed.

Lemma isOpen_reads_the_connection_flag_witness :
  isOpen Samples.open_channel = true /\
  (exists c1, disconnect Samples.open_channel = (Normal (Some 0%nat), c1) /\
     isOpen c1 = true /\
     exists c2, fire_close 0%nat c1 = Some c2 /\ isOpen c2 = false).
Proof.
  destruct (isOpen_reads_the_connection_flag Samples.any_url Samples.quiet)
    as (_ & _ & _ & _ & _ & _ & Hpending).
  split; [reflexivity|].
  eexists. split; [reflexivity|].
  destruct (Hpending Samples.open_channel 0%nat _ eq_refl) as [Hsame Hafter].
  split; [rewrite Hsame; reflexivity|].
  eexists. split; [reflexivity|]. apply Hafter. reflexivity.
Defined.

(** C8.  [isOpen()] does not stay [false] after [disconnect()].  On a
    channel that is open, [disconnect()] closes the socket and waits for
    its close event, until which [isOpen()] is still [true]; the close
    event resolves the promise of [disconnect()], and [isOpen()] is
    [false].  The application calls nothing more; the reconnect timer that
    the close event has set fires, the new socket opens, and [isOpen()] is
    [true] again.  The defect is the one of C1: [onclose] does not know
    that the close was asked for. *)
Theorem isOpen_is_true_again_after_disconnect :
  isOpen new_BrowserChannel = false /\
  isOpen Samples.open_channel = true /\
  exists c1 c2 c3,
    disconnect Samples.open_channel = (Normal (Some 0%nat), c1) /\
    sockets (transport c1) = [mkWebSocket "ws://localhost:8080" CLOSING Fulfilled 1] /\
    isOpen c1 = true /\
    fire_close 0%nat c1 = Some c2 /\
    sockets (transport c2) = [mkWebSocket "ws://localhost:8080" CLOSED Fulfilled 0] /\
    isOpen c2 = false /\
    run Samples.any_url Samples.quiet [TimerEvent 0%nat; OpenEvent 1%nat] c2 = Some c3 /\
    new_effects c2 c3 = [ConnectCall "ws://localhost:8080"] /\
    sockets (transport c3)
    = [mkWebSocket "ws://localhost:8080" CLOSED Fulfilled 0;
       mkWebSocket "ws://localhost:8080" OPEN Fulfilled 0] /\
    isOpen c3 = true.
Proof.
  split; [reflexivity|]. split; [reflexivity|].
  eexists; eexists; eexists.
  split; [reflexivity|]. split; [reflexivity|]. split; [reflexivity|].
  split; [reflexivity|]. split; [reflexivity|]. split; [reflexivity|].
  split; [vm_compute; reflexivity|]. repeat split; reflexivity.
Qed.

(** * Further properties of the base channel *)

Import More.

(** A frame for which no handler is registered (an id nobody subscribed
    to, an id whose handlers were all removed, an id that is not a string)
    is dropped: no call, no report, the channel is as it was. *)
Theorem handleMessage_without_handlers_is_silent
  {T : Type} (call : HandlerRef -> Value -> Message -> HandlerResult)
  (rawMessage : Text) (now : Z) (message : Message) (c : Channel T) :
  parse_message rawMessage now = Normal message ->
  default [] (Map_get (messageHandlers c) (msg_id message)) = [] ->
  handleMessage call rawMessage now c = (Normal tt, c).
Proof.
  intros Hmessage Hnone. rewrite handleMessage_run.
  unfold handleMessage_log, handleMessage_completion, caught.
  rewrite Hmessage, Hnone. cbn. by rewrite emit_all_nil.
Qed.

Lemma handleMessage_without_handlers_is_silent_witness :
  handleMessage Samples.quiet Samples.stamped_frame 1700000000005
    (off (ById "ping") 1%nat (on (ById "ping") 1%nat Samples.open_channel))
  = (Normal tt, off (ById "ping") 1%nat (on (ById "ping") 1%nat Samples.open_channel)).
Proof.
  apply (handleMessage_without_handlers_is_silent Samples.quiet Samples.stamped_frame
           1700000000005 (mkMessage (VStr "ping") (VNum 1) (VNum 1700000000000)));
    reflexivity.
Defined.

(** A JSON frame that is not an object never reaches a handler, whatever
    is registered: [null] is reported as a parse failure (reading [id] off
    it throws), and a number, a string, a boolean or an array is dropped
    without a report. *)
Theorem handleMessage_on_non_object_frames
  {T : Type} (call : HandlerRef -> Value -> Message -> HandlerResult)
  (doc : Json) (now : Z) (c : Channel T) :
  is_object doc = false ->
  dispatched call (JsonText doc) now c = [] /\
  (doc <> JNull -> handleMessage call (JsonText doc) now c = (Normal tt, c)) /\
  (doc = JNull ->
   handleMessage call (JsonText doc) now c
   = (Normal tt,
      emit (ConsoleError
              "Failed to parse message: TypeError: Cannot read properties of null (reading 'id')")
        c)).
Proof.
  intros Hdoc. rewrite dispatched_called.
  destruct doc as [|b|n|s|items|members]; try discriminate;
    (split; [reflexivity|]); split; try congruence; intros _;
    rewrite handleMessage_run;
    unfold handleMessage_log, handleMessage_completion, caught; cbn;
    try apply f_equal; try apply emit_all_nil; reflexivity.
Qed.

Lemma handleMessage_on_non_object_frames_witness :
  dispatched Samples.quiet (JsonText (JNum 7)) 1700000000005
    (on (ById "ping") 1%nat Samples.open_channel) = [].
Proof.
  exact (proj1 (handleMessage_on_non_object_frames Samples.quiet (JNum 7) 1700000000005
                  (on (ById "ping") 1%nat Samples.open_channel) eq_refl)).
Defined.

(** Handlers are called in the order of their first registration: a
    handler that is new for the id is called after those already there,
    and registering a handler again does not move it.  (The handlers are
    those whose failures the dispatch loop can report.) *)
Theorem on_keeps_registration_order
  {T : Type} (call : HandlerRef -> Value -> Message -> HandlerResult)
  (k : IdOrDefinition) (handler : HandlerRef) (c : Channel T)
  (rawMessage : Text) (now : Z) (message : Message) :
  (forall handler data message, reportable (call handler data message)) ->
  parse_message rawMessage now = Normal message ->
  msg_id message = VStr (id_of k) ->
  List.map handler_of (dispatched call rawMessage now (on k handler c))
  = if decide (handler ∈ List.map handler_of (dispatched call rawMessage now c))
    then List.map handler_of (dispatched call rawMessage now c)
    else List.map handler_of (dispatched call rawMessage now c) ++ [handler].
Proof.
  intros Hreportable Hmessage Hid.
  rewrite !(dispatched_handlers call rawMessage now message (id_of k)) by done.
  rewrite on_lookup. reflexivity.
Qed.

Lemma on_keeps_registration_order_witness :
  List.map handler_of
    (dispatched Samples.quiet Samples.stamped_frame 1700000000005
       (on (ById "ping") 1%nat
          (on (ById "ping") 2%nat (on (ById "ping") 1%nat Samples.open_channel))))
  = [1%nat; 2%nat].
Proof.
  rewrite (on_keeps_registration_order Samples.quiet (ById "ping") 1%nat
             (on (ById "ping") 2%nat (on (ById "ping") 1%nat Samples.open_channel))
             Samples.stamped_frame 1700000000005
             (mkMessage (VStr "ping") (VNum 1) (VNum 1700000000000))
             (fun _ _ _ => I) eq_refl eq_refl).
  reflexivity.
Defined.

Lemma Set_delete_add (handler : HandlerRef) (s : list HandlerRef) :
  handler ∉ s -> Set_delete handler (Set_add handler s) = s.
Proof.
  intros Hout. unfold Set_add. rewrite decide_False by done.
  unfold Set_delete. rewrite filter_app, filter_cons, decide_False by (intros H; by apply H).
  rewrite filter_nil, app_nil_r. by apply Set_delete_absent.
Qed.

Lemma on_lookup_other {T : Type} (k : IdOrDefinition) (handler : HandlerRef)
  (c : Channel T) (id' : string) :
  id' <> id_of k ->
  messageHandlers (on k handler c) !! id' = messageHandlers c !! id'.
Proof.
  intros Hne. unfold on. cbn [set_messageHandlers messageHandlers].
  rewrite lookup_insert_ne by done.
  destruct (messageHandlers c !! id_of k); [done|]. by rewrite lookup_insert_ne.
Qed.

(** Registration touches one id: [on] for an id leaves the handlers of
    every other id as they were; and [off] undoes [on] of a handler that
    was not registered: every frame is dispatched as before the two
    calls (the registry itself may keep an empty set for the id). *)
Theorem off_undoes_on
  {T : Type} (call : HandlerRef -> Value -> Message -> HandlerResult)
  (k : IdOrDefinition) (handler : HandlerRef) (c : Channel T) :
  handler ∉ default [] (messageHandlers c !! id_of k) ->
  (forall id', id' <> id_of k ->
     messageHandlers (on k handler c) !! id' = messageHandlers c !! id') /\
  (forall rawMessage now,
     dispatched call rawMessage now (off k handler (on k handler c))
     = dispatched call rawMessage now c).
Proof.
  intros Hout. split; [intros id'; apply on_lookup_other|].
  intros rawMessage now. rewrite !dispatched_called.
  destruct (parse_message rawMessage now) as [message|e]; [|reflexivity].
  do 2 f_equal.
  destruct (msg_id message) as [| |b|n| | |negative|id'|iso|items|props];
    try reflexivity.
  cbn [Map_get]. destruct (decide (id' = id_of k)) as [->|Hne].
  - rewrite off_lookup, on_lookup. cbn [from_option id]. by apply Set_delete_add.
  - by rewrite off_lookup_other, on_lookup_other.
Qed.

Lemma off_undoes_on_witness :
  dispatched Samples.faulty Samples.stamped_frame 1700000000005
    (off (ById "ping") 1%nat (on (ById "ping") 1%nat
       (on (ById "ping") 2%nat Samples.open_channel)))
  = dispatched Samples.faulty Samples.stamped_frame 1700000000005
      (on (ById "ping") 2%nat Samples.open_channel).
Proof.
  assert (Hout : 1%nat ∉ default []
            (messageHandlers (on (ById "ping") 2%nat Samples.open_channel)
               !! id_of (ById "ping"))).
  { vm_compute. intros Hin. inversion Hin as [|? ? ? Hin']; subst. inversion Hin'. }
  exact (proj2 (off_undoes_on Samples.faulty (ById "ping") 1%nat
                  (on (ById "ping") 2%nat Samples.open_channel) Hout)
           Samples.stamped_frame 1700000000005).
Defined.

(** ** What the wire does to data *)

(** Every frame that the send path writes is read back as an envelope,
    for every data: it has the id, the JSON image of the data and, unless
    the send time is 0, the send time.  The receiving side never reports
    a parse failure on it. *)
Theorem sent_frames_always_parse (id : MessageId) (data : Value) (now now' : Z) :
  parse_message (validateAndSerialize id data now) now'
  = Normal (mkMessage (VStr id) (wire_image data)
              (if Z.eqb now 0 then VNum now' else VNum now)).
Proof.
  unfold validateAndSerialize, JSON_stringify, parse_message, wire_image.
  cbn [serialize omap list_omap].
  destruct (serialize data) as [doc|]; cbn; unfold or_else; cbn [truthy];
    by destruct (Z.eqb now 0).
Qed.

(** * Further properties of the socket channel *)

(** On a channel whose socket is open, [sendMessage] with valid data
    writes exactly one frame, on [this.ws], and changes nothing else; the
    frame carries the validated data (what the schema returned, not what
    the caller passed) under the id of the definition. *)
Theorem sendMessage_on_open_socket_writes_one_frame
  (definition : MessageDefinition) (data validated : Value) (now now' : Z)
  (c : BrowserChannel) (socket : nat) :
  schema definition data = Normal validated ->
  ws (transport c) = Some socket ->
  socket_state c socket = Some OPEN ->
  sendMessage definition data now c
  = (Normal tt,
     emit (SocketSend socket (validateAndSerialize (def_id definition) validated now)) c) /\
  parse_message (validateAndSerialize (def_id definition) validated now) now'
  = Normal (mkMessage (VStr (def_id definition)) (wire_image validated)
              (if Z.eqb now 0 then VNum now' else VNum now)).
Proof.
  intros Hvalid Hws Hopen. split.
  - by apply sendMessage_writes_frame.
  - unfold validateAndSerialize, JSON_stringify, parse_message, wire_image.
    cbn [serialize omap list_omap].
    destruct (serialize validated) as [doc|]; cbn; unfold or_else; cbn [truthy];
      by destruct (Z.eqb now 0).
Qed.

Lemma sendMessage_on_open_socket_writes_one_frame_witness :
  sendMessage Samples.ping (VNum 42) 1700000000000 Samples.open_channel
  = (Normal tt,
     emit (SocketSend 0%nat
             (JsonText (JObj [("id", JStr "ping"); ("data", JNum 42);
                              ("timestamp", JNum 1700000000000)])))
       Samples.open_channel).
Proof.
  exact (proj1 (sendMessage_on_open_socket_writes_one_frame Samples.ping (VNum 42)
                  (VNum 42) 1700000000000 0 Samples.open_channel 0%nat
                  eq_refl eq_refl eq_refl)).
Defined.

(** While the socket is not open (never connected, connecting, closing,
    closed), [sendMessage] with valid data rejects with
    [WebSocket is not connected]; nothing is written and nothing is kept
    for later: the channel is as it was. *)
Theorem sendMessage_while_not_open_rejects
  (definition : MessageDefinition) (data validated : Value) (now : Z)
  (c : BrowserChannel) :
  schema definition data = Normal validated ->
  ws_readyState c <> Some OPEN ->
  sendMessage definition data now c
  = (Throw (new_Error "WebSocket is not connected"), c).
Proof.
  intros Hvalid Hclosed. unfold sendMessage, bind, lift. rewrite Hvalid.
  cbn [send BrowserChannel_Transport].
  unfold BrowserChannel_send, bind, gets, modify, throw.
  destruct (ws (transport c)) as [socket|] eqn:Hws; [|reflexivity].
  destruct (ws_readyState c) as [[]|]; try reflexivity. congruence.
Qed.

Lemma sendMessage_while_not_open_rejects_witness :
  sendMessage Samples.ping (VNum 42) 1700000000000 new_BrowserChannel
  = (Throw (new_Error "WebSocket is not connected"), new_BrowserChannel).
Proof.
  apply (sendMessage_while_not_open_rejects Samples.ping (VNum 42) (VNum 42));
    [reflexivity|discriminate].
Defined.

(** [connect] while [this.ws] is connecting or open rejects, with
    [Connection already in progress] or [Already connected]; no socket is
    made and no field of the channel changes. *)
Theorem connect_while_live_rejects
  (WebSocket_check : string -> option Error) (url : string) (c : BrowserChannel) :
  ws_readyState c = Some CONNECTING \/ ws_readyState c = Some OPEN ->
  exists e,
    connect WebSocket_check url c = (Throw e, emit (ConnectCall url) c) /\
    e = new_Error (if decide (ws_readyState c = Some OPEN)
                   then "Already connected"
                   else "Connection already in progress").
Proof.
  intros Hlive. unfold connect, bind, modify, gets, throw.
  change (ws_readyState (emit (ConnectCall url) c)) with (ws_readyState c).
  destruct Hlive as [-> | ->]; eexists; (split; [reflexivity|]).
  - by rewrite decide_False.
  - by rewrite decide_True.
Qed.

Lemma connect_while_live_rejects_witness :
  connect Samples.any_url "ws://elsewhere:9000" Samples.open_channel
  = (Throw (new_Error "Already connected"),
     emit (ConnectCall "ws://elsewhere:9000") Samples.open_channel).
Proof.
  destruct (connect_while_live_rejects Samples.any_url "ws://elsewhere:9000"
              Samples.open_channel (or_intror eq_refl)) as (e & Hconnect & ->).
  exact Hconnect.
Defined.

(** A reconnect timer that fires while [this.ws] is connecting or open
    (the application has connected again meanwhile) makes no socket and
    leaves the connection alone: the rejection of its [connect] is
    swallowed; only the attempt counter goes up by one. *)
Theorem stale_timer_only_counts
  (WebSocket_check : string -> option Error) (k : nat) (delay : Z) (url : string)
  (c : BrowserChannel) :
  timers (transport c) !! k = Some (delay, url) ->
  ws_readyState c = Some CONNECTING \/ ws_readyState c = Some OPEN ->
  exists c', fire_timer WebSocket_check k c = Some c' /\
    sockets (transport c') = sockets (transport c) /\
    ws (transport c') = ws (transport c) /\
    isConnected c' = isConnected c /\
    messageHandlers c' = messageHandlers c /\
    timers (transport c') = delete k (timers (transport c)) /\
    reconnectAttempts (transport c') = reconnectAttempts (transport c) + 1.
Proof.
  intros Hk Hlive. unfold fire_timer. rewrite Hk. eexists. split; [reflexivity|].
  unfold reconnect.
  set (c0 := update (fun f => set_reconnectAttempts (reconnectAttempts f + 1) f)
               (update (fun f => set_timers (delete k (timers f)) f) c)).
  assert (Hlive0 : ws_readyState c0 = Some CONNECTING \/ ws_readyState c0 = Some OPEN)
    by exact Hlive.
  assert (Hconnect : exists e,
            connect WebSocket_check url c0 = (Throw e, emit (ConnectCall url) c0)).
  { unfold connect, bind, modify, gets, throw.
    change (ws_readyState (emit (ConnectCall url) c0)) with (ws_readyState c0).
    destruct Hlive0 as [-> | ->]; eexists; reflexivity. }
  destruct Hconnect as (e & Hconnect).
  unfold try_catch, bind, ret. rewrite Hconnect. cbn [snd].
  repeat split.
Qed.

Lemma stale_timer_only_counts_witness :
  exists c c',
    run Samples.any_url Samples.quiet
      [CallConnect "ws://localhost:8080"; OpenEvent 0%nat; CloseEvent 0%nat;
       CallConnect "ws://localhost:8080"] new_BrowserChannel = Some c /\
    fire_timer Samples.any_url 0%nat c = Some c' /\
    sockets (transport c') = sockets (transport c) /\
    reconnectAttempts (transport c') = 1.
Proof.
  eexists. 
  destruct (stale_timer_only_counts Samples.any_url 0%nat 1000 "ws://localhost:8080"
              (default new_BrowserChannel
                 (run Samples.any_url Samples.quiet
                    [CallConnect "ws://localhost:8080"; OpenEvent 0%nat; CloseEvent 0%nat;
                     CallConnect "ws://localhost:8080"] new_BrowserChannel))
              eq_refl (or_introl eq_refl))
    as (c' & Hfire & Hsockets & _ & _ & _ & _ & Hattempts).
  exists c'. split; [vm_compute; reflexivity|].
  split; [exact Hfire|]. split; [exact Hsockets|]. exact Hattempts.
Defined.

Lemma closing_idempotent (s : ReadyState) : closing (closing s) = closing s.
Proof. by destruct s. Qed.

Lemma readyState_after_close (w : WebSocket) :
  readyState (WebSocket_close (set_close_listeners (S (close_listeners w)) w))
  = closing (readyState w).
Proof. unfold WebSocket_close, set_close_listeners. cbn. by destruct (readyState w). Qed.

(** A call of [disconnect] that has to wait closes [this.ws]. *)
Lemma disconnect_pending_inv (c c1 : BrowserChannel) (socket : nat) :
  disconnect c = (Normal (Some socket), c1) ->
  ws (transport c) = Some socket /\
  socket_state c socket <> Some CLOSED /\
  c1 = update_socket socket
         (fun w => WebSocket_close (set_close_listeners (S (close_listeners w)) w)) c.
Proof.
  unfold disconnect, bind, gets, modify, ret.
  destruct (ws (transport c)) as [current|]; [|discriminate].
  destruct (socket_state c current) as [[]|] eqn:Hstate; intros [= <- <-];
    repeat split; congruence.
Qed.

(** [disconnect()] on a channel that never connected, or whose socket is
    closed already, resolves at once and changes nothing; while the socket
    is closing, a second [disconnect()] waits for the same close event and
    changes no ready state. *)
Theorem disconnect_when_disconnected_is_noop (c : BrowserChannel) :
  (ws (transport c) = None \/ ws_readyState c = Some CLOSED ->
   disconnect c = (Normal None, c)) /\
  (forall socket c1,
     disconnect c = (Normal (Some socket), c1) ->
     exists c2, disconnect c1 = (Normal (Some socket), c2) /\ view c2 = view c1).
Proof.
  split.
  - unfold disconnect, bind, gets, modify, ret, ws_readyState.
    intros [Hnone|Hclosed].
    + by rewrite Hnone.
    + destruct (ws (transport c)) as [socket|]; [|discriminate]. by rewrite Hclosed.
  - intros socket c1 Hfirst.
    apply disconnect_pending_inv in Hfirst as (Hws & Hopen & ->).
    set (g := fun w => WebSocket_close (set_close_listeners (S (close_listeners w)) w)).
    assert (Hstate : socket_state (update_socket socket g c) socket
                     = closing <$> socket_state c socket).
    { unfold socket_state, update_socket, update.
      cbn [transport set_transport set_sockets sockets].
      rewrite list_lookup_alter_eq.
      destruct (sockets (transport c) !! socket) as [w|]; [|reflexivity].
      exact (f_equal Some (readyState_after_close w)). }
    exists (update_socket socket g (update_socket socket g c)). split.
    + unfold disconnect, bind, gets, modify, ret.
      change (ws (transport (update_socket socket g c))) with (ws (transport c)).
      rewrite Hws, Hstate.
      destruct (socket_state c socket) as [[]|]; try reflexivity. congruence.
    + unfold view, update_socket, update.
      cbn [transport set_transport set_sockets sockets ws isConnected].
      f_equal. f_equal.
      rewrite list_alter_alter_eq.
      rewrite (list_fmap_alter readyState _ (closing ∘ closing))
        by (apply Forall_forall; intros w _; unfold g, compose;
            by rewrite !readyState_after_close).
      rewrite (list_fmap_alter readyState g closing)
        by (apply Forall_forall; intros w _; unfold g;
            by rewrite readyState_after_close).
      apply list_alter_ext; [|reflexivity]. intros s _. apply closing_idempotent.
Qed.

Lemma disconnect_when_disconnected_is_noop_witness :
  disconnect new_BrowserChannel = (Normal None, new_BrowserChannel).
Proof.
  apply (proj1 (disconnect_when_disconnected_is_noop new_BrowserChannel)).
  by left.
Defined.

(** [disconnect()] does not cancel a reconnect that is already scheduled:
    with the socket closed and a timer pending, [disconnect()] resolves at
    once and keeps the timer, and when the timer fires a new socket to the
    timer's url is made and becomes [this.ws]. *)
Theorem disconnect_keeps_scheduled_reconnect
  (WebSocket_check : string -> option Error) (k : nat) (delay : Z) (url : string)
  (c : BrowserChannel) :
  ws_readyState c = Some CLOSED ->
  timers (transport c) !! k = Some (delay, url) ->
  WebSocket_check url = None ->
  disconnect c = (Normal None, c) /\
  exists c', fire_timer WebSocket_check k c = Some c' /\
    sockets (transport c')
    = sockets (transport c) ++ [mkWebSocket url CONNECTING Pending 0] /\
    ws (transport c') = Some (length (sockets (transport c))) /\
    reconnectAttempts (transport c') = reconnectAttempts (transport c) + 1.
Proof.
  intros Hclosed Hk Hcheck. split.
  - unfold disconnect, bind, gets, modify, ret. unfold ws_readyState in Hclosed.
    destruct (ws (transport c)) as [socket|]; [|discriminate]. by rewrite Hclosed.
  - unfold fire_timer. rewrite Hk. eexists. split; [reflexivity|].
    unfold reconnect, connect, try_catch, bind, modify, gets, throw, ret.
    match goal with
    | |- context [ws_readyState ?x] => change (ws_readyState x) with (ws_readyState c)
    end.
    rewrite Hclosed, Hcheck. cbn. repeat split.
Qed.

Lemma disconnect_keeps_scheduled_reconnect_witness :
  exists c c',
    run Samples.any_url Samples.quiet
      [CallConnect "ws://localhost:8080"; OpenEvent 0%nat; CloseEvent 0%nat]
      new_BrowserChannel = Some c /\
    disconnect c = (Normal None, c) /\
    fire_timer Samples.any_url 0%nat c = Some c' /\
    ws (transport c') = Some 1%nat.
Proof.
  eexists.
  destruct (disconnect_keeps_scheduled_reconnect Samples.any_url 0%nat 1000
              "ws://localhost:8080"
              (default new_BrowserChannel
                 (run Samples.any_url Samples.quiet
                    [CallConnect "ws://localhost:8080"; OpenEvent 0%nat; CloseEvent 0%nat]
                    new_BrowserChannel))
              eq_refl eq_refl eq_refl)
    as (Hdisconnect & c' & Hfire & _ & Hws & _).
  exists c'. split; [vm_compute; reflexivity|].
  split; [exact Hdisconnect|]. split; [exact Hfire|]. exact Hws.
Defined.

(** ** Invariants of the socket channel *)

(** The state after [connect]: the call is recorded, and either nothing
    else happened or a connecting socket for the url was appended and made
    [this.ws]. *)
Lemma connect_shape (WebSocket_check : string -> option Error) (url : string)
  (c : BrowserChannel) :
  snd (connect WebSocket_check url c) = emit (ConnectCall url) c \/
  snd (connect WebSocket_check url c)
  = update (fun f =>
      set_ws (Some (length (sockets (transport c))))
        (set_sockets (sockets f ++ [mkWebSocket url CONNECTING Pending 0]) f))
      (emit (ConnectCall url) c).
Proof.
  unfold connect, bind, modify, gets, throw, ret.
  destruct (ws_readyState (emit (ConnectCall url) c)) as [[]|];
    try (by left); destruct (WebSocket_check url); (by left) || (by right).
Qed.

(** The state after [disconnect]: nothing happened, or [this.ws] got a
    listener and was closed. *)
Lemma disconnect_shape (c : BrowserChannel) :
  snd (disconnect c) = c \/
  exists socket,
    snd (disconnect c)
    = update_socket socket
        (fun w => WebSocket_close (set_close_listeners (S (close_listeners w)) w)) c.
Proof.
  unfold disconnect, bind, gets, modify, ret.
  destruct (ws (transport c)) as [socket|]; [|by left].
  destruct (socket_state c socket) as [[]|]; (by left) || (right; by exists socket).
Qed.

(** The state after the callback of a timer. *)
Lemma reconnect_shape (WebSocket_check : string -> option Error) (url : string)
  (c : BrowserChannel) :
  reconnect WebSocket_check url c
  = snd (connect WebSocket_check url
           (update (fun f => set_reconnectAttempts (reconnectAttempts f + 1) f) c)).
Proof.
  unfold reconnect, try_catch, bind, ret.
  by destruct (connect WebSocket_check url _) as [[socket|e] c1].
Qed.

(** Only [on] and [off] change the registry. *)
Lemma step_registry (WebSocket_check : string -> option Error)
  (call : HandlerRef -> Value -> Message -> HandlerResult)
  (a : Action) (c c' : BrowserChannel) :
  step WebSocket_check call a c = Some c' ->
  is_registration a = false ->
  messageHandlers c' = messageHandlers c.
Proof.
  destruct a as [url| |definition data now|id data now|k handler|k handler
                |maxAttempts baseDelay|socket|socket|socket|socket data now|k];
    cbn [step is_registration]; try discriminate; intros Hstep _.
  - injection Hstep as <-.
    by destruct (connect_shape WebSocket_check url c) as [-> | ->].
  - injection Hstep as <-.
    by destruct (disconnect_shape c) as [-> | [socket ->]].
  - injection Hstep as <-. unfold sendMessage, bind, lift.
    destruct (schema definition data) as [validated|e]; [|reflexivity].
    by destruct (BrowserChannel_send_view (def_id definition) validated now c)
      as (_ & _ & Hregistry).
  - injection Hstep as <-. by destruct (send_fields id data now c) as (_ & _ & Hregistry & _).
  - by injection Hstep as <-.
  - revert Hstep. unfold fire_open.
    destruct (socket_state c socket) as [[]|]; try discriminate. by intros [= <-].
  - revert Hstep. unfold fire_error.
    destruct (socket_state c socket) as [[]|]; try discriminate; by intros [= <-].
  - apply fire_close_inv in Hstep as (w & _ & _ & ->).
    by destruct (close_handlers_spec socket (ws_url w) c) as (_ & Hregistry & _).
  - revert Hstep. unfold fire_message.
    destruct (socket_state c socket) as [[]|]; try discriminate. intros [= <-].
    unfold onmessage. by rewrite handleMessage_run.
  - revert Hstep. unfold fire_timer.
    destruct (timers (transport c) !! k) as [[delay url]|]; [|discriminate].
    intros [= <-]. rewrite reconnect_shape.
    by destruct (connect_shape WebSocket_check url
                   (update (fun f => set_reconnectAttempts (reconnectAttempts f + 1) f)
                      (update (fun f => set_timers (delete k (timers f)) f) c)))
      as [-> | ->].
Qed.

(** Handlers survive the life of the connection: a run in which the
    application calls neither [on] nor [off] (connects, disconnects,
    failures, reconnects, messages, sends) ends with the registry it
    started with. *)
Theorem registry_survives_reconnection
  (WebSocket_check : string -> option Error)
  (call : HandlerRef -> Value -> Message -> HandlerResult)
  (actions : list Action) (c c' : BrowserChannel) :
  forallb (fun a => negb (is_registration a)) actions = true ->
  run WebSocket_check call actions c = Some c' ->
  messageHandlers c' = messageHandlers c.
Proof.
  revert c. induction actions as [|a rest IH]; intros c; cbn [forallb run].
  - by intros _ [= <-].
  - intros [Ha Hrest]%andb_prop.
    destruct (step WebSocket_check call a c) as [c1|] eqn:Hstep; [|discriminate].
    intros Hrun. rewrite (IH c1 Hrest Hrun).
    apply (step_registry _ _ _ _ _ Hstep). by destruct (is_registration a).
Qed.

Lemma registry_survives_reconnection_witness :
  exists c',
    run Samples.any_url Samples.quiet
      [CloseEvent 0%nat; TimerEvent 0%nat; OpenEvent 1%nat]
      (on (ById "ping") 1%nat Samples.open_channel) = Some c' /\
    messageHandlers c' = messageHandlers (on (ById "ping") 1%nat Samples.open_channel).
Proof.
  eexists. split; [vm_compute; reflexivity|].
  apply (registry_survives_reconnection Samples.any_url Samples.quiet
           [CloseEvent 0%nat; TimerEvent 0%nat; OpenEvent 1%nat]);
    [reflexivity|vm_compute; reflexivity].
Defined.

(** In every state a socket channel can reach, each set of the registry
    holds each handler once. *)
Theorem reachable_registry_has_no_duplicates
  (WebSocket_check : string -> option Error)
  (call : HandlerRef -> Value -> Message -> HandlerResult)
  (actions : list Action) (c : BrowserChannel) :
  run WebSocket_check call actions new_BrowserChannel = Some c ->
  registry_ok c.
Proof.
  assert (Hgen : forall c0 : BrowserChannel,
            registry_ok c0 -> run WebSocket_check call actions c0 = Some c ->
            registry_ok c).
  { induction actions as [|a rest IH]; intros c0 Hok; cbn [run].
    - by intros [= <-].
    - destruct (step WebSocket_check call a c0) as [c1|] eqn:Hstep; [|discriminate].
      apply IH. destruct (is_registration a) eqn:Hreg.
      + destruct a; try discriminate; cbn [step] in Hstep; injection Hstep as <-.
        * by apply registry_ok_on.
        * by apply registry_ok_off.
      + intros id handlers Hl.
        rewrite (step_registry _ _ _ _ _ Hstep Hreg) in Hl. by eapply Hok. }
  apply Hgen. apply registry_ok_new.
Qed.

Lemma reachable_registry_has_no_duplicates_witness :
  registry_ok
    (default new_BrowserChannel
       (run Samples.any_url Samples.quiet
          [CallOn (ById "ping") 1%nat; CallOn (ById "ping") 1%nat] new_BrowserChannel)).
Proof.
  apply (reachable_registry_has_no_duplicates Samples.any_url Samples.quiet
           [CallOn (ById "ping") 1%nat; CallOn (ById "ping") 1%nat]).
  reflexivity.
Defined.

(** In every state a socket channel can reach, a socket that is
    connecting or open is [this.ws]: the channel never has two live
    sockets. *)
Theorem at_most_one_live_socket
  (WebSocket_check : string -> option Error)
  (call : HandlerRef -> Value -> Message -> HandlerResult)
  (actions : list Action) (c : BrowserChannel) (i : nat) (w : WebSocket) :
  run WebSocket_check call actions new_BrowserChannel = Some c ->
  sockets (transport c) !! i = Some w ->
  live w ->
  ws (transport c) = Some i.
Proof.
  intros Hrun Hw Hlive.
  assert (Hc : consistent c) by (eapply run_consistent; [apply consistent_new|exact Hrun]).
  destruct Hc as (_ & Hothers & _).
  destruct (decide (ws (transport c) = Some i)) as [|Hne]; [done|].
  destruct (Hothers i (readyState w)) as [Hs|Hs]; [|done| |].
  - by rewrite list_lookup_fmap, Hw.
  - destruct Hlive; congruence.
  - destruct Hlive; congruence.
Qed.

Lemma at_most_one_live_socket_witness :
  ws (transport Samples.open_channel) = Some 0%nat.
Proof.
  apply (at_most_one_live_socket Samples.any_url Samples.quiet
           [CallConnect "ws://localhost:8080"; OpenEvent 0%nat] Samples.open_channel
           0%nat (mkWebSocket "ws://localhost:8080" OPEN Fulfilled 0%nat));
    [reflexivity|reflexivity|by right].
Defined.

(** The attempt counter is reset by the open event, incremented by the
    callback of a timer, and touched by nothing else. *)
Lemma step_attempts (WebSocket_check : string -> option Error)
  (call : HandlerRef -> Value -> Message -> HandlerResult)
  (a : Action) (c c' : BrowserChannel) :
  step WebSocket_check call a c = Some c' ->
  reconnectAttempts (transport c')
  = match a with
    | OpenEvent _ => 0
    | TimerEvent _ => reconnectAttempts (transport c) + 1
    | _ => reconnectAttempts (transport c)
    end.
Proof.
  destruct a as [url| |definition data now|id data now|k handler|k handler
                |maxAttempts baseDelay|socket|socket|socket|socket data now|k];
    cbn [step]; intros Hstep.
  - injection Hstep as <-.
    by destruct (connect_shape WebSocket_check url c) as [-> | ->].
  - injection Hstep as <-.
    by destruct (disconnect_shape c) as [-> | [socket ->]].
  - injection Hstep as <-. unfold sendMessage, bind, lift.
    destruct (schema definition data) as [validated|e]; [|reflexivity].
    destruct (BrowserChannel_send_view (def_id definition) validated now c)
      as (Htransport & _). cbn [send BrowserChannel_Transport].
    exact (f_equal reconnectAttempts Htransport).
  - injection Hstep as <-. destruct (send_fields id data now c) as (Htransport & _).
    exact (f_equal reconnectAttempts Htransport).
  - by injection Hstep as <-.
  - injection Hstep as <-. unfold off.
    by destruct (messageHandlers c !! id_of k).
  - by injection Hstep as <-.
  - by destruct (fire_open_spec socket c c' Hstep).
  - revert Hstep. unfold fire_error.
    destruct (socket_state c socket) as [[]|]; try discriminate; by intros [= <-].
  - apply fire_close_inv in Hstep as (w & _ & _ & ->).
    by destruct (close_handlers_spec socket (ws_url w) c) as (_ & _ & _ & Hattempts & _).
  - revert Hstep. unfold fire_message.
    destruct (socket_state c socket) as [[]|]; try discriminate. intros [= <-].
    unfold onmessage. by rewrite handleMessage_run.
  - revert Hstep. unfold fire_timer.
    destruct (timers (transport c) !! k) as [[delay url]|] eqn:Hk; [|discriminate].
    intros Hstep.
    destruct (fire_timer_spec WebSocket_check k c delay url Hk)
      as (c1 & Hfire & Hattempts & _).
    unfold fire_timer in Hfire. rewrite Hk in Hfire. congruence.
Qed.

Lemma run_attempts_nonnegative (WebSocket_check : string -> option Error)
  (call : HandlerRef -> Value -> Message -> HandlerResult)
  (actions : list Action) (c c' : BrowserChannel) :
  0 <= reconnectAttempts (transport c) ->
  run WebSocket_check call actions c = Some c' ->
  0 <= reconnectAttempts (transport c').
Proof.
  revert c. induction actions as [|a rest IH]; intros c Hc; cbn [run].
  - by intros [= <-].
  - destruct (step WebSocket_check call a c) as [c1|] eqn:Hstep; [|discriminate].
    apply IH. rewrite (step_attempts _ _ _ _ _ Hstep). destruct a; lia.
Qed.

(** [setReconnectOptions(0, d)] switches automatic reconnection off, as
    its documentation says (and so does any [maxAttempts <= 0]): in every
    state the channel can reach, after that call no close event sets a
    timer.  Timers that were set before stay. *)
Theorem no_attempts_allowed_disables_reconnect
  (WebSocket_check : string -> option Error)
  (call : HandlerRef -> Value -> Message -> HandlerResult)
  (actions : list Action) (c c' : BrowserChannel)
  (maxAttempts baseDelay : Z) (socket : nat) :
  run WebSocket_check call actions new_BrowserChannel = Some c ->
  maxAttempts <= 0 ->
  fire_close socket (setReconnectOptions maxAttempts baseDelay c) = Some c' ->
  timers (transport c') = timers (transport c) /\
  new_effects (setReconnectOptions maxAttempts baseDelay c) c' = [].
Proof.
  intros Hrun Hmax Hclose.
  assert (Hattempts : 0 <= reconnectAttempts (transport c))
    by (apply (run_attempts_nonnegative WebSocket_check call actions
                 new_BrowserChannel c); [done|exact Hrun]).
  apply fire_close_inv in Hclose as (w & _ & _ & ->).
  destruct (close_handlers_spec socket (ws_url w)
              (setReconnectOptions maxAttempts baseDelay c))
    as (_ & _ & _ & _ & _ & _ & Htimers).
  cbn [setReconnectOptions update set_transport set_policy transport
       reconnectAttempts maxReconnectAttempts reconnectDelay timers] in Htimers.
  destruct (reconnectAttempts (transport c) <? maxAttempts) eqn:Hlt.
  - apply Z.ltb_lt in Hlt. lia.
  - exact Htimers.
Qed.

Lemma no_attempts_allowed_disables_reconnect_witness :
  exists c',
    fire_close 0%nat (setReconnectOptions 0 1000 Samples.open_channel) = Some c' /\
    timers (transport c') = [].
Proof.
  eexists. split; [reflexivity|].
  apply (no_attempts_allowed_disables_reconnect Samples.any_url Samples.quiet
           [CallConnect "ws://localhost:8080"; OpenEvent 0%nat] Samples.open_channel
           _ 0 1000 0%nat); [reflexivity|lia|reflexivity].
Defined.

(** The attempt counter counts the timer callbacks since the last open
    event: it goes up when a reconnect is started, not when it fails, and
    only an open event brings it back to 0. *)
Theorem attempts_count_timers_since_open
  (WebSocket_check : string -> option Error)
  (call : HandlerRef -> Value -> Message -> HandlerResult)
  (actions : list Action) (c : BrowserChannel) :
  run WebSocket_check call actions new_BrowserChannel = Some c ->
  reconnectAttempts (transport c) = attempts_after actions.
Proof.
  unfold attempts_after.
  change 0 with (reconnectAttempts (transport new_BrowserChannel)) at 1.
  generalize new_BrowserChannel. induction actions as [|a rest IH]; intros c0; cbn [run fold_left].
  - by intros [= <-].
  - destruct (step WebSocket_check call a c0) as [c1|] eqn:Hstep; [|discriminate].
    intros Hrun. rewrite (IH c1 Hrun). f_equal.
    rewrite (step_attempts _ _ _ _ _ Hstep). by destruct a.
Qed.

Lemma attempts_count_timers_since_open_witness :
  exists c,
    run Samples.any_url Samples.quiet Samples.backoff_scenario new_BrowserChannel = Some c /\
    reconnectAttempts (transport c) = 3.
Proof.
  assert (Hrun :
    run Samples.any_url Samples.quiet Samples.backoff_scenario new_BrowserChannel
    = Some (default new_BrowserChannel
              (run Samples.any_url Samples.quiet Samples.backoff_scenario
                 new_BrowserChannel)))
    by (vm_compute; reflexivity).
  eexists. split; [exact Hrun|].
  exact (eq_trans
           (attempts_count_timers_since_open Samples.any_url Samples.quiet
              Samples.backoff_scenario _ Hrun) eq_refl).
Defined.

(** ** The life of a socket *)

Lemma evolves_refl (l : list WebSocket) : evolves l l.
Proof. intros i w Hw. exists w. repeat split; auto. Qed.

Lemma evolves_trans (l1 l2 l3 : list WebSocket) :
  evolves l1 l2 -> evolves l2 l3 -> evolves l1 l3.
Proof.
  intros H12 H23 i w Hw.
  destruct (H12 i w Hw) as (w2 & Hw2 & Hurl2 & Hrank2 & Hpromise2).
  destruct (H23 i w2 Hw2) as (w3 & Hw3 & Hurl3 & Hrank3 & Hpromise3).
  exists w3. split; [done|]. split; [congruence|]. split; [lia|].
  intros Hsettled. rewrite Hpromise3; [by apply Hpromise2|].
  rewrite (Hpromise2 Hsettled). done.
Qed.

Lemma evolves_snoc (l : list WebSocket) (w : WebSocket) : evolves l (l ++ [w]).
Proof.
  intros i w0 Hw0. exists w0. split; [|repeat split; auto].
  rewrite lookup_app_l; [done|]. by eapply lookup_lt_Some.
Qed.

Lemma evolves_alter (l : list WebSocket) (i : nat) (g : WebSocket -> WebSocket) :
  (forall w, l !! i = Some w ->
     ws_url (g w) = ws_url w /\
     (rank (readyState w) <= rank (readyState (g w)))%nat /\
     (connect_promise w <> Pending -> connect_promise (g w) = connect_promise w)) ->
  evolves l (alter g i l).
Proof.
  intros Hg j w Hw. destruct (decide (i = j)) as [->|Hne].
  - exists (g w). rewrite list_lookup_alter_eq, Hw. split; [done|]. by apply Hg.
  - exists w. rewrite list_lookup_alter_ne by done. repeat split; auto.
Qed.

Lemma settle_gentle (p : PromiseState) (w : WebSocket) :
  ws_url (settle p w) = ws_url w /\
  (rank (readyState w) <= rank (readyState (settle p w)))%nat /\
  (connect_promise w <> Pending -> connect_promise (settle p w) = connect_promise w).
Proof.
  unfold settle. destruct (connect_promise w) eqn:Hpromise; cbn;
    repeat split; auto; try lia; intros Hsettled; congruence.
Qed.

Lemma sendMessage_transport (definition : MessageDefinition) (data : Value) (now : Z)
  (c : BrowserChannel) :
  transport (snd (sendMessage definition data now c)) = transport c.
Proof.
  unfold sendMessage, bind, lift.
  destruct (schema definition data) as [validated|e]; [|reflexivity].
  by destruct (BrowserChannel_send_view (def_id definition) validated now c).
Qed.

Lemma connect_evolves (WebSocket_check : string -> option Error) (url : string)
  (c : BrowserChannel) :
  evolves (sockets (transport c)) (sockets (transport (snd (connect WebSocket_check url c)))).
Proof.
  destruct (connect_shape WebSocket_check url c) as [-> | ->].
  - apply evolves_refl.
  - apply evolves_snoc.
Qed.

(** No action removes a socket, changes its url, takes it back to an
    earlier ready state, or changes a promise that is settled. *)
Lemma step_evolves (WebSocket_check : string -> option Error)
  (call : HandlerRef -> Value -> Message -> HandlerResult)
  (a : Action) (c c' : BrowserChannel) :
  step WebSocket_check call a c = Some c' ->
  evolves (sockets (transport c)) (sockets (transport c')).
Proof.
  destruct a as [url| |definition data now|id data now|k handler|k handler
                |maxAttempts baseDelay|socket|socket|socket|socket data now|k];
    cbn [step]; intros Hstep.
  - injection Hstep as <-. apply connect_evolves.
  - injection Hstep as <-. destruct (disconnect_shape c) as [-> | [socket ->]].
    + apply evolves_refl.
    + apply evolves_alter. intros w _. rewrite readyState_after_close.
      unfold WebSocket_close, set_close_listeners. cbn.
      destruct (readyState w); cbn; repeat split; auto.
  - injection Hstep as <-. rewrite sendMessage_transport. apply evolves_refl.
  - injection Hstep as <-. destruct (send_fields id data now c) as (Htransport & _).
    exact (eq_ind_r (fun f => evolves (sockets (transport c)) (sockets f))
             (evolves_refl _) Htransport).
  - injection Hstep as <-. apply evolves_refl.
  - injection Hstep as <-. unfold off.
    destruct (messageHandlers c !! id_of k); apply evolves_refl.
  - injection Hstep as <-. apply evolves_refl.
  - revert Hstep. unfold fire_open, socket_state.
    destruct (sockets (transport c) !! socket) as [w|] eqn:Hw; [|discriminate].
    cbn [fmap option_fmap option_map].
    destruct (readyState w) eqn:Hstate; try discriminate. intros [= <-].
    unfold onopen, update_socket, update.
    cbn [transport set_transport set_isConnected set_sockets set_reconnectAttempts sockets].
    eapply evolves_trans.
    + apply (evolves_alter _ socket (set_readyState OPEN)).
      intros w0 Hw0. rewrite Hw in Hw0. injection Hw0 as <-.
      rewrite Hstate. cbn. repeat split; auto.
    + apply evolves_alter. intros w0 _. apply settle_gentle.
  - revert Hstep. unfold fire_error.
    destruct (socket_state c socket) as [[]|]; try discriminate; intros [= <-];
      unfold onerror, update_socket, update;
      cbn [transport set_transport set_sockets sockets];
      apply evolves_alter; intros w0 _; apply settle_gentle.
  - apply fire_close_inv in Hstep as (w & _ & _ & ->).
    unfold handleClose, onclose, setTimeout, update_socket, update, emit,
      set_isConnected, set_transport, set_timers, set_sockets.
    cbn [transport sockets isConnected messageHandlers effects ws reconnectAttempts
         maxReconnectAttempts reconnectDelay timers].
    assert (Hclosed : evolves (sockets (transport c))
              (alter (set_readyState CLOSED) socket (sockets (transport c)))).
    { apply evolves_alter. intros w0 _. cbn. repeat split; auto.
      destruct (readyState w0); cbn; lia. }
    destruct (reconnectAttempts (transport c) <? maxReconnectAttempts (transport c));
      cbn [transport sockets isConnected messageHandlers effects ws reconnectAttempts
           maxReconnectAttempts reconnectDelay timers];
      (destruct (decide _);
       cbn [transport sockets isConnected messageHandlers effects ws reconnectAttempts
            maxReconnectAttempts reconnectDelay timers];
       [eapply evolves_trans; [exact Hclosed|];
        apply evolves_alter; intros w0 _; cbn; repeat split; auto
       |exact Hclosed]).
  - revert Hstep. unfold fire_message.
    destruct (socket_state c socket) as [[]|]; try discriminate. intros [= <-].
    unfold onmessage. rewrite handleMessage_run. apply evolves_refl.
  - revert Hstep. unfold fire_timer.
    destruct (timers (transport c) !! k) as [[delay url]|]; [|discriminate].
    intros [= <-]. rewrite reconnect_shape.
    apply (connect_evolves WebSocket_check url
             (update (fun f => set_reconnectAttempts (reconnectAttempts f + 1) f)
                (update (fun f => set_timers (delete k (timers f)) f) c))).
Qed.

Lemma run_evolves (WebSocket_check : string -> option Error)
  (call : HandlerRef -> Value -> Message -> HandlerResult)
  (actions : list Action) (c c' : BrowserChannel) :
  run WebSocket_check call actions c = Some c' ->
  evolves (sockets (transport c)) (sockets (transport c')).
Proof.
  revert c. induction actions as [|a rest IH]; intros c; cbn [run].
  - intros [= <-]. apply evolves_refl.
  - destruct (step WebSocket_check call a c) as [c1|] eqn:Hstep; [|discriminate].
    intros Hrun. eapply evolves_trans; [by eapply step_evolves|by apply IH].
Qed.

(** A socket only moves forward, from connecting to open to closing to
    closed: whatever happens later, it is still there with the url it was
    made for and no earlier in its life; a closed socket stays closed, so a
    reconnect never reuses a socket. *)
Theorem sockets_only_move_forward
  (WebSocket_check : string -> option Error)
  (call : HandlerRef -> Value -> Message -> HandlerResult)
  (actions : list Action) (c c' : BrowserChannel) (i : nat) (w : WebSocket) :
  run WebSocket_check call actions c = Some c' ->
  sockets (transport c) !! i = Some w ->
  exists w', sockets (transport c') !! i = Some w' /\
    ws_url w' = ws_url w /\
    (rank (readyState w) <= rank (readyState w'))%nat /\
    (readyState w = CLOSED -> readyState w' = CLOSED).
Proof.
  intros Hrun Hw.
  destruct (run_evolves _ _ _ _ _ Hrun i w Hw) as (w' & Hw' & Hurl & Hrank & _).
  exists w'. repeat split; try done.
  intros Hclosed. rewrite Hclosed in Hrank. destruct (readyState w'); cbn in Hrank; lia || done.
Qed.

Lemma sockets_only_move_forward_witness :
  exists c' w',
    run Samples.any_url Samples.quiet [CloseEvent 0%nat; TimerEvent 0%nat; OpenEvent 1%nat]
      Samples.open_channel = Some c' /\
    sockets (transport c') !! 0%nat = Some w' /\
    ws_url w' = "ws://localhost:8080".
Proof.
  eexists.
  destruct (sockets_only_move_forward Samples.any_url Samples.quiet
              [CloseEvent 0%nat; TimerEvent 0%nat; OpenEvent 1%nat]
              Samples.open_channel _ 0%nat
              (mkWebSocket "ws://localhost:8080" OPEN Fulfilled 0%nat)
              ltac:(vm_compute; reflexivity) eq_refl)
    as (w' & Hw' & Hurl & _).
  exists w'. split; [reflexivity|]. split; [exact Hw'|exact Hurl].
Defined.

(** The promise that [connect] returned is settled once: after it was
    resolved by the open event or rejected by an error event, no later
    event or call changes it. *)
Theorem connect_promise_settles_once
  (WebSocket_check : string -> option Error)
  (call : HandlerRef -> Value -> Message -> HandlerResult)
  (actions : list Action) (c c' : BrowserChannel) (i : nat) (w : WebSocket) :
  run WebSocket_check call actions c = Some c' ->
  sockets (transport c) !! i = Some w ->
  connect_promise w <> Pending ->
  exists w', sockets (transport c') !! i = Some w' /\
    connect_promise w' = connect_promise w.
Proof.
  intros Hrun Hw Hsettled.
  destruct (run_evolves _ _ _ _ _ Hrun i w Hw) as (w' & Hw' & _ & _ & Hpromise).
  exists w'. split; [done|]. by apply Hpromise.
Qed.

Lemma connect_promise_settles_once_witness :
  exists c' w',
    run Samples.any_url Samples.quiet [ErrorEvent 0%nat; CloseEvent 0%nat]
      Samples.open_channel = Some c' /\
    sockets (transport c') !! 0%nat = Some w' /\
    connect_promise w' = Fulfilled.
Proof.
  eexists.
  destruct (connect_promise_settles_once Samples.any_url Samples.quiet
              [ErrorEvent 0%nat; CloseEvent 0%nat]
              Samples.open_channel _ 0%nat
              (mkWebSocket "ws://localhost:8080" OPEN Fulfilled 0%nat)
              ltac:(vm_compute; reflexivity) eq_refl ltac:(discriminate))
    as (w' & Hw' & Hpromise).
  exists w'. split; [reflexivity|]. split; [exact Hw'|exact Hpromise].
Defined.

(** ** Where reconnects go *)

Lemma urls_alter (g : WebSocket -> WebSocket) (i : nat) (l : list WebSocket) :
  (forall w, ws_url (g w) = ws_url w) ->
  ws_url <$> alter g i l = ws_url <$> l.
Proof.
  intros Hg. rewrite (list_fmap_alter ws_url g (fun u => u))
    by (apply Forall_forall; intros w _; apply Hg).
  by apply list_alter_id.
Qed.

Lemma urls_within_mono (known known' : list string) (c : BrowserChannel) :
  (forall u, u ∈ known -> u ∈ known') -> urls_within known c -> urls_within known' c.
Proof. intros Hsub [Hs Ht]. split; eauto. Qed.

Lemma urls_within_connect (WebSocket_check : string -> option Error) (url : string)
  (known : list string) (c : BrowserChannel) :
  url ∈ known -> urls_within known c ->
  urls_within known (snd (connect WebSocket_check url c)).
Proof.
  intros Hurl [Hs Ht]. destruct (connect_shape WebSocket_check url c) as [-> | ->].
  - done.
  - split; [|exact Ht].
    unfold update. cbn [transport set_transport set_ws set_sockets sockets emit].
    intros u. rewrite fmap_app, elem_of_app. intros [Hu|Hu]; [by apply Hs|].
    cbn in Hu. apply list_elem_of_singleton in Hu. by subst.
Qed.

Lemma close_handlers_urls (socket : nat) (url : string) (c : BrowserChannel) :
  ws_url <$> sockets (transport
    (handleClose socket (onclose url (update_socket socket (set_readyState CLOSED) c))))
  = ws_url <$> sockets (transport c).
Proof.
  assert (Honclose : forall c0 : BrowserChannel,
            sockets (transport (onclose url c0)) = sockets (transport c0)).
  { intros c0. unfold onclose, setTimeout, update, emit, set_isConnected,
      set_transport, set_timers.
    cbn [transport reconnectAttempts maxReconnectAttempts].
    by destruct (reconnectAttempts (transport c0) <? maxReconnectAttempts (transport c0)). }
  unfold handleClose. destruct (decide _).
  - unfold update_socket at 1. unfold update.
    cbn [transport set_transport set_sockets sockets].
    rewrite urls_alter by done. rewrite Honclose.
    unfold update_socket, update. cbn [transport set_transport set_sockets sockets].
    by rewrite urls_alter.
  - rewrite Honclose.
    unfold update_socket, update. cbn [transport set_transport set_sockets sockets].
    by rewrite urls_alter.
Qed.

Lemma step_urls_within (WebSocket_check : string -> option Error)
  (call : HandlerRef -> Value -> Message -> HandlerResult)
  (a : Action) (known : list string) (c c' : BrowserChannel) :
  urls_within known c ->
  step WebSocket_check call a c = Some c' ->
  urls_within (known ++ connect_urls [a]) c'.
Proof.
  intros Hc.
  assert (Hgrow : forall u, u ∈ known -> u ∈ known ++ connect_urls [a])
    by (intros u Hu; apply elem_of_app; by left).
  assert (Hsame : forall c1 : BrowserChannel,
            ws_url <$> sockets (transport c1) = ws_url <$> sockets (transport c) ->
            timers (transport c1) = timers (transport c) ->
            urls_within (known ++ connect_urls [a]) c1).
  { intros c1 Hs Ht. apply (urls_within_mono known); [exact Hgrow|].
    destruct Hc as [Hcs Hct]. split.
    - intros u. rewrite Hs. apply Hcs.
    - intros d u. rewrite Ht. apply Hct. }
  destruct a as [url| |definition data now|id data now|k handler|k handler
                |maxAttempts baseDelay|socket|socket|socket|socket data now|k];
    cbn [step]; intros Hstep.
  - injection Hstep as <-. apply urls_within_connect.
    + apply elem_of_app. right. cbn. by left.
    + by apply (urls_within_mono known).
  - injection Hstep as <-. destruct (disconnect_shape c) as [-> | [socket ->]].
    + by apply Hsame.
    + apply Hsame; [|reflexivity].
      unfold update_socket, update. cbn [transport set_transport set_sockets sockets].
      apply urls_alter. intros w. unfold WebSocket_close, set_close_listeners. cbn.
      by destruct (readyState w).
  - injection Hstep as <-. apply Hsame; by rewrite sendMessage_transport.
  - injection Hstep as <-. destruct (send_fields id data now c) as (Htransport & _).
    apply Hsame.
    + exact (f_equal (fun f => ws_url <$> sockets f) Htransport).
    + exact (f_equal timers Htransport).
  - injection Hstep as <-. by apply Hsame.
  - injection Hstep as <-. unfold off.
    destruct (messageHandlers c !! id_of k); by apply Hsame.
  - injection Hstep as <-. by apply Hsame.
  - revert Hstep. unfold fire_open.
    destruct (socket_state c socket) as [[]|]; try discriminate. intros [= <-].
    apply Hsame; [|reflexivity].
    unfold onopen, update_socket, update.
    cbn [transport set_transport set_isConnected set_sockets set_reconnectAttempts sockets].
    rewrite !urls_alter; [done| |]; intros w; [done|].
    unfold settle. by destruct (connect_promise w).
  - revert Hstep. unfold fire_error.
    destruct (socket_state c socket) as [[]|]; try discriminate; intros [= <-];
      (apply Hsame; [|reflexivity]);
      unfold onerror, update_socket, update;
      cbn [transport set_transport set_sockets sockets];
      apply urls_alter; intros w; unfold settle; by destruct (connect_promise w).
  - apply fire_close_inv in Hstep as (w & Hw & _ & ->).
    apply (urls_within_mono known); [exact Hgrow|].
    destruct Hc as [Hcs Hct].
    assert (Hurl : ws_url w ∈ known).
    { apply Hcs. apply list_elem_of_fmap. exists w. split; [done|].
      by eapply list_elem_of_lookup_2. }
    destruct (close_handlers_spec socket (ws_url w) c)
      as (_ & _ & _ & _ & _ & _ & Htimers).
    split.
    + intros u. rewrite close_handlers_urls. apply Hcs.
    + intros d u.
      destruct (reconnectAttempts (transport c) <? maxReconnectAttempts (transport c));
        destruct Htimers as [-> _]; [|apply Hct].
      rewrite elem_of_app. intros [Hin|Hin]; [by eapply Hct|].
      apply list_elem_of_singleton in Hin. by injection Hin as -> ->.
  - revert Hstep. unfold fire_message.
    destruct (socket_state c socket) as [[]|]; try discriminate. intros [= <-].
    unfold onmessage. rewrite handleMessage_run. by apply Hsame.
  - revert Hstep. unfold fire_timer.
    destruct (timers (transport c) !! k) as [[delay url]|] eqn:Hk; [|discriminate].
    intros [= <-]. rewrite reconnect_shape.
    apply (urls_within_mono known); [exact Hgrow|].
    destruct Hc as [Hcs Hct].
    apply urls_within_connect.
    + apply (Hct delay). by eapply list_elem_of_lookup_2.
    + split; [exact Hcs|].
      intros d u Hin. apply (Hct d).
      unfold update in Hin. cbn [transport set_transport set_timers
        set_reconnectAttempts timers] in Hin.
      by eapply list_elem_of_delete_inv.
Qed.

(** Automatic reconnects go only where the application connected: in
    every state the channel can reach, the url of every socket and of every
    pending reconnect timer is one that the application passed to
    [connect]. *)
Theorem reconnects_target_connected_urls
  (WebSocket_check : string -> option Error)
  (call : HandlerRef -> Value -> Message -> HandlerResult)
  (actions : list Action) (c : BrowserChannel) :
  run WebSocket_check call actions new_BrowserChannel = Some c ->
  (forall i w, sockets (transport c) !! i = Some w -> ws_url w ∈ connect_urls actions) /\
  (forall d u, (d, u) ∈ timers (transport c) -> u ∈ connect_urls actions).
Proof.
  intros Hrun.
  assert (Hgen : forall (rest : list Action) (known : list string) (c0 : BrowserChannel),
            urls_within known c0 ->
            run WebSocket_check call rest c0 = Some c ->
            urls_within (known ++ connect_urls rest) c).
  { induction rest as [|a rest IH]; intros known c0 Hc0; cbn [run].
    - intros [= <-]. cbn. by rewrite app_nil_r.
    - destruct (step WebSocket_check call a c0) as [c1|] eqn:Hstep; [|discriminate].
      intros Hrest.
      pose proof (IH _ _ (step_urls_within _ _ _ _ _ _ Hc0 Hstep) Hrest) as Hend.
      replace (known ++ connect_urls (a :: rest))
        with ((known ++ connect_urls [a]) ++ connect_urls rest); [exact Hend|].
      rewrite <- app_assoc. f_equal. unfold connect_urls.
      change (a :: rest) with ([a] ++ rest). by rewrite omap_app. }
  destruct (Hgen actions [] new_BrowserChannel) as [Hs Ht].
  - split; [intros u Hu|intros d u Hu]; cbn in Hu; by apply elem_of_nil in Hu.
  - exact Hrun.
  - split; [|exact Ht].
    intros i w Hw. apply Hs. apply list_elem_of_fmap. exists w. split; [done|].
    by eapply list_elem_of_lookup_2.
Qed.

Lemma reconnects_target_connected_urls_witness :
  exists c,
    run Samples.any_url Samples.quiet Samples.backoff_scenario new_BrowserChannel = Some c /\
    forall i w, sockets (transport c) !! i = Some w ->
                ws_url w ∈ ["ws://localhost:8080"].
Proof.
  assert (Hrun :
    run Samples.any_url Samples.quiet Samples.backoff_scenario new_BrowserChannel
    = Some (default new_BrowserChannel
              (run Samples.any_url Samples.quiet Samples.backoff_scenario
                 new_BrowserChannel)))
    by (vm_compute; reflexivity).
  eexists. split; [exact Hrun|].
  exact (proj1 (reconnects_target_connected_urls Samples.any_url Samples.quiet
                  Samples.backoff_scenario _ Hrun)).
Defined.

(** ** What is written to a socket *)

Lemma handleMessage_log_writes_nothing {T : Type}
  (call : HandlerRef -> Value -> Message -> HandlerResult)
  (rawMessage : Text) (now : Z) (c : Channel T) (socket : nat) (text : Text) :
  SocketSend socket text ∉ handleMessage_log call rawMessage now c.
Proof.
  assert (Hreport : forall prefix e, SocketSend socket text ∉ report_of prefix e).
  { intros prefix e. unfold report_of. destruct (String_of e).
    - intros Hin. apply list_elem_of_singleton in Hin. discriminate.
    - apply not_elem_of_nil. }
  unfold handleMessage_log. rewrite elem_of_app. intros [Hin|Hin].
  - destruct (parse_message rawMessage now) as [message|e];
      [|by apply elem_of_nil in Hin].
    induction (called call message
                 (default [] (Map_get (messageHandlers c) (msg_id message))))
      as [|h rest IH]; [by apply elem_of_nil in Hin|].
    cbn [flat_map] in Hin. apply elem_of_app in Hin as [Hin|Hin]; [|by apply IH].
    unfold handler_log in Hin. apply elem_of_cons in Hin as [Hin|Hin]; [discriminate|].
    destruct (failure_of (call h (msg_data message) message));
      [by apply Hreport in Hin|by apply elem_of_nil in Hin].
  - destruct (caught call rawMessage now c);
      [by apply Hreport in Hin|by apply elem_of_nil in Hin].
Qed.

(** A frame is written only by a call of [sendMessage] or of the public
    [send], only on [this.ws], only while it is open.  [sendMessage]
    writes the frame built from the validated data; [send] validates
    nothing and writes the frame built from the data it is given.  No
    connect, disconnect, reconnect timer or transport event writes to a
    socket. *)
Theorem frames_are_written_only_by_send_on_open_socket
  (WebSocket_check : string -> option Error)
  (call : HandlerRef -> Value -> Message -> HandlerResult)
  (a : Action) (c c' : BrowserChannel) (socket : nat) (text : Text) :
  step WebSocket_check call a c = Some c' ->
  SocketSend socket text ∈ new_effects c c' ->
  ws (transport c) = Some socket /\
  socket_state c socket = Some OPEN /\
  ((exists definition data now validated,
      a = CallSendMessage definition data now /\
      schema definition data = Normal validated /\
      text = validateAndSerialize (def_id definition) validated now) \/
   (exists id data now,
      a = CallSend id data now /\
      text = validateAndSerialize id data now)).
Proof.
  assert (Hnone : forall c1 : BrowserChannel,
            effects c1 = effects c -> SocketSend socket text ∈ new_effects c c1 -> False).
  { intros c1 Heq. unfold new_effects. rewrite Heq, drop_all. apply not_elem_of_nil. }
  assert (Hconnect : forall url (c0 : BrowserChannel),
            effects c0 = effects c ->
            SocketSend socket text ∈ new_effects c (snd (connect WebSocket_check url c0)) ->
            False).
  { intros url c0 Heq. unfold new_effects.
    destruct (connect_shape WebSocket_check url c0) as [-> | ->];
      cbn [effects emit update set_transport]; rewrite Heq, drop_app_length;
      intros Hin; apply list_elem_of_singleton in Hin; discriminate. }
  assert (Hsend : forall id data now,
            SocketSend socket text ∈ new_effects c (snd (BrowserChannel_send id data now c)) ->
            ws (transport c) = Some socket /\
            socket_state c socket = Some OPEN /\
            text = validateAndSerialize id data now).
  { intros id data now.
    unfold BrowserChannel_send, bind, gets, modify, throw, ws_readyState.
    destruct (ws (transport c)) as [current|] eqn:Hws.
    - destruct (socket_state c current) as [[]|] eqn:Hstate; cbn [snd];
        try (intros Hin; exfalso; by apply (Hnone c)).
      unfold new_effects. cbn [effects emit]. rewrite drop_app_length.
      intros Hin. apply list_elem_of_singleton in Hin. injection Hin as -> ->.
      done.
    - cbn [snd]. intros Hin. exfalso. by apply (Hnone c). }
  destruct a as [url| |definition data now|id data now|k handler|k handler
                |maxAttempts baseDelay|s|s|s|s frame now|k];
    cbn [step]; intros Hstep Hin.
  - exfalso. injection Hstep as <-. by apply (Hconnect url c).
  - exfalso. injection Hstep as <-. apply (Hnone (snd (disconnect c))); [|done].
    by destruct (disconnect_shape c) as [-> | [s ->]].
  - injection Hstep as <-. revert Hin.
    unfold sendMessage, bind, lift.
    destruct (schema definition data) as [validated|e] eqn:Hvalid.
    + cbn [send BrowserChannel_Transport]. intros Hin.
      destruct (Hsend _ _ _ Hin) as (Hws & Hopen & ->).
      split; [exact Hws|]. split; [exact Hopen|]. left.
      by exists definition, data, now, validated.
    + cbn [snd]. intros Hin. exfalso. by apply (Hnone c).
  - injection Hstep as <-. destruct (Hsend _ _ _ Hin) as (Hws & Hopen & ->).
    split; [exact Hws|]. split; [exact Hopen|]. right.
    by exists id, data, now.
  - exfalso. injection Hstep as <-. by apply (Hnone (on k handler c)).
  - exfalso. injection Hstep as <-. apply (Hnone (off k handler c)); [|done].
    unfold off. by destruct (messageHandlers c !! id_of k).
  - exfalso. injection Hstep as <-. by apply (Hnone (setReconnectOptions maxAttempts baseDelay c)).
  - exfalso. revert Hstep. unfold fire_open.
    destruct (socket_state c s) as [[]|]; try discriminate. intros [= <-].
    by apply (Hnone _ eq_refl).
  - exfalso. revert Hstep. unfold fire_error.
    destruct (socket_state c s) as [[]|]; try discriminate; intros [= <-];
      by apply (Hnone _ eq_refl).
  - exfalso. apply fire_close_inv in Hstep as (w & _ & _ & ->).
    destruct (close_handlers_spec s (ws_url w) c) as (_ & _ & _ & _ & _ & _ & Heffects).
    destruct (reconnectAttempts (transport c) <? maxReconnectAttempts (transport c));
      destruct Heffects as [_ Heffects]; rewrite Heffects in Hin.
    + apply list_elem_of_singleton in Hin. discriminate.
    + by apply elem_of_nil in Hin.
  - exfalso. revert Hstep. unfold fire_message.
    destruct (socket_state c s) as [[]|]; try discriminate. intros [= <-].
    unfold onmessage in Hin. rewrite handleMessage_run in Hin. cbn [snd] in Hin.
    rewrite new_effects_emit_all in Hin.
    by apply handleMessage_log_writes_nothing in Hin.
  - exfalso. revert Hstep. unfold fire_timer.
    destruct (timers (transport c) !! k) as [[delay url]|] eqn:Hk; [|discriminate].
    intros Hstep.
    destruct (fire_timer_spec WebSocket_check k c delay url Hk)
      as (c1 & Hfire & _ & _ & _ & Heffects).
    unfold fire_timer in Hfire. rewrite Hk in Hfire.
    assert (c1 = c') by congruence. subst c1. rewrite Heffects in Hin.
    apply list_elem_of_singleton in Hin. discriminate.
Qed.

Lemma frames_are_written_only_by_send_on_open_socket_witness :
  schema Samples.ping (VStr "forty-two") = Throw (mkError "ZodError" "Expected number") /\
  ws (transport Samples.open_channel) = Some 0%nat /\
  socket_state Samples.open_channel 0%nat = Some OPEN.
Proof.
  split; [reflexivity|].
  destruct (frames_are_written_only_by_send_on_open_socket Samples.any_url Samples.quiet
              (CallSend "ping" (VStr "forty-two") 1700000000000)
              Samples.open_channel
              (snd (send "ping" (VStr "forty-two") 1700000000000 Samples.open_channel))
              0%nat
              (JsonText (JObj [("id", JStr "ping"); ("data", JStr "forty-two");
                               ("timestamp", JNum 1700000000000)])))
    as (Hws & Hopen & _).
  - reflexivity.
  - vm_compute. by left.
  - split; [exact Hws|exact Hopen].
Defined.

(** * Properties of the peer channel *)

Module PeerProofs.

Import PeerChannel PeerSession.

(** Unfolds the steps of a method of the session down to record
    constructions. *)
Ltac run_session :=
  unfold update_connection, update_platform, update_fields, platform_call,
    set_fields, set_platform, set_channel, fields, bind, gets, modify, ret, throw,
    set_transport, set_isConnected, set_connections, set_channels, set_timeouts,
    set_signaled, set_peerConnection, set_dataChannel, set_remotePeerId,
    set_signalingHandler, set_connectionTimeout, set_pendingIceCandidates;
  cbn [channel platform transport connections channels timeouts next_timeout signaled
       peerConnection dataChannel remotePeerId pendingIceCandidates signalingHandler
       PeerChannel.connectionTimeout connectionTimeoutMillis peerId
       messageHandlers isConnected effects fst snd].

Section WithPlatform.

Variable fails : PlatformCall -> option Error.

(** A candidate that arrives while the connection has no remote
    description is put at the end of the queue. *)
Lemma queue_candidates (early : list Value) :
  forall handlers flag log pc dc millis me remote handler timeout pending plat conn,
    connections plat !! pc = Some conn ->
    remoteDescription conn = None ->
    for_of early (handleIceCandidate fails)
      (mkSession
         (mkChannel handlers flag
            (mkFields (Some pc) dc millis me remote handler timeout pending) log)
         plat)
    = (Normal tt,
       mkSession
         (mkChannel handlers flag
            (mkFields (Some pc) dc millis me remote handler timeout (pending ++ early)) log)
         plat).
Proof.
  induction early as [|candidate rest IH];
    intros handlers flag log pc dc millis me remote handler timeout pending plat conn
      Hconn Hremote; cbn [for_of].
  - unfold ret. by rewrite app_nil_r.
  - unfold bind at 1. unfold handleIceCandidate at 1. run_session.
    rewrite Hconn. destruct conn as [[description|] local added state]; [discriminate|].
    run_session. rewrite (IH _ _ _ _ _ _ _ _ _ _ _ _ _ Hconn Hremote).
    by rewrite <- app_assoc.
Qed.

Lemma alter_known {A} (g : A -> A) (i : nat) (l : list A) (x : A) :
  l !! i = Some x -> alter g i l = <[i := g x]> l.
Proof.
  intros Hx. rewrite list_insert_alter. apply list_alter_ext; [|done].
  intros y Hy. congruence.
Qed.

(** Candidates that the platform takes are appended to those of the
    connection, in order. *)
Lemma add_candidates (candidates : list Value) :
  forall chan conns chans timers next signals pc description local added state,
    (forall candidate, candidate ∈ candidates ->
       fails (AddIceCandidate pc candidate) = None) ->
    conns !! pc = Some (mkPeerConnection description local added state) ->
    for_of candidates (addIceCandidate fails pc)
      (mkSession chan (mkPlatform conns chans timers next signals))
    = (Normal tt,
       mkSession chan
         (mkPlatform
            (<[pc := mkPeerConnection description local (added ++ candidates) state]> conns)
            chans timers next signals)).
Proof.
  induction candidates as [|candidate rest IH];
    intros chan conns chans timers next signals pc description local added state
      Haccept Hconn; cbn [for_of].
  - unfold ret. rewrite app_nil_r. by rewrite list_insert_id.
  - unfold bind at 1. unfold addIceCandidate at 1. run_session.
    rewrite Haccept by (by left). run_session.
    rewrite (alter_known _ _ _ _ Hconn). cbn [remoteDescription localDescription
      addedCandidates connectionState].
    rewrite (IH _ _ _ _ _ _ pc description local (added ++ [candidate]) state).
    + rewrite list_insert_insert_eq, <- app_assoc. reflexivity.
    + intros x Hx. apply Haccept. by right.
    + apply list_lookup_insert_eq. by eapply lookup_lt_Some.
Qed.

(** The loop stops at the first candidate that the platform rejects:
    those before it were added, and the error is thrown. *)
Lemma add_candidates_until_rejected (before : list Value) (bad : Value) (after : list Value)
  (e : Error) :
  forall chan conns chans timers next signals pc description local added state,
    (forall candidate, candidate ∈ before ->
       fails (AddIceCandidate pc candidate) = None) ->
    fails (AddIceCandidate pc bad) = Some e ->
    conns !! pc = Some (mkPeerConnection description local added state) ->
    for_of (before ++ bad :: after) (addIceCandidate fails pc)
      (mkSession chan (mkPlatform conns chans timers next signals))
    = (Throw e,
       mkSession chan
         (mkPlatform
            (<[pc := mkPeerConnection description local (added ++ before) state]> conns)
            chans timers next signals)).
Proof.
  induction before as [|candidate rest IH];
    intros chan conns chans timers next signals pc description local added state
      Haccept Hbad Hconn; cbn [app for_of].
  - unfold bind at 1. unfold addIceCandidate at 1. run_session.
    rewrite Hbad. run_session. rewrite app_nil_r. by rewrite list_insert_id.
  - unfold bind at 1. unfold addIceCandidate at 1. run_session.
    rewrite Haccept by (by left). run_session.
    rewrite (alter_known _ _ _ _ Hconn). cbn [remoteDescription localDescription
      addedCandidates connectionState].
    rewrite (IH _ _ _ _ _ _ pc description local (added ++ [candidate]) state).
    + rewrite list_insert_insert_eq, <- app_assoc. reflexivity.
    + intros x Hx. apply Haccept. by right.
    + exact Hbad.
    + apply list_lookup_insert_eq. by eapply lookup_lt_Some.
Qed.

(** A candidate that arrives when the remote description is set goes to
    the connection at once. *)
Lemma late_candidates (late : list Value) :
  forall handlers flag log pc dc millis me remote handler timeout pending
         conns chans timers next signals description local added state,
    (forall candidate, candidate ∈ late ->
       fails (AddIceCandidate pc candidate) = None) ->
    conns !! pc = Some (mkPeerConnection (Some description) local added state) ->
    for_of late (handleIceCandidate fails)
      (mkSession
         (mkChannel handlers flag
            (mkFields (Some pc) dc millis me remote handler timeout pending) log)
         (mkPlatform conns chans timers next signals))
    = (Normal tt,
       mkSession
         (mkChannel handlers flag
            (mkFields (Some pc) dc millis me remote handler timeout pending) log)
         (mkPlatform
            (<[pc := mkPeerConnection (Some description) local (added ++ late) state]> conns)
            chans timers next signals)).
Proof.
  induction late as [|candidate rest IH];
    intros handlers flag log pc dc millis me remote handler timeout pending
      conns chans timers next signals description local added state Haccept Hconn;
    cbn [for_of].
  - unfold ret. rewrite app_nil_r. by rewrite list_insert_id.
  - unfold bind at 1. unfold handleIceCandidate at 1. run_session.
    rewrite Hconn. unfold addIceCandidate. run_session.
    rewrite Haccept by (by left). run_session.
    rewrite (alter_known _ _ _ _ Hconn). cbn [remoteDescription localDescription
      addedCandidates connectionState].
    rewrite (IH _ _ _ _ _ _ _ _ _ _ _ _ _ _ _ _ description local
               (added ++ [candidate]) state).
    + rewrite list_insert_insert_eq, <- app_assoc. reflexivity.
    + intros x Hx. apply Haccept. by right.
    + apply list_lookup_insert_eq. by eapply lookup_lt_Some.
Qed.

(** [handleAnswer] when the platform takes the answer and the queued
    candidates. *)
Lemma handleAnswer_run (answer : Value) :
  forall handlers flag log pc dc millis me remote handler timeout pending
         conns chans timers next signals description local added state,
    fails (SetRemoteDescription pc answer) = None ->
    (forall candidate, candidate ∈ pending ->
       fails (AddIceCandidate pc candidate) = None) ->
    conns !! pc = Some (mkPeerConnection description local added state) ->
    handleAnswer fails answer
      (mkSession
         (mkChannel handlers flag
            (mkFields (Some pc) dc millis me remote handler timeout pending) log)
         (mkPlatform conns chans timers next signals))
    = (Normal tt,
       mkSession
         (mkChannel handlers flag
            (mkFields (Some pc) dc millis me remote handler timeout []) log)
         (mkPlatform
            (<[pc := mkPeerConnection (Some answer) local (added ++ pending) state]> conns)
            chans timers next signals)).
Proof.
  intros handlers flag log pc dc millis me remote handler timeout pending
    conns chans timers next signals description local added state Hanswer Haccept Hconn.
  unfold handleAnswer, setRemoteDescription, processPendingCandidates. run_session.
  rewrite Hanswer. run_session.
  rewrite (alter_known _ _ _ _ Hconn). cbn [remoteDescription localDescription
    addedCandidates connectionState].
  rewrite (add_candidates pending _ _ _ _ _ _ pc (Some answer) local added state Haccept).
  - by rewrite list_insert_insert_eq.
  - apply list_lookup_insert_eq. by eapply lookup_lt_Some.
Qed.

Lemma bind_normal {W A B} (m : M W A) (k : A -> M W B) (w w' : W) (a : A) :
  m w = (Normal a, w') -> bind m k w = k a w'.
Proof. intros Hm. unfold bind. by rewrite Hm. Qed.

Lemma bind_bind {W A B C} (m : M W A) (f : A -> M W B) (g : B -> M W C) (w : W) :
  bind (bind m f) g w = bind m (fun a => bind (f a) g) w.
Proof. unfold bind. by destruct (m w) as [[a|e] w']. Qed.

(** The loop of [handleAnswer], run without interruption from a position
    of the queue, does what the loop of the definition does on the rest of
    the queue. *)
Lemma drain_uninterrupted (rest : list Value) :
  forall done fuel handlers flag log pc dc millis me remote handler timeout plat,
    (length rest <= fuel)%nat ->
    (let! next := drain_from fails (length done) in
     match next with
     | Some task => resume_times fails fuel task
     | None => ret None
     end)
      (mkSession
         (mkChannel handlers flag
            (mkFields (Some pc) dc millis me remote handler timeout (done ++ rest)) log)
         plat)
    = (do! for_of rest (addIceCandidate fails pc) in
       do! update_fields (set_pendingIceCandidates []) in
       ret None)
        (mkSession
           (mkChannel handlers flag
              (mkFields (Some pc) dc millis me remote handler timeout (done ++ rest)) log)
           plat).
Proof.
  induction rest as [|candidate rest IH];
    intros done fuel handlers flag log pc dc millis me remote handler timeout plat Hfuel.
  - unfold drain_from. run_session.
    rewrite lookup_ge_None_2 by (rewrite app_nil_r; lia).
    cbn [for_of]. run_session. reflexivity.
  - destruct fuel as [|fuel]; [cbn in Hfuel; lia|].
    assert (Hnext : (done ++ candidate :: rest) !! length done = Some candidate)
      by (by apply list_lookup_middle).
    specialize (IH (done ++ [candidate]) fuel handlers flag log pc dc millis me remote
                  handler timeout).
    replace (length (done ++ [candidate])) with (S (length done)) in IH
      by (rewrite length_app; cbn; lia).
    rewrite <- app_assoc in IH. cbn [app] in IH.
    unfold bind at 1. unfold drain_from at 1. unfold the_peerConnection.
    run_session. rewrite Hnext. run_session.
    cbn [for_of resume_times handleAnswer_resume]. unfold addIceCandidate at 1.
    run_session.
    destruct (fails (AddIceCandidate pc candidate)) as [e|] eqn:Hfails;
      cbn [resume_times handleAnswer_resume]; run_session; rewrite Hfails; run_session.
    + reflexivity.
    + apply IH. cbn in Hfuel. lia.
Qed.

(** [handleAnswer] that nothing interrupts, await by await, is the
    [handleAnswer] of the definition. *)
Lemma handleAnswer_uninterrupted (answer : Value) (s : Session) :
  (let! task := handleAnswer_begin answer in
   resume_times fails (S (length (pendingIceCandidates (fields s)))) task) s
  = (do! handleAnswer fails answer in ret None) s.
Proof.
  destruct s as [[handlers flag [current dc millis me remote handler timeout pending] log]
                 plat].
  cbn [fields channel transport pendingIceCandidates].
  unfold handleAnswer_begin, handleAnswer. run_session.
  destruct current as [pc|]; [|reflexivity].
  run_session. cbn [resume_times handleAnswer_resume].
  unfold setRemoteDescription, processPendingCandidates. run_session.
  destruct (fails (SetRemoteDescription pc answer)) as [e|]; run_session; [reflexivity|].
  pose proof (drain_uninterrupted pending [] (length pending) handlers flag log pc dc
                millis me remote handler timeout) as Hdrain.
  cbn [length app] in Hdrain.
  etransitivity; [apply Hdrain; lia|].
  run_session.
  by destruct (for_of pending (addIceCandidate fails pc) _) as [[[]|e] w].
Qed.

(** With a platform that takes every candidate: the loop, gone through
    as far as the candidate after [before], has handed over the
    candidates up to that one and waits for its promise. *)
Lemma drain_to (before : list Value) :
  forall done candidate after chan_handlers flag log pc dc millis me remote handler
         timeout conns chans timers next signals description local added state,
    (forall k, fails k = None) ->
    conns !! pc = Some (mkPeerConnection description local added state) ->
    (let! next := drain_from fails (length done) in
     match next with
     | Some task => resume_times fails (length before) task
     | None => ret None
     end)
      (mkSession
         (mkChannel chan_handlers flag
            (mkFields (Some pc) dc millis me remote handler timeout
               (done ++ before ++ candidate :: after)) log)
         (mkPlatform conns chans timers next signals))
    = (Normal (Some (AwaitsCandidate pc candidate (S (length done + length before)))),
       mkSession
         (mkChannel chan_handlers flag
            (mkFields (Some pc) dc millis me remote handler timeout
               (done ++ before ++ candidate :: after)) log)
         (mkPlatform
            (<[pc := mkPeerConnection description local
                       (added ++ before ++ [candidate]) state]> conns)
            chans timers next signals)).
Proof.
  induction before as [|b before IH];
    intros done candidate after chan_handlers flag log pc dc millis me remote handler
      timeout conns chans timers next signals description local added state
      Haccept Hconn.
  - cbn [app length]. unfold drain_from, the_peerConnection. run_session.
    rewrite list_lookup_middle by reflexivity. run_session.
    rewrite Haccept. run_session. cbn [resume_times]. run_session.
    rewrite (alter_known _ _ _ _ Hconn). cbn [remoteDescription localDescription
      addedCandidates connectionState]. by rewrite Nat.add_0_r.
  - cbn [app length].
    specialize (IH (done ++ [b]) candidate after chan_handlers flag log pc dc millis me
                  remote handler timeout
                  (<[pc := mkPeerConnection description local (added ++ [b]) state]> conns)
                  chans timers next signals description local (added ++ [b]) state Haccept).
    replace (length (done ++ [b])) with (S (length done)) in IH
      by (rewrite length_app; cbn; lia).
    rewrite <- !app_assoc in IH. cbn [app] in IH.
    unfold bind at 1. unfold drain_from at 1. unfold the_peerConnection. run_session.
    rewrite list_lookup_middle by reflexivity. run_session.
    rewrite Haccept. run_session. cbn [resume_times handleAnswer_resume]. run_session.
    rewrite Haccept. run_session.
    rewrite (alter_known _ _ _ _ Hconn). cbn [remoteDescription localDescription
      addedCandidates connectionState].
    etransitivity;
      [apply IH; apply list_lookup_insert_eq; by eapply lookup_lt_Some|].
    rewrite list_insert_insert_eq. do 4 f_equal. lia.
Qed.

End WithPlatform.

End PeerProofs.

Module Peer.

Import PeerChannel PeerSession PeerProofs.

(** The order in which ICE candidates reach the connection.  The
    platform is taken to accept the answer and the candidates, and the
    connection to have no remote description yet.
    - A call of [handleAnswer] that nothing interrupts, taken await by
      await, is the call of the definition.
    - When every call is over before the next one is made, the candidates
      reach the connection in the order in which they arrived: those that
      arrive before the answer wait in the queue, [handleAnswer] hands the
      queue over in order and empties it, and those that arrive later are
      handed over at once.
    - A candidate that arrives while [handleAnswer] is handing the queue
      over is handed over at once, ahead of the queued candidates that
      still wait: the order of arrival is not kept. *)
Theorem ice_candidate_order_is_kept_unless_calls_overlap
  (fails : PlatformCall -> option Error) (answer : Value)
  (s : Session) (pc : nat) (conn : RTCPeerConnection) :
  (forall k, fails k = None) ->
  peerConnection (fields s) = Some pc ->
  connections (platform s) !! pc = Some conn ->
  remoteDescription conn = None ->
  (let! task := handleAnswer_begin answer in
   resume_times fails (S (length (pendingIceCandidates (fields s)))) task) s
  = (do! handleAnswer fails answer in ret None) s /\
  (forall early late,
     exists s',
       (do! for_of early (handleIceCandidate fails) in
        do! handleAnswer fails answer in
        for_of late (handleIceCandidate fails)) s = (Normal tt, s') /\
       connections (platform s') !! pc
       = Some (mkPeerConnection (Some answer) (localDescription conn)
                 (addedCandidates conn ++ pendingIceCandidates (fields s) ++ early ++ late)
                 (connectionState conn)) /\
       pendingIceCandidates (fields s') = []) /\
  (forall before candidate after late,
     pendingIceCandidates (fields s) = before ++ candidate :: after ->
     exists s',
       (let! task := handleAnswer_begin answer in
        let! suspended := resume_times fails (S (length before)) task in
        do! handleIceCandidate fails late in
        match suspended with
        | Some task' => resume_times fails (S (length after)) task'
        | None => ret None
        end) s = (Normal None, s') /\
       connections (platform s') !! pc
       = Some (mkPeerConnection (Some answer) (localDescription conn)
                 (addedCandidates conn ++ before ++ [candidate] ++ [late] ++ after)
                 (connectionState conn)) /\
       pendingIceCandidates (fields s') = []).
Proof.
  intros Haccept Hpc Hconn Hremote.
  split; [apply handleAnswer_uninterrupted|].
  destruct s as [[handlers flag [current dc millis me remote handler timeout pending] log]
                 [conns chans timers next signals]].
  cbn in Hpc, Hconn. subst current.
  destruct conn as [description local added state]. cbn in Hremote. subst description.
  cbn [fields channel transport pendingIceCandidates platform connections
       localDescription addedCandidates connectionState].
  split.
  - intros early late. eexists. split.
    + unfold bind at 1.
      rewrite (queue_candidates fails early handlers flag log pc dc millis me remote
                 handler timeout pending (mkPlatform conns chans timers next signals)
                 _ Hconn eq_refl).
      unfold bind at 1.
      rewrite (handleAnswer_run fails answer _ _ _ _ _ _ _ _ _ _ _ _ _ _ _ _ _ _ _ _
                 (Haccept _) (fun x _ => Haccept _) Hconn).
      apply late_candidates; [intros x _; apply Haccept|].
      apply list_lookup_insert_eq. by eapply lookup_lt_Some.
    + cbn. split; [|reflexivity].
      rewrite list_insert_insert_eq, list_lookup_insert_eq by (by eapply lookup_lt_Some).
      by rewrite <- !app_assoc.
  - intros before candidate after late ->.
    assert (Hlt : (pc < length conns)%nat) by (by eapply lookup_lt_Some).
    pose proof (drain_to fails before [] candidate after handlers flag log pc dc millis
                  me remote handler timeout
                  (<[pc := mkPeerConnection (Some answer) local added state]> conns)
                  chans timers next signals (Some answer) local added state Haccept
                  (list_lookup_insert_eq _ _ _ Hlt)) as Hfirst.
    cbn [length app Nat.add] in Hfirst. rewrite list_insert_insert_eq in Hfirst.
    pose proof (drain_uninterrupted fails after (before ++ [candidate]) (length after)
                  handlers flag log pc dc millis me remote handler timeout) as Hrest.
    replace (length (before ++ [candidate])) with (S (length before)) in Hrest
      by (rewrite length_app; cbn; lia).
    rewrite <- app_assoc in Hrest. cbn [app] in Hrest.
    set (queue := before ++ candidate :: after) in *.
    set (chan := mkChannel handlers flag
                   (mkFields (Some pc) dc millis me remote handler timeout queue) log)
      in *.
    assert (Hdescribe :
      setRemoteDescription fails pc answer
        (mkSession chan (mkPlatform conns chans timers next signals))
      = (Normal tt,
         mkSession chan
           (mkPlatform (<[pc := mkPeerConnection (Some answer) local added state]> conns)
              chans timers next signals))).
    { unfold setRemoteDescription. run_session. rewrite Haccept. run_session.
      by rewrite (alter_known _ _ _ _ Hconn). }
    assert (Hsuspended :
      resume_times fails (S (length before)) (AwaitsDescription pc answer)
        (mkSession chan (mkPlatform conns chans timers next signals))
      = (Normal (Some (AwaitsCandidate pc candidate (S (length before)))),
         mkSession chan
           (mkPlatform
              (<[pc := mkPeerConnection (Some answer) local
                         (added ++ before ++ [candidate]) state]> conns)
              chans timers next signals))).
    { cbn [resume_times handleAnswer_resume]. rewrite bind_bind.
      rewrite (bind_normal _ _ _ _ _ Hdescribe). exact Hfirst. }
    assert (Hlate :
      handleIceCandidate fails late
        (mkSession chan
           (mkPlatform
              (<[pc := mkPeerConnection (Some answer) local
                         (added ++ before ++ [candidate]) state]> conns)
              chans timers next signals))
      = (Normal tt,
         mkSession chan
           (mkPlatform
              (<[pc := mkPeerConnection (Some answer) local
                         ((added ++ before ++ [candidate]) ++ [late]) state]> conns)
              chans timers next signals))).
    { unfold handleIceCandidate, addIceCandidate, chan. run_session.
      rewrite list_lookup_insert_eq by exact Hlt. run_session.
      rewrite Haccept. run_session.
      rewrite (alter_known _ _ _ _ (list_lookup_insert_eq _ _ _ Hlt)).
      by rewrite list_insert_insert_eq. }
    assert (Hwaited :
      platform_call fails (AddIceCandidate pc candidate)
        (mkSession chan
           (mkPlatform
              (<[pc := mkPeerConnection (Some answer) local
                         ((added ++ before ++ [candidate]) ++ [late]) state]> conns)
              chans timers next signals))
      = (Normal tt,
         mkSession chan
           (mkPlatform
              (<[pc := mkPeerConnection (Some answer) local
                         ((added ++ before ++ [candidate]) ++ [late]) state]> conns)
              chans timers next signals))).
    { unfold platform_call. by rewrite Haccept. }
    assert (Hbegin :
      handleAnswer_begin answer
        (mkSession chan (mkPlatform conns chans timers next signals))
      = (Normal (AwaitsDescription pc answer),
         mkSession chan (mkPlatform conns chans timers next signals)))
      by reflexivity.
    eexists. split.
    + rewrite (bind_normal _ _ _ _ _ Hbegin).
      rewrite (bind_normal _ _ _ _ _ Hsuspended).
      rewrite (bind_normal _ _ _ _ _ Hlate).
      cbn [resume_times handleAnswer_resume]. rewrite bind_bind.
      rewrite (bind_normal _ _ _ _ _ Hwaited).
      etransitivity; [apply Hrest; lia|].
      rewrite (bind_normal _ _ _ _ _
                 (add_candidates fails after _ _ _ _ _ _ pc (Some answer) local
                    ((added ++ before ++ [candidate]) ++ [late]) state
                    (fun x _ => Haccept _) (list_lookup_insert_eq _ _ _ Hlt))).
      unfold chan. run_session. reflexivity.
    + cbn. split; [|reflexivity].
      rewrite list_insert_insert_eq, list_lookup_insert_eq by exact Hlt.
      by rewrite <- !app_assoc.
Qed.

Lemma ice_candidate_order_is_kept_unless_calls_overlap_witness :
  exists s',
    (let! task := handleAnswer_begin (VStr "answer-sdp") in
     let! suspended := resume_times PeerSamples.accept_all 1 task in
     do! handleIceCandidate PeerSamples.accept_all (VStr "c3") in
     match suspended with
     | Some task' => resume_times PeerSamples.accept_all 2 task'
     | None => ret None
     end) PeerSamples.waiting = (Normal None, s') /\
    addedCandidates <$> connections (platform s') !! 0%nat
    = Some [VStr "c1"; VStr "c3"; VStr "c2"].
Proof.
  destruct (ice_candidate_order_is_kept_unless_calls_overlap PeerSamples.accept_all
              (VStr "answer-sdp") PeerSamples.waiting 0%nat
              (mkPeerConnection None (Some (VStr "offer-sdp")) [] pcs_new)
              (fun _ => eq_refl) eq_refl eq_refl eq_refl)
    as (_ & _ & Hoverlap).
  destruct (Hoverlap [] (VStr "c1") [VStr "c2"] (VStr "c3") eq_refl)
    as (s' & Hrun & Hconn & _).
  exists s'. split; [exact Hrun|]. rewrite Hconn. reflexivity.
Defined.

(** When the platform rejects one of the queued candidates,
    [handleAnswer] rejects with that error and the queue is left as it
    was, although the remote description is set and the candidates before
    the rejected one were handed over: they are in the queue still. *)
Theorem handleAnswer_failure_keeps_the_queue
  (fails : PlatformCall -> option Error) (answer : Value) (s : Session) (pc : nat)
  (conn : RTCPeerConnection) (before after : list Value) (bad : Value) (e : Error) :
  peerConnection (fields s) = Some pc ->
  connections (platform s) !! pc = Some conn ->
  fails (SetRemoteDescription pc answer) = None ->
  pendingIceCandidates (fields s) = before ++ bad :: after ->
  (forall candidate, candidate ∈ before -> fails (AddIceCandidate pc candidate) = None) ->
  fails (AddIceCandidate pc bad) = Some e ->
  exists s',
    handleAnswer fails answer s = (Throw e, s') /\
    pendingIceCandidates (fields s') = before ++ bad :: after /\
    connections (platform s') !! pc
    = Some (mkPeerConnection (Some answer) (localDescription conn)
              (addedCandidates conn ++ before) (connectionState conn)).
Proof.
  intros Hpc Hconn Hanswer Hpending Haccept Hbad.
  destruct s as [[handlers flag [current dc millis me remote handler timeout pending] log]
                 [conns chans timers next signals]].
  cbn in Hpc, Hconn, Hpending. subst current pending.
  destruct conn as [description local added state].
  eexists. split.
  - unfold handleAnswer, setRemoteDescription, processPendingCandidates. run_session.
    rewrite Hanswer. run_session.
    rewrite (alter_known _ _ _ _ Hconn). cbn [remoteDescription localDescription
      addedCandidates connectionState].
    rewrite (add_candidates_until_rejected fails before bad after e _ _ _ _ _ _ pc
               (Some answer) local added state Haccept Hbad).
    + reflexivity.
    + apply list_lookup_insert_eq. by eapply lookup_lt_Some.
  - cbn. split; [reflexivity|].
    by rewrite list_insert_insert_eq, list_lookup_insert_eq by (by eapply lookup_lt_Some).
Qed.

Lemma handleAnswer_failure_keeps_the_queue_witness :
  exists s',
    handleAnswer PeerSamples.picky (VStr "answer-sdp")
      (snd (for_of [VStr "bad"; VStr "c5"] (handleIceCandidate PeerSamples.picky)
              PeerSamples.waiting))
    = (Throw (mkError "OperationError" "bad candidate"), s') /\
    pendingIceCandidates (fields s') = [VStr "c1"; VStr "c2"; VStr "bad"; VStr "c5"] /\
    addedCandidates <$> connections (platform s') !! 0%nat = Some [VStr "c1"; VStr "c2"].
Proof.
  destruct (handleAnswer_failure_keeps_the_queue PeerSamples.picky (VStr "answer-sdp")
              (snd (for_of [VStr "bad"; VStr "c5"] (handleIceCandidate PeerSamples.picky)
                      PeerSamples.waiting))
              0%nat (mkPeerConnection None (Some (VStr "offer-sdp")) [] pcs_new)
              [VStr "c1"; VStr "c2"] [VStr "c5"] (VStr "bad")
              (mkError "OperationError" "bad candidate")
              eq_refl eq_refl eq_refl eq_refl)
    as (s' & Hrun & Hqueue & Hconn).
  - intros candidate Hin.
    apply elem_of_cons in Hin as [->|Hin]; [reflexivity|].
    apply elem_of_cons in Hin as [->|Hin]; [reflexivity|].
    by apply elem_of_nil in Hin.
  - reflexivity.
  - exists s'. split; [exact Hrun|]. split; [exact Hqueue|]. by rewrite Hconn.
Defined.

Lemma not_in_filtered (id : nat) (l : list nat) : id ∉ filter (fun t => t <> id) l.
Proof. intros Hin. apply list_elem_of_filter in Hin as [Hne _]. by apply Hne. Qed.

(** [disconnect()] always succeeds and resets the session: no peer
    connection, no data channel, no remote peer, not connected; its timer
    is cancelled and the peer connection it had is closed.  It keeps the
    handlers and the queue of candidates, and a second [disconnect()]
    changes nothing. *)
Theorem disconnect_resets_the_session (s : Session) :
  exists s',
    disconnect s = (Normal tt, s') /\
    peerConnection (fields s') = None /\
    dataChannel (fields s') = None /\
    remotePeerId (fields s') = None /\
    PeerChannel.connectionTimeout (fields s') = None /\
    isConnected (channel s') = false /\
    (forall id, PeerChannel.connectionTimeout (fields s) = Some id ->
                id ∉ timeouts (platform s')) /\
    (forall pc conn,
       peerConnection (fields s) = Some pc ->
       connections (platform s) !! pc = Some conn ->
       connectionState <$> connections (platform s') !! pc = Some pcs_closed) /\
    messageHandlers (channel s') = messageHandlers (channel s) /\
    pendingIceCandidates (fields s') = pendingIceCandidates (fields s) /\
    disconnect s' = (Normal tt, s').
Proof.
  destruct s as [[handlers flag [current dc millis me remote handler timeout pending] log]
                 [conns chans timers next signals]].
  unfold disconnect, clearConnectionTimeout, set_channel_state, on_channel,
    PeerChannel.disconnect.
  destruct timeout as [id|]; destruct dc as [[ref state]|]; destruct current as [pc|];
    run_session; rewrite ?decide_True by reflexivity; run_session;
    (eexists; split; [reflexivity|]); cbn;
    repeat split; try discriminate;
    try (intros ? [= <-]; apply not_in_filtered);
    try (intros ? ? [= <-] Hconn; rewrite list_lookup_alter_eq, Hconn; reflexivity).
Qed.


(** After [disconnect()] the session is inert: an answer or an ICE
    candidate that still arrives is rejected with
    [No peer connection available ...], a valid [sendMessage] is rejected
    with [Data channel is not open], and a candidate that the closed
    connection still gathers is not signaled; none of them changes the
    session. *)
Theorem after_disconnect_the_session_is_inert
  (fails : PlatformCall -> option Error) (s : Session)
  (definition : MessageDefinition) (data validated : Value) (now : Z)
  (answer candidate : Value) (pc : nat) (gathered : option Value) :
  schema definition data = Normal validated ->
  is_Some (connections (platform s) !! pc) ->
  handleAnswer fails answer (snd (disconnect s))
  = (Throw (new_Error "No peer connection available to handle answer"),
     snd (disconnect s)) /\
  handleIceCandidate fails candidate (snd (disconnect s))
  = (Throw (new_Error "No peer connection available to handle ICE candidate"),
     snd (disconnect s)) /\
  on_channel (sendMessage definition data now) (snd (disconnect s))
  = (Throw (new_Error "Data channel is not open"), snd (disconnect s)) /\
  fire_icecandidate pc gathered (snd (disconnect s)) = Some (snd (disconnect s)).
Proof.
  intros Hvalid [conn Hconn].
  destruct s as [[handlers flag [current dc millis me remote handler timeout pending] log]
                 [conns chans timers next signals]].
  cbn in Hconn.
  assert (Hthere : forall g, is_Some (alter g pc conns !! pc) /\
                             forall i, is_Some (alter g i conns !! pc)).
  { intros g. split; [|intros i]; rewrite list_lookup_alter; try case_decide;
      subst; rewrite ?Hconn; eauto. }
  unfold disconnect, clearConnectionTimeout, set_channel_state, on_channel,
    PeerChannel.disconnect.
  destruct timeout as [id|]; destruct dc as [[ref state]|]; destruct current as [r|];
    run_session; rewrite ?decide_True by reflexivity; run_session;
    (split; [reflexivity|]); (split; [reflexivity|]);
    (split;
     [unfold on_channel, sendMessage, bind, lift; cbn;
      rewrite Hvalid; reflexivity|]);
    unfold fire_icecandidate; cbn;
    try (destruct (proj2 (Hthere (fun conn0 =>
           mkPeerConnection (remoteDescription conn0) (localDescription conn0)
             (addedCandidates conn0) pcs_closed)) r) as [x ->]);
    rewrite ?Hconn; by destruct gathered, handler.
Qed.

Lemma after_disconnect_the_session_is_inert_witness :
  handleIceCandidate PeerSamples.accept_all (VStr "c9") (snd (disconnect PeerSamples.waiting))
  = (Throw (new_Error "No peer connection available to handle ICE candidate"),
     snd (disconnect PeerSamples.waiting)).
Proof.
  destruct (after_disconnect_the_session_is_inert PeerSamples.accept_all
              PeerSamples.waiting Samples.ping (VNum 1) (VNum 1) 0 (VStr "a") (VStr "c9")
              0%nat None eq_refl ltac:(vm_compute; eauto))
    as (_ & Hcandidate & _).
  exact Hcandidate.
Defined.


(** [handleOffer] on a session without a peer connection (a new one, or
    one that was disconnected) makes a connection, sets the offer as its
    remote description and the answer it returns as its local description,
    records the remote peer, and starts the timeout when one is
    configured.  The candidates that were in the queue, which
    [disconnect()] does not empty, are handed to the new connection, and
    the queue is emptied. *)
Theorem handleOffer_adopts_the_queue
  (fails : PlatformCall -> option Error) (answer_of : nat -> Value)
  (offer : Value) (fromPeerId : string) (s : Session) :
  (forall k, fails k = None) ->
  peerConnection (fields s) = None ->
  exists s',
    handleOffer fails answer_of offer fromPeerId s
    = (Normal (answer_of (length (connections (platform s)))), s') /\
    peerConnection (fields s') = Some (length (connections (platform s))) /\
    remotePeerId (fields s') = Some fromPeerId /\
    connections (platform s')
    = connections (platform s)
      ++ [mkPeerConnection (Some offer)
            (Some (answer_of (length (connections (platform s)))))
            (pendingIceCandidates (fields s)) pcs_new] /\
    pendingIceCandidates (fields s') = [] /\
    isConnected (channel s') = isConnected (channel s) /\
    (if Z.eqb (connectionTimeoutMillis (fields s)) 0
     then timeouts (platform s') = timeouts (platform s)
     else timeouts (platform s') = timeouts (platform s) ++ [next_timeout (platform s)] /\
          PeerChannel.connectionTimeout (fields s') = Some (next_timeout (platform s))).
Proof.
  intros Haccept Hnone.
  destruct s as [[handlers flag [current dc millis me remote handler timeout pending] log]
                 [conns chans timers next signals]].
  cbn in Hnone. subst current.
  cbn [fields channel platform transport connectionTimeoutMillis].
  destruct (Z.eqb millis 0) eqn:Hmillis;
    (eexists; split;
     [unfold handleOffer, initializePeerConnection, the_peerConnection,
        setRemoteDescription;
      run_session; rewrite ?Haccept; run_session; rewrite ?Haccept; run_session;
      rewrite BrowserProofs.alter_snoc;
      cbn [remoteDescription localDescription addedCandidates connectionState];
      unfold processPendingCandidates; run_session;
      rewrite (add_candidates fails pending _ _ _ _ _ _ (length conns) (Some offer)
                 None [] pcs_new (fun x _ => Haccept _) (BrowserProofs.lookup_snoc _ _));
      run_session; rewrite ?Haccept; run_session; rewrite ?Haccept; run_session;
      rewrite list_insert_alter, !BrowserProofs.alter_snoc;
      cbn [remoteDescription localDescription addedCandidates connectionState app];
      unfold startConnectionTimeout; run_session; rewrite Hmillis; run_session;
      reflexivity
     |cbn; repeat split]).
Qed.

Lemma handleOffer_adopts_the_queue_witness :
  exists s',
    handleOffer PeerSamples.accept_all PeerSamples.answers (VStr "offer-2") "peer-c"
      (snd (disconnect PeerSamples.waiting))
    = (Normal (VStr "answer-sdp"), s') /\
    addedCandidates <$> connections (platform s') !! 1%nat
    = Some [VStr "c1"; VStr "c2"].
Proof.
  destruct (handleOffer_adopts_the_queue PeerSamples.accept_all PeerSamples.answers
              (VStr "offer-2") "peer-c" (snd (disconnect PeerSamples.waiting))
              (fun _ => eq_refl) eq_refl)
    as (s' & Hrun & _ & _ & Hconns & _).
  exists s'. split; [exact Hrun|]. rewrite Hconns. reflexivity.
Defined.


(** When a connection timer fires, a session that is connected only
    loses the timer; a session that is not connected is disconnected: no
    peer connection, no data channel, no remote peer. *)
Theorem connection_timeout_disconnects_when_not_connected (s : Session) (id : nat) :
  id ∈ timeouts (platform s) ->
  exists s',
    fire_timeout id s = Some s' /\
    (id ∉ timeouts (platform s')) /\
    (if isConnected (channel s)
     then channel s' = channel s /\
          connections (platform s') = connections (platform s) /\
          channels (platform s') = channels (platform s)
     else peerConnection (fields s') = None /\
          dataChannel (fields s') = None /\
          remotePeerId (fields s') = None /\
          isConnected (channel s') = false).
Proof.
  intros Hpending. unfold fire_timeout. rewrite decide_True by done.
  destruct s as [[handlers flag [current dc millis me remote handler timeout pending] log]
                 [conns chans timers next signals]].
  cbn [channel platform isConnected timeouts next_timeout set_platform set_timeouts]
    in *.
  destruct flag; cbn [isConnected channel set_platform].
  - eexists. split; [reflexivity|]. cbn. split; [apply not_in_filtered|]. repeat split.
  - unfold disconnect, clearConnectionTimeout, set_channel_state, on_channel,
      PeerChannel.disconnect.
    destruct timeout as [handle|]; destruct dc as [[ref state]|];
      destruct current as [pc|];
      run_session; rewrite ?decide_True by reflexivity; run_session;
      (eexists; split; [reflexivity|]); cbn; repeat split;
      try apply not_in_filtered;
      intros Hin; apply list_elem_of_filter in Hin as [_ Hin];
      by apply not_in_filtered in Hin.
Qed.

Lemma connection_timeout_disconnects_when_not_connected_witness :
  exists s',
    fire_timeout 0%nat PeerSamples.waiting = Some s' /\
    peerConnection (fields s') = None.
Proof.
  destruct (connection_timeout_disconnects_when_not_connected PeerSamples.waiting 0%nat)
    as (s' & Hfire & _ & Hreset).
  - vm_compute. by left.
  - exists s'. split; [exact Hfire|]. exact (proj1 Hreset).
Defined.

(** An offer that the platform accepts, followed by the open event of its
    data channel, connects the channel: [createOffer] returns the offer,
    makes the peer connection and a connecting data channel and leaves the
    channel not open; the open event opens it and cancels the timer; a
    valid [sendMessage] then writes its frame on that data channel; and
    after the close event of the data channel the channel is not open and
    [sendMessage] is rejected. *)
Theorem offer_then_open_connects
  (fails : PlatformCall -> option Error) (offer_of : nat -> Value) (remote : string)
  (definition : MessageDefinition) (data validated : Value) (now : Z) (s : Session) :
  (forall k, fails k = None) ->
  peerConnection (fields s) = None ->
  schema definition data = Normal validated ->
  exists s1 s2 s3,
    createOffer fails offer_of remote s
    = (Normal (offer_of (length (connections (platform s)))), s1) /\
    dataChannel (fields s1) = Some (length (channels (platform s)), dc_connecting) /\
    remotePeerId (fields s1) = Some remote /\
    isOpen (channel s1) = isOpen (channel s) /\
    fire_channel_open (length (channels (platform s))) s1 = Some s2 /\
    isOpen (channel s2) = true /\
    PeerChannel.connectionTimeout (fields s2) = None /\
    (forall id, PeerChannel.connectionTimeout (fields s1) = Some id ->
                id ∉ timeouts (platform s2)) /\
    on_channel (sendMessage definition data now) s2
    = (Normal tt,
       set_channel
         (emit (SocketSend (length (channels (platform s)))
                  (validateAndSerialize (def_id definition) validated now))
            (channel s2)) s2) /\
    fire_channel_close (length (channels (platform s))) s2 = Some s3 /\
    isOpen (channel s3) = false /\
    on_channel (sendMessage definition data now) s3
    = (Throw (new_Error "Data channel is not open"), s3).
Proof.
  intros Haccept Hnone Hvalid.
  destruct s as [[handlers flag [current dc millis me old handler timeout pending] log]
                 [conns chans timers next signals]].
  cbn in Hnone. subst current.
  cbn [fields channel platform transport connections channels].
  destruct (Z.eqb millis 0) eqn:Hmillis; destruct timeout as [handle|];
    (eexists; eexists; eexists; split;
     [unfold createOffer, initializePeerConnection, the_peerConnection,
        startConnectionTimeout;
      run_session; rewrite ?Haccept; run_session; rewrite ?Haccept; run_session;
      rewrite ?Haccept; run_session; rewrite ?Haccept; run_session;
      rewrite ?Hmillis; run_session; reflexivity|]);
    (split; [reflexivity|]); (split; [reflexivity|]); (split; [reflexivity|]);
    (split;
     [unfold fire_channel_open; cbn [platform channels];
      rewrite BrowserProofs.lookup_snoc;
      unfold set_channel_state, on_channel, clearConnectionTimeout;
      run_session; rewrite ?decide_True by reflexivity; run_session; reflexivity|]);
    (split; [reflexivity|]); (split; [reflexivity|]);
    (split; [cbn; try (intros id [= <-]; apply not_in_filtered); discriminate|]);
    (split;
     [unfold on_channel, sendMessage, bind, lift; cbn; rewrite Hvalid; reflexivity|]);
    (split;
     [unfold fire_channel_close; cbn [platform channels];
      rewrite list_lookup_insert_eq
        by (rewrite length_app; cbn; lia);
      unfold set_channel_state, on_channel;
      run_session; rewrite ?decide_True by reflexivity; run_session; reflexivity|]);
    (split; [reflexivity|]);
    unfold on_channel, sendMessage, bind, lift; cbn; rewrite Hvalid; reflexivity.
Qed.

Lemma offer_then_open_connects_witness :
  isOpen (channel PeerSamples.connected) = true /\
  on_channel (sendMessage Samples.ping (VNum 7) 1700000000000) PeerSamples.connected
  = (Normal tt,
     set_channel
       (emit (SocketSend 0%nat
                (validateAndSerialize "ping" (VNum 7) 1700000000000))
          (channel PeerSamples.connected)) PeerSamples.connected).
Proof.
  destruct (offer_then_open_connects PeerSamples.accept_all PeerSamples.offers "peer-b"
              Samples.ping (VNum 7) (VNum 7) 1700000000000
              (new_Session "peer-a" None) (fun _ => eq_refl) eq_refl eq_refl)
    as (s1 & s2 & s3 & Hoffer & _ & _ & _ & Hopen & Hflag & _ & _ & Hsend & _).
  assert (Hs1 : s1 = PeerSamples.offering).
  { unfold PeerSamples.offering. by rewrite Hoffer. }
  subst s1.
  assert (Hs2 : s2 = PeerSamples.connected).
  { change (fire_channel_open 0%nat PeerSamples.offering = Some s2) in Hopen.
    unfold PeerSamples.connected. by rewrite Hopen. }
  subst s2. split; [exact Hflag|exact Hsend].
Defined.


(** A change of the connection state of [this.peerConnection] never opens
    the channel: [connected] only cancels the connection timer (the channel
    opens with the data channel, not with the connection); [failed],
    [disconnected] and [closed] mark the channel as not connected and
    cancel the timer, and keep the peer connection and the data channel
    (this is not [disconnect]); [new] and [connecting] change nothing. *)
Theorem connection_state_change_never_opens
  (pc : nat) (state : PeerConnectionState) (s : Session) :
  peerConnection (fields s) = Some pc ->
  is_Some (connections (platform s) !! pc) ->
  exists s',
    fire_connectionstatechange pc state s = Some s' /\
    isConnected (channel s')
    = match state with
      | pcs_new | pcs_connecting | pcs_connected => isConnected (channel s)
      | _ => false
      end /\
    PeerChannel.connectionTimeout (fields s')
    = match state with
      | pcs_new | pcs_connecting => PeerChannel.connectionTimeout (fields s)
      | _ => None
      end /\
    (forall id, PeerChannel.connectionTimeout (fields s) = Some id ->
                state <> pcs_new -> state <> pcs_connecting ->
                id ∉ timeouts (platform s')) /\
    peerConnection (fields s') = Some pc /\
    dataChannel (fields s') = dataChannel (fields s) /\
    channels (platform s') = channels (platform s) /\
    messageHandlers (channel s') = messageHandlers (channel s).
Proof.
  intros Hcurrent [conn Hconn].
  destruct s as [[handlers flag [current dc millis me remote handler timeout pending] log]
                 [conns chans timers next signals]].
  cbn in Hcurrent, Hconn. subst current.
  unfold fire_connectionstatechange. cbn [platform connections]. rewrite Hconn.
  destruct state, timeout as [handle|];
    (eexists; split;
     [run_session; rewrite list_lookup_alter_eq, Hconn;
      cbn [fmap option_fmap option_map connectionState];
      unfold clearConnectionTimeout, on_channel; run_session; reflexivity|]);
    cbn; repeat split; try congruence;
    intros id [= <-] _ _; apply not_in_filtered.
Qed.

Lemma connection_state_change_never_opens_witness :
  exists s',
    fire_connectionstatechange 0%nat pcs_connected PeerSamples.offering = Some s' /\
    isConnected (channel s') = false /\
    PeerChannel.connectionTimeout (fields s') = None.
Proof.
  destruct (connection_state_change_never_opens 0%nat pcs_connected PeerSamples.offering
              eq_refl (mk_is_Some _ _ eq_refl))
    as (s' & Hfire & Hflag & Htimer & _).
  exists s'. split; [exact Hfire|]. split; [exact Hflag|exact Htimer].
Defined.


(** A second [createOffer] reuses the peer connection and replaces
    [this.dataChannel] and [this.connectionTimeout] without closing the
    first data channel or cancelling the first timer.  When the first data
    channel then opens, [isOpen()] is true although [sendMessage] is
    rejected ([this.dataChannel] is the second channel, which is still
    connecting), and the first timer is still pending. *)
Theorem second_offer_orphans_the_first
  (fails : PlatformCall -> option Error) (offer_of : nat -> Value)
  (remote remote' : string)
  (definition : MessageDefinition) (data validated : Value) (now : Z) (s : Session) :
  (forall k, fails k = None) ->
  peerConnection (fields s) = None ->
  connectionTimeoutMillis (fields s) <> 0 ->
  schema definition data = Normal validated ->
  exists s1 s2 s3,
    createOffer fails offer_of remote s
    = (Normal (offer_of (length (connections (platform s)))), s1) /\
    createOffer fails offer_of remote' s1
    = (Normal (offer_of (length (connections (platform s)))), s2) /\
    peerConnection (fields s2) = Some (length (connections (platform s))) /\
    length (connections (platform s2)) = S (length (connections (platform s))) /\
    dataChannel (fields s2) = Some (S (length (channels (platform s))), dc_connecting) /\
    PeerChannel.connectionTimeout (fields s2) = Some (S (next_timeout (platform s))) /\
    fire_channel_open (length (channels (platform s))) s2 = Some s3 /\
    isOpen (channel s3) = true /\
    on_channel (sendMessage definition data now) s3
    = (Throw (new_Error "Data channel is not open"), s3) /\
    next_timeout (platform s) ∈ timeouts (platform s3).
Proof.
  intros Haccept Hnone Hmillis Hvalid.
  destruct s as [[handlers flag [current dc millis me old handler timeout pending] log]
                 [conns chans timers next signals]].
  cbn in Hnone, Hmillis. subst current. apply Z.eqb_neq in Hmillis.
  cbn [fields channel platform transport connections channels next_timeout].
  eexists; eexists; eexists; split;
    [unfold createOffer, initializePeerConnection, the_peerConnection,
       startConnectionTimeout;
     run_session; rewrite ?Haccept; run_session; rewrite ?Haccept; run_session;
     rewrite ?Haccept; run_session; rewrite ?Haccept; run_session;
     rewrite Hmillis; run_session; reflexivity|].
  split;
    [unfold createOffer, initializePeerConnection, the_peerConnection,
       startConnectionTimeout;
     run_session; rewrite ?Haccept; run_session; rewrite ?Haccept; run_session;
     rewrite ?Haccept; run_session; rewrite Hmillis; run_session; reflexivity|].
  split; [reflexivity|].
  split; [cbn; rewrite !length_alter, length_app; cbn; lia|].
  split; [cbn; by rewrite length_app, Nat.add_1_r|].
  split; [reflexivity|].
  split.
  { unfold fire_channel_open. cbn [platform channels].
    rewrite lookup_app_l by (rewrite length_app; cbn; lia).
    rewrite BrowserProofs.lookup_snoc.
    unfold set_channel_state, on_channel, clearConnectionTimeout.
    run_session. rewrite length_app. cbn [length].
    rewrite decide_False by lia. run_session. reflexivity. }
  split; [reflexivity|].
  split.
  { unfold on_channel, sendMessage, bind, lift. cbn. by rewrite Hvalid. }
  cbn. apply list_elem_of_filter. split; [lia|].
  apply elem_of_app. left. apply elem_of_app. right. by left.
Qed.

Lemma second_offer_orphans_the_first_witness :
  exists s3,
    fire_channel_open 0%nat
      (snd (createOffer PeerSamples.accept_all PeerSamples.offers "peer-c"
              PeerSamples.offering)) = Some s3 /\
    isOpen (channel s3) = true /\
    on_channel (sendMessage Samples.ping (VNum 7) 1700000000000) s3
    = (Throw (new_Error "Data channel is not open"), s3).
Proof.
  destruct (second_offer_orphans_the_first PeerSamples.accept_all PeerSamples.offers
              "peer-b" "peer-c" Samples.ping (VNum 7) (VNum 7) 1700000000000
              (new_Session "peer-a" None) (fun _ => eq_refl) eq_refl
              ltac:(discriminate) eq_refl)
    as (s1 & s2 & s3 & Hfirst & Hsecond & _ & _ & _ & _ & Hopen & Hflag & Hsend & _).
  assert (Hs1 : s1 = PeerSamples.offering).
  { unfold PeerSamples.offering. by rewrite Hfirst. }
  subst s1. exists s3. rewrite Hsecond. cbn [snd].
  split; [exact Hopen|]. split; [exact Hflag|exact Hsend].
Defined.

End Peer.
